(** * secrets-manager: token service, quota ledger, secret catalog and
      secret lifecycle, embedded from the Go sources.

    Layout of the development:
    - [error], [result]: Go's [error] values and [(T, error)] returns;
    - [Jwt]: the part of github.com/golang-jwt/jwt/v4 that the auth
      services call ([Parse], [MapClaims.Valid], [errors.Is]);
    - [Storage]: the MySQL tables as lists of rows and the repository
      and subscription-service queries over them;
    - [LegacyService], [Service], [ServiceImproved]: the three
      authentication services of package auth;
    - [Vault], [Handlers]: the value store client, the vault service and
      the HTTP handlers for secrets;
    - then the theorems. *)

From Stdlib Require Import ZArith Lia Bool.
From stdpp Require Import base gmap strings list fin_maps.

Local Open Scope string_scope.
Local Open Scope Z_scope.

(** ** Go errors and fallible returns *)

(** The sentinel errors of the packages involved.  Go compares them by
    identity, so each sentinel is one constructor; packages auth and
    storage both declare an "utilisateur non trouvé" sentinel and they
    are different values. *)
Inductive error : Type :=
| sql_ErrNoRows
| sql_DriverError (msg : string)
| jwt_ValidationError (Errors : Z)
| auth_ErrInvalidCredentials
| auth_ErrUserExists
| auth_ErrInvalidToken
| auth_ErrUserNotFound
| auth_ErrTokenExpired
| storage_ErrUserNotFound
| storage_ErrSubscriptionLimitReached
| vault_Error (msg : string)
| fmt_Error (msg : string).

Inductive result (A : Type) : Type :=
| Ok (a : A)
| Err (e : error).
Arguments Ok {A} a.
Arguments Err {A} e.

(** Go's [==] and [!=] on strings. *)
Definition streq (a b : string) : bool := bool_decide (a = b).

(** ** github.com/golang-jwt/jwt/v4, as far as package auth uses it *)

Module Jwt.

(** Signing methods named in a token header.  The key function of the
    services accepts the HMAC family only. *)
Inductive SigningMethod : Type := HS256 | HS384 | HS512 | RS256 | ES256 | none.

Definition SigningMethodHMAC (m : SigningMethod) : bool :=
  match m with HS256 | HS384 | HS512 => true | _ => false end.

(** A JSON claim value after decoding into [MapClaims]: numbers are
    kept as integers (the services mint [Unix()] seconds). *)
Inductive claim : Type :=
| CString (s : string)
| CNumber (n : Z)
| CBool (b : bool).

Record Token : Type := mkToken {
  Method : SigningMethod;
  Claims : gmap string claim;
  (* the key the signature part was computed with *)
  SignedWith : string;
  Valid : bool
}.

(** A token string on the wire: either three well-formed segments,
    or anything else. *)
Inductive TokenString : Type :=
| Compact (t : Token)
| Garbage (raw : string).

(** [ValidationError.Errors] bit flags. *)
Definition ValidationErrorMalformed : Z := Z.shiftl 1 0.
Definition ValidationErrorUnverifiable : Z := Z.shiftl 1 1.
Definition ValidationErrorSignatureInvalid : Z := Z.shiftl 1 2.
Definition ValidationErrorExpired : Z := Z.shiftl 1 4.
Definition ValidationErrorIssuedAt : Z := Z.shiftl 1 5.
Definition ValidationErrorNotValidYet : Z := Z.shiftl 1 7.

(** The library sentinels that [ValidationError.Is] matches by flag. *)
Inductive sentinel : Type :=
| ErrTokenMalformed
| ErrTokenUnverifiable
| ErrTokenSignatureInvalid
| ErrTokenExpired
| ErrTokenUsedBeforeIssued
| ErrTokenNotValidYet.

Definition flag_of (s : sentinel) : Z :=
  match s with
  | ErrTokenMalformed => ValidationErrorMalformed
  | ErrTokenUnverifiable => ValidationErrorUnverifiable
  | ErrTokenSignatureInvalid => ValidationErrorSignatureInvalid
  | ErrTokenExpired => ValidationErrorExpired
  | ErrTokenUsedBeforeIssued => ValidationErrorIssuedAt
  | ErrTokenNotValidYet => ValidationErrorNotValidYet
  end.

(** [errors.Is(err, target)] for an error returned by [Parse]. *)
Definition Is (e : error) (target : sentinel) : bool :=
  match e with
  | jwt_ValidationError Errors => negb (Z.land Errors (flag_of target) =? 0)
  | _ => false
  end.

Definition verifyExp (exp : option Z) (now : Z) (required : bool) : bool :=
  match exp with
  | None => negb required
  | Some e => now <? e
  end.

Definition verifyIat (iat : option Z) (now : Z) (required : bool) : bool :=
  match iat with
  | None => negb required
  | Some i => i <=? now
  end.

Definition verifyNbf (nbf : option Z) (now : Z) (required : bool) : bool :=
  match nbf with
  | None => negb required
  | Some n => n <=? now
  end.

(** The three [MapClaims.Verify...] methods share one shape: an absent
    claim or a zero number counts as unset, a non-number fails. *)
Definition verifyClaim (check : option Z -> Z -> bool -> bool)
    (m : gmap string claim) (key : string) (cmp : Z) (req : bool) : bool :=
  match m !! key with
  | None => negb req
  | Some (CNumber v) => if v =? 0 then check None cmp req else check (Some v) cmp req
  | Some _ => false
  end.

Definition VerifyExpiresAt := verifyClaim verifyExp.
Definition VerifyIssuedAt := verifyClaim verifyIat.
Definition VerifyNotBefore := verifyClaim verifyNbf.

(** [MapClaims.Valid]: the flags of the time checks, 0 when valid. *)
Definition ClaimsValid (m : gmap string claim) (now : Z) : Z :=
  Z.lor (if VerifyExpiresAt m "exp" now false then 0 else ValidationErrorExpired)
    (Z.lor (if VerifyIssuedAt m "iat" now false then 0 else ValidationErrorIssuedAt)
           (if VerifyNotBefore m "nbf" now false then 0 else ValidationErrorNotValidYet)).

(** HMAC verification, idealised: a signature verifies under a key
    exactly when it was produced with that key. *)
Definition Verify (t : Token) (key : string) : bool :=
  bool_decide (SignedWith t = key).

(** The v4 releases differ in one respect that the callers can see:
    up to 4.5.0 the claims are validated before the signature and the
    flags are merged; from 4.5.1 an invalid signature returns at once. *)
Inductive release : Type := MergedErrors | SignatureFirst.

Definition Parse (rel : release) (tokenString : TokenString)
    (keyFunc : Token -> result string) (now : Z) : result Token :=
  match tokenString with
  | Garbage _ => Err (jwt_ValidationError ValidationErrorMalformed)
  | Compact t =>
      match keyFunc t with
      | Err _ => Err (jwt_ValidationError ValidationErrorUnverifiable)
      | Ok key =>
          let sigErr := if Verify t key then 0 else ValidationErrorSignatureInvalid in
          let vErr :=
            match rel with
            | MergedErrors => Z.lor (ClaimsValid (Claims t) now) sigErr
            | SignatureFirst =>
                if sigErr =? 0 then ClaimsValid (Claims t) now else sigErr
            end in
          if vErr =? 0
          then Ok (mkToken (Method t) (Claims t) (SignedWith t) true)
          else Err (jwt_ValidationError vErr)
      end
  end.

(** [jwt.NewWithClaims(method, claims)] followed by [SignedString(key)]. *)
Definition SignedString (method : SigningMethod) (claims : gmap string claim)
    (key : string) : TokenString :=
  Compact (mkToken method claims key false).

End Jwt.

(** ** Package models *)

(** Timestamps ([time.Time], DATETIME) are Unix seconds; the zero
    [time.Time] is 0.  Go [int] fields are only scanned and compared,
    never computed on, so they are plain integers. *)
Module Models.

Module User.
Record t : Type := mk {
  ID : string; Email : string; HashedPassword : string;
  FirstName : string; LastName : string; Role : string;
  CreatedAt : Z; UpdatedAt : Z
}.
End User.

Module Secret.
Record t : Type := mk {
  ID : string; Name : string; Value : string; Description : string;
  OrganizationID : string; ProjectID : string; Environment : string;
  CreatedBy : string; CreatedAt : Z; UpdatedAt : Z; Version : Z
}.
End Secret.

Module SecretMetadata.
Record t : Type := mk {
  ID : string; Name : string; Description : string;
  OrganizationID : string; ProjectID : string; Environment : string;
  CreatedBy : string; CreatedAt : Z; UpdatedAt : Z; Version : Z
}.
End SecretMetadata.

Module Subscription.
Record t : Type := mk {
  ID : string; OrganizationID : string; PlanID : string;
  Status : string; SecretsLimit : Z;
  StartDate : Z; EndDate : Z; CreatedAt : Z; UpdatedAt : Z
}.
End Subscription.

End Models.

(** ** Package storage: tables, statements, repositories *)

Module Storage.
Import Models.

(** A row of table usage_statistics (scripts/vault.sql). *)
Module UsageStatistics.
Record t : Type := mk {
  id : string; organization_id : string;
  secret_count : Z; api_calls : Z; last_updated : Z
}.
End UsageStatistics.

(** The database: the four tables the modelled code reads and writes,
    each a list of rows in storage order, and a schedule of transport
    outcomes.  Every statement sent to the server consumes the head of
    [faults]: [Some msg] makes that statement fail with a driver error
    and no effect, [None] (or an exhausted schedule) lets it run.
    String comparison in WHERE clauses is exact equality; foreign keys
    are taken as satisfied; SQL arithmetic on INT columns is on Z. *)
Record DB : Type := mkDB {
  faults : list (option string);
  users : list User.t;
  subscriptions : list Subscription.t;
  usage_statistics : list UsageStatistics.t;
  secret_metadata : list SecretMetadata.t
}.

Definition set_faults (db : DB) (f : list (option string)) : DB :=
  mkDB f (users db) (subscriptions db) (usage_statistics db) (secret_metadata db).
Definition set_subscriptions (db : DB) (l : list Subscription.t) : DB :=
  mkDB (faults db) (users db) l (usage_statistics db) (secret_metadata db).
Definition set_usage_statistics (db : DB) (l : list UsageStatistics.t) : DB :=
  mkDB (faults db) (users db) (subscriptions db) l (secret_metadata db).
Definition set_secret_metadata (db : DB) (l : list SecretMetadata.t) : DB :=
  mkDB (faults db) (users db) (subscriptions db) (usage_statistics db) l.

Definition roundtrip (db : DB) : option string * DB :=
  match faults db with
  | [] => (None, db)
  | f :: fs => (f, set_faults db fs)
  end.

(** [db.QueryRowContext(...).Scan(...)] over the rows a SELECT yields. *)
Definition QueryRow {A : Type} (db : DB) (rows : DB -> list A) : result A * DB :=
  match roundtrip db with
  | (Some msg, db') => (Err (sql_DriverError msg), db')
  | (None, db') =>
      (match rows db' with
       | [] => Err sql_ErrNoRows
       | r :: _ => Ok r
       end, db')
  end.

(** [db.ExecContext(...)]: the statement yields the affected-row count
    and the new tables, or a constraint error and no change. *)
Definition Exec (db : DB) (stmt : DB -> result (Z * DB)) : result Z * DB :=
  match roundtrip db with
  | (Some msg, db') => (Err (sql_DriverError msg), db')
  | (None, db') =>
      match stmt db' with
      | Ok (n, db'') => (Ok n, db'')
      | Err e => (Err e, db')
      end
  end.

Definition errors_Is_ErrNoRows (e : error) : bool :=
  match e with sql_ErrNoRows => true | _ => false end.

(** UPDATE ... WHERE p: matched rows rewritten in place. *)
Definition update_where {A : Type} (p : A -> bool) (f : A -> A) (l : list A) : Z * list A :=
  (Z.of_nat (length (List.filter p l)),
   map (fun r => if p r then f r else r) l).

(** DELETE ... WHERE p. *)
Definition delete_where {A : Type} (p : A -> bool) (l : list A) : Z * list A :=
  (Z.of_nat (length (List.filter p l)),
   List.filter (fun r => negb (p r)) l).

(** INSERT of one row into a table whose primary key is [key]. *)
Definition insert_row {A : Type} (key : A -> string) (r : A) (l : list A) : result (list A) :=
  if existsb (fun x => streq (key x) (key r)) l
  then Err (sql_DriverError "Duplicate entry for key PRIMARY")
  else Ok (l ++ [r])%list.

(** ORDER BY end_date DESC, as a stable insertion sort. *)
Fixpoint insert_desc (s : Subscription.t) (l : list Subscription.t) : list Subscription.t :=
  match l with
  | [] => [s]
  | x :: r =>
      if Subscription.EndDate x <=? Subscription.EndDate s
      then s :: x :: r
      else x :: insert_desc s r
  end.

Definition ORDER_BY_end_date_DESC (l : list Subscription.t) : list Subscription.t :=
  foldr insert_desc [] l.

(** *** The statements on usage_statistics, shared text of both repositories *)

Definition stmt_increment (orgID : string) (now : Z) (db : DB) : result (Z * DB) :=
  let '(n, l) :=
    update_where
      (fun r => streq (UsageStatistics.organization_id r) orgID)
      (fun r => UsageStatistics.mk (UsageStatistics.id r) (UsageStatistics.organization_id r)
                  (UsageStatistics.secret_count r + 1) (UsageStatistics.api_calls r) now)
      (usage_statistics db) in
  Ok (n, set_usage_statistics db l).

Definition stmt_insert_stats (uuid orgID : string) (now : Z) (db : DB) : result (Z * DB) :=
  match insert_row UsageStatistics.id (UsageStatistics.mk uuid orgID 1 0 now) (usage_statistics db) with
  | Ok l => Ok (1, set_usage_statistics db l)
  | Err e => Err e
  end.

Definition stmt_decrement (orgID : string) (now : Z) (db : DB) : result (Z * DB) :=
  let '(n, l) :=
    update_where
      (fun r => streq (UsageStatistics.organization_id r) orgID)
      (fun r => UsageStatistics.mk (UsageStatistics.id r) (UsageStatistics.organization_id r)
                  (Z.max 0 (UsageStatistics.secret_count r - 1)) (UsageStatistics.api_calls r) now)
      (usage_statistics db) in
  Ok (n, set_usage_statistics db l).

Definition select_secret_count (orgID : string) (db : DB) : list Z :=
  map UsageStatistics.secret_count
    (List.filter (fun r => streq (UsageStatistics.organization_id r) orgID) (usage_statistics db)).

(** SELECT s.secrets_limit FROM subscriptions s
    WHERE s.organization_id = ? AND s.status = 'active'
    ORDER BY s.end_date DESC LIMIT 1 *)
Definition select_secrets_limit (orgID : string) (db : DB) : list Z :=
  take 1 (map Subscription.SecretsLimit
    (ORDER_BY_end_date_DESC
      (List.filter (fun s => streq (Subscription.OrganizationID s) orgID
                              && streq (Subscription.Status s) "active")
                   (subscriptions db)))).

(** *** repository_impl.go *)
Module SecretCountRepository.

Definition GetSecretsCount (db : DB) (orgID : string) : result Z * DB :=
  match QueryRow db (select_secret_count orgID) with
  | (Err e, db') => if errors_Is_ErrNoRows e then (Ok 0, db') else (Err e, db')
  | (Ok count, db') => (Ok count, db')
  end.

Definition IncrementSecretsCount (db : DB) (uuid : string) (now : Z) (orgID : string)
    : result unit * DB :=
  match Exec db (stmt_increment orgID now) with
  | (Err e, db') => (Err e, db')
  | (Ok rows, db') =>
      if rows =? 0
      then match Exec db' (stmt_insert_stats uuid orgID now) with
           | (Err e, db'') => (Err e, db'')
           | (Ok _, db'') => (Ok tt, db'')
           end
      else (Ok tt, db')
  end.

Definition DecrementSecretsCount (db : DB) (now : Z) (orgID : string) : result unit * DB :=
  match Exec db (stmt_decrement orgID now) with
  | (Err e, db') => (Err e, db')
  | (Ok _, db') => (Ok tt, db')
  end.

Definition GetSecretsLimit (db : DB) (orgID : string) : result Z * DB :=
  match QueryRow db (select_secrets_limit orgID) with
  | (Err e, db') => if errors_Is_ErrNoRows e then (Ok 5, db') else (Err e, db')
  | (Ok limit, db') => (Ok limit, db')
  end.

End SecretCountRepository.

(** *** repository.go: the counting interface and the service over it *)

Class SecretsCountRepository (R : Type) : Type := {
  iface_GetSecretsCount : R -> DB -> string -> result Z * DB;
  iface_IncrementSecretsCount : R -> DB -> string -> Z -> string -> result unit * DB;
  iface_DecrementSecretsCount : R -> DB -> Z -> string -> result unit * DB;
  iface_GetSecretsLimit : R -> DB -> string -> result Z * DB
}.

#[global] Instance SecretCountRepository_impl : SecretsCountRepository unit := {
  iface_GetSecretsCount := fun _ => SecretCountRepository.GetSecretsCount;
  iface_IncrementSecretsCount := fun _ => SecretCountRepository.IncrementSecretsCount;
  iface_DecrementSecretsCount := fun _ => SecretCountRepository.DecrementSecretsCount;
  iface_GetSecretsLimit := fun _ => SecretCountRepository.GetSecretsLimit
}.

Module SecretsSubscriptionService.

Definition CanCreateSecret {R : Type} `{SecretsCountRepository R} (repo : R)
    (db : DB) (orgID : string) : result bool * DB :=
  match iface_GetSecretsCount repo db orgID with
  | (Err e, db1) => (Err e, db1)
  | (Ok count, db1) =>
      match iface_GetSecretsLimit repo db1 orgID with
      | (Err e, db2) => (Err e, db2)
      | (Ok limit, db2) => (Ok (count <? limit), db2)
      end
  end.

End SecretsSubscriptionService.

(** *** subscription_service.go *)
Module SubscriptionService.

(** SELECT ... FROM subscriptions
    WHERE organization_id = ? AND status = 'active' AND end_date > NOW()
    ORDER BY end_date DESC LIMIT 1 *)
Definition select_active_subscription (orgID : string) (now : Z) (db : DB)
    : list Subscription.t :=
  take 1 (ORDER_BY_end_date_DESC
    (List.filter (fun s => streq (Subscription.OrganizationID s) orgID
                           && streq (Subscription.Status s) "active"
                           && (now <? Subscription.EndDate s))
                 (subscriptions db))).

Definition GetActiveSubscription (db : DB) (now : Z) (orgID : string)
    : result (option Subscription.t) * DB :=
  match QueryRow db (select_active_subscription orgID now) with
  | (Err e, db') => if errors_Is_ErrNoRows e then (Ok None, db') else (Err e, db')
  | (Ok subscription, db') => (Ok (Some subscription), db')
  end.

(** UPDATE subscriptions SET status = 'cancelled', updated_at = NOW() WHERE id = ? *)
Definition stmt_cancel (subscriptionID : string) (now : Z) (db : DB) : result (Z * DB) :=
  let '(n, l) :=
    update_where
      (fun s => streq (Subscription.ID s) subscriptionID)
      (fun s => Subscription.mk (Subscription.ID s) (Subscription.OrganizationID s)
                  (Subscription.PlanID s) "cancelled" (Subscription.SecretsLimit s)
                  (Subscription.StartDate s) (Subscription.EndDate s)
                  (Subscription.CreatedAt s) now)
      (subscriptions db) in
  Ok (n, set_subscriptions db l).

Definition cancelSubscription (db : DB) (now : Z) (subscriptionID : string)
    : result unit * DB :=
  match Exec db (stmt_cancel subscriptionID now) with
  | (Err e, db') => (Err e, db')
  | (Ok _, db') => (Ok tt, db')
  end.

(** INSERT INTO subscriptions (...) VALUES (?, ?, ?, ?, ?, ?, ?, NOW(), NOW()) *)
Definition stmt_insert_subscription (s : Subscription.t) (now : Z) (db : DB)
    : result (Z * DB) :=
  match insert_row Subscription.ID
          (Subscription.mk (Subscription.ID s) (Subscription.OrganizationID s)
             (Subscription.PlanID s) (Subscription.Status s) (Subscription.SecretsLimit s)
             (Subscription.StartDate s) (Subscription.EndDate s) now now)
          (subscriptions db) with
  | Ok l => Ok (1, set_subscriptions db l)
  | Err e => Err e
  end.

Definition with_ID (s : Subscription.t) (id : string) : Subscription.t :=
  Subscription.mk id (Subscription.OrganizationID s) (Subscription.PlanID s)
    (Subscription.Status s) (Subscription.SecretsLimit s) (Subscription.StartDate s)
    (Subscription.EndDate s) (Subscription.CreatedAt s) (Subscription.UpdatedAt s).

(** [uuid] is the value [uuid.New().String()] would produce. *)
Definition CreateSubscription (db : DB) (uuid : string) (now : Z)
    (subscription : Subscription.t) : result unit * DB :=
  let subscription :=
    if streq (Subscription.ID subscription) "" then with_ID subscription uuid
    else subscription in
  match GetActiveSubscription db now (Subscription.OrganizationID subscription) with
  | (Err e, db1) => (Err e, db1)
  | (Ok existingSub, db1) =>
      let '(cancelled, db2) :=
        match existingSub with
        | Some existing => cancelSubscription db1 now (Subscription.ID existing)
        | None => (Ok tt, db1)
        end in
      match cancelled with
      | Err e => (Err e, db2)
      | Ok _ =>
          match Exec db2 (stmt_insert_subscription subscription now) with
          | (Err e, db3) => (Err e, db3)
          | (Ok _, db3) => (Ok tt, db3)
          end
      end
  end.

Definition CanCreateSecret (db : DB) (orgID : string) : result bool * DB :=
  match SecretCountRepository.GetSecretsCount db orgID with
  | (Err e, db1) => (Err e, db1)
  | (Ok count, db1) =>
      match SecretCountRepository.GetSecretsLimit db1 orgID with
      | (Err e, db2) => (Err e, db2)
      | (Ok limit, db2) => (Ok (count <? limit), db2)
      end
  end.

(** UPDATE subscriptions SET secrets_limit = ?, updated_at = NOW() WHERE id = ? *)
Definition stmt_update_limit (subscriptionID : string) (newLimit now : Z) (db : DB)
    : result (Z * DB) :=
  let '(n, l) :=
    update_where
      (fun s => streq (Subscription.ID s) subscriptionID)
      (fun s => Subscription.mk (Subscription.ID s) (Subscription.OrganizationID s)
                  (Subscription.PlanID s) (Subscription.Status s) newLimit
                  (Subscription.StartDate s) (Subscription.EndDate s)
                  (Subscription.CreatedAt s) now)
      (subscriptions db) in
  Ok (n, set_subscriptions db l).

Definition UpdateSubscriptionLimit (db : DB) (now : Z) (subscriptionID : string)
    (newLimit : Z) : result unit * DB :=
  match Exec db (stmt_update_limit subscriptionID newLimit now) with
  | (Err e, db') => (Err e, db')
  | (Ok _, db') => (Ok tt, db')
  end.

Definition CheckSubscriptionStatus (db : DB) (now : Z) (orgID : string)
    : result bool * DB :=
  match GetActiveSubscription db now orgID with
  | (Err e, db') => (Err e, db')
  | (Ok subscription, db') => (Ok (bool_decide (subscription <> None)), db')
  end.

End SubscriptionService.

(** *** mysql/organizations_repository.go, DeleteOrganization: the
    DELETE FROM subscriptions WHERE organization_id = ? of its
    committed transaction, the only other writer of the table. *)
Definition stmt_delete_org_subscriptions (id : string) (db : DB) : DB :=
  set_subscriptions db
    (snd (delete_where (fun s => streq (Subscription.OrganizationID s) id) (subscriptions db))).

(** *** mysql/secrets_repository.go *)
Module SecretsRepository.

Definition with_ID (m : SecretMetadata.t) (id : string) : SecretMetadata.t :=
  SecretMetadata.mk id (SecretMetadata.Name m) (SecretMetadata.Description m)
    (SecretMetadata.OrganizationID m) (SecretMetadata.ProjectID m)
    (SecretMetadata.Environment m) (SecretMetadata.CreatedBy m)
    (SecretMetadata.CreatedAt m) (SecretMetadata.UpdatedAt m) (SecretMetadata.Version m).

(** INSERT INTO secret_metadata (...) VALUES (?, ?, ?, ?, ?, ?, ?, NOW(), NOW(), ?) *)
Definition stmt_insert_metadata (m : SecretMetadata.t) (now : Z) (db : DB)
    : result (Z * DB) :=
  match insert_row SecretMetadata.ID
          (SecretMetadata.mk (SecretMetadata.ID m) (SecretMetadata.Name m)
             (SecretMetadata.Description m) (SecretMetadata.OrganizationID m)
             (SecretMetadata.ProjectID m) (SecretMetadata.Environment m)
             (SecretMetadata.CreatedBy m) now now (SecretMetadata.Version m))
          (secret_metadata db) with
  | Ok l => Ok (1, set_secret_metadata db l)
  | Err e => Err e
  end.

Definition incrementSecretsCount (db : DB) (uuid : string) (now : Z) (orgID : string)
    : result unit * DB :=
  match Exec db (stmt_increment orgID now) with
  | (Err e, db') => (Err e, db')
  | (Ok rows, db') =>
      if rows =? 0
      then match Exec db' (stmt_insert_stats uuid orgID now) with
           | (Err e, db'') => (Err e, db'')
           | (Ok _, db'') => (Ok tt, db'')
           end
      else (Ok tt, db')
  end.

Definition decrementSecretsCount (db : DB) (now : Z) (orgID : string) : result unit * DB :=
  match Exec db (stmt_decrement orgID now) with
  | (Err e, db') => (Err e, db')
  | (Ok _, db') => (Ok tt, db')
  end.

(** [uuid1] stands for the metadata ID drawn when none is given,
    [uuid2] for the ID of a lazily created usage row. *)
Definition CreateSecretMetadata (db : DB) (uuid1 uuid2 : string) (now : Z)
    (metadata : SecretMetadata.t) : result unit * DB :=
  let metadata :=
    if streq (SecretMetadata.ID metadata) "" then with_ID metadata uuid1 else metadata in
  match Exec db (stmt_insert_metadata metadata now) with
  | (Err e, db1) => (Err e, db1)
  | (Ok _, db1) =>
      incrementSecretsCount db1 uuid2 now (SecretMetadata.OrganizationID metadata)
  end.

(** SELECT ... FROM secret_metadata
    WHERE organization_id = ? AND project_id = ? AND environment = ? AND name = ? *)
Definition at_path (orgID projectID env name : string) (m : SecretMetadata.t) : bool :=
  streq (SecretMetadata.OrganizationID m) orgID
  && streq (SecretMetadata.ProjectID m) projectID
  && streq (SecretMetadata.Environment m) env
  && streq (SecretMetadata.Name m) name.

Definition select_by_path (orgID projectID env name : string) (db : DB)
    : list SecretMetadata.t :=
  List.filter (at_path orgID projectID env name) (secret_metadata db).

Definition GetSecretMetadataByPath (db : DB) (orgID projectID env name : string)
    : result (option SecretMetadata.t) * DB :=
  match QueryRow db (select_by_path orgID projectID env name) with
  | (Err e, db') => if errors_Is_ErrNoRows e then (Ok None, db') else (Err e, db')
  | (Ok metadata, db') => (Ok (Some metadata), db')
  end.

(** DELETE FROM secret_metadata WHERE id = ? *)
Definition stmt_delete_metadata (id : string) (db : DB) : result (Z * DB) :=
  let '(n, l) :=
    delete_where (fun m => streq (SecretMetadata.ID m) id) (secret_metadata db) in
  Ok (n, set_secret_metadata db l).

Definition DeleteSecretMetadata (db : DB) (now : Z) (id orgID : string)
    : result unit * DB :=
  match Exec db (stmt_delete_metadata id) with
  | (Err e, db1) => (Err e, db1)
  | (Ok _, db1) => decrementSecretsCount db1 now orgID
  end.

Definition DeleteSecretMetadataByPath (db : DB) (now : Z)
    (orgID projectID env name : string) : result unit * DB :=
  match GetSecretMetadataByPath db orgID projectID env name with
  | (Err e, db1) => (Err e, db1)
  | (Ok None, db1) => (Ok tt, db1)
  | (Ok (Some metadata), db1) =>
      DeleteSecretMetadata db1 now (SecretMetadata.ID metadata) orgID
  end.

Definition GetSecretsCount (db : DB) (orgID : string) : result Z * DB :=
  match QueryRow db (select_secret_count orgID) with
  | (Err e, db') => if errors_Is_ErrNoRows e then (Ok 0, db') else (Err e, db')
  | (Ok count, db') => (Ok count, db')
  end.

Definition GetSecretsLimit (db : DB) (orgID : string) : result Z * DB :=
  match QueryRow db (select_secrets_limit orgID) with
  | (Err e, db') => if errors_Is_ErrNoRows e then (Ok 0, db') else (Err e, db')
  | (Ok limit, db') => (Ok limit, db')
  end.

End SecretsRepository.

(** *** mysql/users_repository.go *)
Module UsersRepository.

Definition select_user_by_id (id : string) (db : DB) : list User.t :=
  List.filter (fun u => streq (User.ID u) id) (users db).

Definition GetUserByID (db : DB) (id : string) : result User.t * DB :=
  match QueryRow db (select_user_by_id id) with
  | (Err e, db') =>
      if errors_Is_ErrNoRows e then (Err storage_ErrUserNotFound, db') else (Err e, db')
  | (Ok user, db') => (Ok user, db')
  end.

End UsersRepository.

End Storage.

(** ** Package auth *)

(** In all three services [now] is [time.Now()] in Unix seconds, token
    lifetimes are in seconds, and [rel] is the linked jwt release. *)

(** *** internal/auth/service.go: single-token service, untyped tokens *)
Module LegacyService.

Record t : Type := mk { jwtSecret : string; jwtExpiry : Z }.

Record TokenResponse : Type := mkTokenResponse {
  Token : Jwt.TokenString; ExpiresAt : Z
}.

Definition keyFunc (s : t) (token : Jwt.Token) : result string :=
  if Jwt.SigningMethodHMAC (Jwt.Method token)
  then Ok (jwtSecret s)
  else Err (fmt_Error "méthode de signature inattendue").

Definition VerifyToken (rel : Jwt.release) (s : t) (now : Z)
    (tokenString : Jwt.TokenString) : result string :=
  match Jwt.Parse rel tokenString (keyFunc s) now with
  | Err err => Err err
  | Ok token =>
      if negb (Jwt.Valid token) then Err auth_ErrInvalidToken
      else match Jwt.Claims token !! "sub" with
           | Some (Jwt.CString userID) => Ok userID
           | _ => Err auth_ErrInvalidToken
           end
  end.

Definition generateToken (s : t) (now : Z) (userID : string) : Jwt.TokenString * Z :=
  let expiresAt := now + jwtExpiry s in
  let claims : gmap string Jwt.claim :=
    <["sub" := Jwt.CString userID]>
      (<["exp" := Jwt.CNumber expiresAt]>
        (<["iat" := Jwt.CNumber now]> ∅)) in
  (Jwt.SignedString Jwt.HS256 claims (jwtSecret s), expiresAt).

End LegacyService.

(** The token pair returned by the two refresh-capable services. *)
Record TokenResponse : Type := mkTokenResponse {
  Token : Jwt.TokenString;
  RefreshToken : Jwt.TokenString;
  ExpiresAt : Z;
  UserID : string
}.

(** *** src/unnamed/part_005 (internal/auth/service.go, typed tokens) *)
Module Service.

Record t : Type := mk { jwtSecret : string; jwtExpiry : Z; refreshTime : Z }.

Definition keyFunc (s : t) (token : Jwt.Token) : result string :=
  if Jwt.SigningMethodHMAC (Jwt.Method token)
  then Ok (jwtSecret s)
  else Err (fmt_Error "méthode de signature inattendue").

Definition parseToken (rel : Jwt.release) (s : t) (now : Z)
    (tokenString : Jwt.TokenString) : result (gmap string Jwt.claim) :=
  match Jwt.Parse rel tokenString (keyFunc s) now with
  | Err err =>
      if Jwt.Is err Jwt.ErrTokenExpired then Err auth_ErrTokenExpired
      else Err auth_ErrInvalidToken
  | Ok token =>
      if negb (Jwt.Valid token) then Err auth_ErrInvalidToken
      else Ok (Jwt.Claims token)
  end.

Definition generateToken (s : t) (now : Z) (userID tokenType : string) (expiry : Z)
    : Jwt.TokenString * Z :=
  let expiresAt := now + expiry in
  let claims : gmap string Jwt.claim :=
    <["sub" := Jwt.CString userID]>
      (<["type" := Jwt.CString tokenType]>
        (<["exp" := Jwt.CNumber expiresAt]>
          (<["iat" := Jwt.CNumber now]> ∅))) in
  (Jwt.SignedString Jwt.HS256 claims (jwtSecret s), expiresAt).

Definition generateTokenPair (s : t) (now : Z) (userID : string)
    : Jwt.TokenString * Jwt.TokenString * Z :=
  let '(accessToken, expiresAt) := generateToken s now userID "access" (jwtExpiry s) in
  let '(refreshToken, _) := generateToken s now userID "refresh" (refreshTime s) in
  (accessToken, refreshToken, expiresAt).

Definition VerifyToken (rel : Jwt.release) (s : t) (now : Z)
    (tokenString : Jwt.TokenString) : result string :=
  match parseToken rel s now tokenString with
  | Err err => Err err
  | Ok claims =>
      match claims !! "type" with
      | Some (Jwt.CString tokenType) =>
          if negb (streq tokenType "access") then Err auth_ErrInvalidToken
          else match claims !! "sub" with
               | Some (Jwt.CString userID) => Ok userID
               | _ => Err auth_ErrInvalidToken
               end
      | _ => Err auth_ErrInvalidToken
      end
  end.

Definition RefreshToken (rel : Jwt.release) (s : t) (now : Z)
    (refreshToken : Jwt.TokenString) : result TokenResponse :=
  match parseToken rel s now refreshToken with
  | Err err => Err err
  | Ok claims =>
      match claims !! "type" with
      | Some (Jwt.CString tokenType) =>
          if negb (streq tokenType "refresh") then Err auth_ErrInvalidToken
          else match claims !! "sub" with
               | Some (Jwt.CString userID) =>
                   let '(token, newRefreshToken, expiresAt) := generateTokenPair s now userID in
                   Ok (mkTokenResponse token newRefreshToken expiresAt userID)
               | _ => Err auth_ErrInvalidToken
               end
      | _ => Err auth_ErrInvalidToken
      end
  end.

End Service.

(** *** internal/auth/service_improved.go *)
Module ServiceImproved.
Import Models.

Record t : Type := mk { jwtSecret : string; jwtExpiry : Z; refreshTime : Z }.

Definition keyFunc (s : t) (token : Jwt.Token) : result string :=
  if Jwt.SigningMethodHMAC (Jwt.Method token)
  then Ok (jwtSecret s)
  else Err (fmt_Error "méthode de signature inattendue").

Definition parseToken (rel : Jwt.release) (s : t) (now : Z)
    (tokenString : Jwt.TokenString) : result (gmap string Jwt.claim) :=
  match Jwt.Parse rel tokenString (keyFunc s) now with
  | Err err =>
      if Jwt.Is err Jwt.ErrTokenExpired then Err auth_ErrTokenExpired
      else Err auth_ErrInvalidToken
  | Ok token =>
      if negb (Jwt.Valid token) then Err auth_ErrInvalidToken
      else Ok (Jwt.Claims token)
  end.

Definition generateToken (s : t) (now : Z) (userID tokenType : string) (expiry : Z)
    : Jwt.TokenString * Z :=
  let expiresAt := now + expiry in
  let claims : gmap string Jwt.claim :=
    <["sub" := Jwt.CString userID]>
      (<["type" := Jwt.CString tokenType]>
        (<["exp" := Jwt.CNumber expiresAt]>
          (<["iat" := Jwt.CNumber now]> ∅))) in
  (Jwt.SignedString Jwt.HS256 claims (jwtSecret s), expiresAt).

Definition generateTokenPair (s : t) (now : Z) (userID : string)
    : Jwt.TokenString * Jwt.TokenString * Z :=
  let '(accessToken, expiresAt) := generateToken s now userID "access" (jwtExpiry s) in
  let '(refreshToken, _) := generateToken s now userID "refresh" (refreshTime s) in
  (accessToken, refreshToken, expiresAt).

Definition errors_Is_ErrUserNotFound (e : error) : bool :=
  match e with storage_ErrUserNotFound => true | _ => false end.

Definition RefreshToken (rel : Jwt.release) (s : t) (db : Storage.DB) (now : Z)
    (refreshToken : Jwt.TokenString) : result TokenResponse * Storage.DB :=
  match parseToken rel s now refreshToken with
  | Err err => (Err err, db)
  | Ok claims =>
      match claims !! "type" with
      | Some (Jwt.CString tokenType) =>
          if negb (streq tokenType "refresh") then (Err auth_ErrInvalidToken, db)
          else match claims !! "sub" with
               | Some (Jwt.CString userID) =>
                   match Storage.UsersRepository.GetUserByID db userID with
                   | (Err err, db') =>
                       if errors_Is_ErrUserNotFound err
                       then (Err auth_ErrUserNotFound, db')
                       else (Err err, db')
                   | (Ok user, db') =>
                       let '(token, newRefreshToken, expiresAt) :=
                         generateTokenPair s now (User.ID user) in
                       (Ok (mkTokenResponse token newRefreshToken expiresAt (User.ID user)), db')
                   end
               | _ => (Err auth_ErrInvalidToken, db)
               end
      | _ => (Err auth_ErrInvalidToken, db)
      end
  end.

Definition VerifyToken (rel : Jwt.release) (s : t) (now : Z)
    (tokenString : Jwt.TokenString) : result string :=
  match parseToken rel s now tokenString with
  | Err err => Err err
  | Ok claims =>
      match claims !! "type" with
      | Some (Jwt.CString tokenType) =>
          if negb (streq tokenType "access") then Err auth_ErrInvalidToken
          else match claims !! "sub" with
               | Some (Jwt.CString userID) => Ok userID
               | _ => Err auth_ErrInvalidToken
               end
      | _ => Err auth_ErrInvalidToken
      end
  end.

End ServiceImproved.

(** ** Package vault *)

Module Vault.
Import Models.

(** A Go [interface{}] held in a secret's data map. *)
Inductive value : Type :=
| VString (s : string)
| VNumber (n : Z)
| VBool (b : bool).

(** The value store is an external collaborator, a KV v2 mount; it is
    taken by its contract: put, get and delete by path over the latest
    version of each key, each call a round trip that the schedule
    [faults] may fail (as for [Storage.DB]).  [data] holds, for every
    key that has a version, the data of its latest one. *)
Record store : Type := mkStore {
  faults : list (option string);
  data : gmap string (gmap string value)
}.

(** The data of a version that was soft-deleted: [KVv2.Get] hands back
    a secret whose [Data] is nil, and a nil map reads as the empty map. *)
Definition nil_data : gmap string value := ∅.

Definition roundtrip (st : store) : option string * store :=
  match faults st with
  | [] => (None, st)
  | f :: fs => (f, mkStore fs (data st))
  end.

(** [KVv2.Get]: an error for a key that has no version; for a key whose
    latest version was soft-deleted, a secret with nil data and no
    error. *)
Definition KVv2_Get (st : store) (path : string)
    : result (option (gmap string value)) * store :=
  match roundtrip st with
  | (Some msg, st') => (Err (vault_Error msg), st')
  | (None, st') =>
      match data st' !! path with
      | None => (Err (vault_Error "secret not found"), st')
      | Some d => (Ok (Some d), st')
      end
  end.

Definition KVv2_Put (st : store) (path : string) (d : gmap string value)
    : result unit * store :=
  match roundtrip st with
  | (Some msg, st') => (Err (vault_Error msg), st')
  | (None, st') => (Ok tt, mkStore (faults st') (<[path := d]> (data st')))
  end.

(** [KVv2.Delete] is a soft delete: the latest version of the key is
    marked deleted and loses its data, the key itself stays (and stays
    in the listing of its folder); a key without a version is left
    alone.  Either way the call succeeds. *)
Definition KVv2_Delete (st : store) (path : string) : result unit * store :=
  match roundtrip st with
  | (Some msg, st') => (Err (vault_Error msg), st')
  | (None, st') => (Ok tt, mkStore (faults st') (alter (fun _ => nil_data) path (data st')))
  end.

(** *** src/unnamed/part_006 (internal/vault/client.go) *)
Module Client.

Definition GetSecret (st : store) (path : string)
    : result (gmap string value) * store :=
  match KVv2_Get st path with
  | (Err _, st') => (Err (fmt_Error "impossible de récupérer le secret"), st')
  | (Ok None, st') => (Err (fmt_Error "secret non trouvé"), st')
  | (Ok (Some d), st') => (Ok d, st')
  end.

Definition WriteSecret (st : store) (path : string) (d : gmap string value)
    : result unit * store :=
  match KVv2_Put st path d with
  | (Err _, st') => (Err (fmt_Error "impossible d'écrire le secret"), st')
  | (Ok _, st') => (Ok tt, st')
  end.

Definition DeleteSecret (st : store) (path : string) : result unit * store :=
  match KVv2_Delete st path with
  | (Err _, st') => (Err (fmt_Error "impossible de supprimer le secret"), st')
  | (Ok _, st') => (Ok tt, st')
  end.

End Client.

(** *** internal/vault/service.go *)
Module Service.

(** [fmt.Sprintf("%s/%s/%s/%s", orgID, projectID, env, name)] *)
Definition buildSecretPath (orgID projectID env name : string) : string :=
  (orgID ++ "/" ++ projectID ++ "/" ++ env ++ "/" ++ name)%string.

Definition StoreSecret (st : store) (now : Z) (secret : Secret.t)
    : result unit * store :=
  let path := buildSecretPath (Secret.OrganizationID secret) (Secret.ProjectID secret)
                (Secret.Environment secret) (Secret.Name secret) in
  let d : gmap string value :=
    <["value" := VString (Secret.Value secret)]>
      (<["created_at" := VNumber now]>
        (<["created_by" := VString (Secret.CreatedBy secret)]>
          (<["description" := VString (Secret.Description secret)]> ∅))) in
  Client.WriteSecret st path d.

Definition string_field (d : gmap string value) (key : string) (default : string) : string :=
  match d !! key with
  | Some (VString s) => s
  | _ => default
  end.

Definition GetSecret (st : store) (orgID projectID env name : string)
    : result Secret.t * store :=
  let path := buildSecretPath orgID projectID env name in
  match Client.GetSecret st path with
  | (Err err, st') => (Err err, st')
  | (Ok d, st') =>
      (* the zero Secret with the four path fields set, then the
         three extractions *)
      (Ok (Secret.mk "" name (string_field d "value" "") (string_field d "description" "")
             orgID projectID env (string_field d "created_by" "") 0 0 0), st')
  end.

Definition DeleteSecret (st : store) (orgID projectID env name : string)
    : result unit * store :=
  let path := buildSecretPath orgID projectID env name in
  Client.DeleteSecret st path.

End Service.

End Vault.

(** ** Package handlers: internal/api/handlers/secrets.go *)

(** Everything a request can observe or change: the relational database
    and the value store. *)
Record World : Type := mkWorld {
  db : Storage.DB;
  kv : Vault.store
}.

Module SecretsHandler.
Import Models.

Inductive body : Type :=
| NoBody
| Text (msg : string)
| Json (secret : Secret.t).

Record Response : Type := mkResponse { Status : Z; Body : body }.

Definition StatusOK : Z := 200.
Definition StatusCreated : Z := 201.
Definition StatusNoContent : Z := 204.
Definition StatusBadRequest : Z := 400.
Definition StatusNotFound : Z := 404.
Definition StatusInternalServerError : Z := 500.

Definition with_CreatedBy (s : Secret.t) (userID : string) : Secret.t :=
  Secret.mk (Secret.ID s) (Secret.Name s) (Secret.Value s) (Secret.Description s)
    (Secret.OrganizationID s) (Secret.ProjectID s) (Secret.Environment s)
    userID (Secret.CreatedAt s) (Secret.UpdatedAt s) (Secret.Version s).

(** The route variables are the four arguments. *)
Definition GetSecret (w : World) (orgID projectID env name : string) : Response * World :=
  match Vault.Service.GetSecret (kv w) orgID projectID env name with
  | (Err _, kv') => (mkResponse StatusNotFound (Text "Secret non trouvé"), mkWorld (db w) kv')
  | (Ok secret, kv') => (mkResponse StatusOK (Json secret), mkWorld (db w) kv')
  end.

(** [decoded] is the outcome of decoding the request body, [userID]
    the identity the auth middleware stored in the request context. *)
Definition CreateSecret (w : World) (now : Z) (decoded : option Secret.t)
    (userID : string) : Response * World :=
  match decoded with
  | None => (mkResponse StatusBadRequest (Text "Données invalides"), w)
  | Some secret =>
      let secret := with_CreatedBy secret userID in
      match Vault.Service.StoreSecret (kv w) now secret with
      | (Err _, kv') =>
          (mkResponse StatusInternalServerError (Text "Impossible de créer le secret"),
           mkWorld (db w) kv')
      | (Ok _, kv') => (mkResponse StatusCreated NoBody, mkWorld (db w) kv')
      end
  end.

Definition DeleteSecret (w : World) (orgID projectID env name : string) : Response * World :=
  match Vault.Service.DeleteSecret (kv w) orgID projectID env name with
  | (Err _, kv') =>
      (mkResponse StatusInternalServerError (Text "Impossible de supprimer le secret"),
       mkWorld (db w) kv')
  | (Ok _, kv') => (mkResponse StatusNoContent NoBody, mkWorld (db w) kv')
  end.

End SecretsHandler.

(** ** Notions used to state the properties *)

(** What the library makes of an [exp] claim [e] at time [now]: a zero
    claim counts as unset, otherwise the token is expired from [e] on. *)
Definition expired_at (e now : Z) : bool := negb (e =? 0) && (e <=? now).

(** The time checks other than expiry that a minted token can fail: it
    is presented before its [iat]. *)
Definition used_before_issued (iat now : Z) : bool := negb (iat =? 0) && (now <? iat).

(** The claims the typed services put in a token. *)
Definition typed_claims (userID tokenType : string) (exp iat : Z) : gmap string Jwt.claim :=
  <["sub" := Jwt.CString userID]>
    (<["type" := Jwt.CString tokenType]>
      (<["exp" := Jwt.CNumber exp]>
        (<["iat" := Jwt.CNumber iat]> ∅))).

(** Sample services and tokens. *)
Definition improved0 : ServiceImproved.t := ServiceImproved.mk "s3cr3t" 3600 86400.
Definition service0 : Service.t := Service.mk "s3cr3t" 3600 86400.
Definition legacy0 : LegacyService.t := LegacyService.mk "s3cr3t" 3600.

Definition refresh0 : Jwt.TokenString :=
  fst (ServiceImproved.generateToken improved0 1000 "user-1" "refresh" 86400).
Definition access0 : Jwt.TokenString :=
  fst (ServiceImproved.generateToken improved0 1000 "user-1" "access" 3600).

(** A refresh token of the part_005 service for a subject with no row in [users]. *)
Definition ghost_refresh : Jwt.TokenString :=
  fst (Service.generateToken service0 1000 "ghost" "refresh" 86400).

Definition empty_db : Storage.DB := Storage.mkDB [] [] [] [] [].

(** The error a typed service answers a token of the wrong type with. *)
Definition rejection (exp now : Z) : error :=
  if expired_at exp now then auth_ErrTokenExpired else auth_ErrInvalidToken.

(** An access token of 1000 with one hour to live, as signed by [improved0]. *)
Definition stale_access : Jwt.Token :=
  Jwt.mkToken Jwt.HS256 (typed_claims "user-1" "access" 4600 1000) "s3cr3t" false.

(** The answer of the typed services to a token that cannot be trusted,
    one signed with another key or naming a method outside the HMAC
    family: ErrInvalidToken, except with a release of the library that
    validates the claims before the signature, where an HMAC token
    under another key whose exp check fails is answered
    ErrTokenExpired. *)
Definition untrusted_answer (rel : Jwt.release) (t : Jwt.Token) (now : Z) : error :=
  match rel with
  | Jwt.SignatureFirst => auth_ErrInvalidToken
  | Jwt.MergedErrors =>
      if Jwt.SigningMethodHMAC (Jwt.Method t)
         && negb (Jwt.VerifyExpiresAt (Jwt.Claims t) "exp" now false)
      then auth_ErrTokenExpired
      else auth_ErrInvalidToken
  end.

(** An access token under the shared secret whose exp is 0, the epoch;
    and the stale access token under another key. *)
Definition epoch_access : Jwt.Token :=
  Jwt.mkToken Jwt.HS256 (typed_claims "user-1" "access" 0 1000) "s3cr3t" false.
Definition forged_stale : Jwt.Token :=
  Jwt.mkToken Jwt.HS256 (typed_claims "user-1" "access" 4600 1000) "0th3r" false.

(** An organization whose only subscription is still marked active but
    ended at 1000. *)
Definition lapsed_sub : Models.Subscription.t :=
  Models.Subscription.mk "sub-1" "org-1" "plan-pro" "active" 100 0 1000 0 0.
Definition lapsed_db : Storage.DB := Storage.mkDB [] [] [lapsed_sub] [] [].




(** *** The at-most-one-active-subscription invariant *)

(** A subscription of organization [orgID] that is active at [now]:
    status 'active' and an end date still ahead. *)
Definition active_for (now : Z) (orgID : string) (s : Models.Subscription.t) : Prop :=
  Models.Subscription.OrganizationID s = orgID
  /\ Models.Subscription.Status s = "active"
  /\ now < Models.Subscription.EndDate s.

Definition active_subscriptions (now : Z) (orgID : string) (l : list Models.Subscription.t)
    : list Models.Subscription.t :=
  List.filter (fun s => bool_decide (active_for now orgID s)) l.

Definition at_most_one_active (now : Z) (db : Storage.DB) : Prop :=
  forall orgID : string,
    (length (active_subscriptions now orgID (Storage.subscriptions db)) <= 1)%nat.

(** CreateSubscription sends its statements one by one, with no
    transaction around them and no lock; between two of them other
    calls send theirs.  A call in flight is at one of these points. *)
Module CreateSubscriptionCall.

Inductive t : Type :=
| Called (subscription : Models.Subscription.t)
    (* entered: the id is drawn and the active subscription looked up next *)
| Found (subscription existing : Models.Subscription.t)
    (* existingSub != nil: the UPDATE of cancelSubscription is next *)
| Cleared (subscription : Models.Subscription.t)
    (* the INSERT is next *)
| Returned (err : result unit).

(** The next statement of a call, run on the database as it is now. *)
Definition step (db : Storage.DB) (uuid : string) (now : Z) (call : t) : t * Storage.DB :=
  match call with
  | Called subscription =>
      let subscription :=
        if streq (Models.Subscription.ID subscription) ""
        then Storage.SubscriptionService.with_ID subscription uuid
        else subscription in
      match Storage.SubscriptionService.GetActiveSubscription db now
              (Models.Subscription.OrganizationID subscription) with
      | (Err e, db1) => (Returned (Err e), db1)
      | (Ok (Some existing), db1) => (Found subscription existing, db1)
      | (Ok None, db1) => (Cleared subscription, db1)
      end
  | Found subscription existing =>
      match Storage.SubscriptionService.cancelSubscription db now
              (Models.Subscription.ID existing) with
      | (Err e, db2) => (Returned (Err e), db2)
      | (Ok _, db2) => (Cleared subscription, db2)
      end
  | Cleared subscription =>
      match Storage.Exec db
              (Storage.SubscriptionService.stmt_insert_subscription subscription now) with
      | (Err e, db3) => (Returned (Err e), db3)
      | (Ok _, db3) => (Returned (Ok tt), db3)
      end
  | Returned err => (Returned err, db)
  end.

(** A call that runs its statements with nothing in between. *)
Definition run (db : Storage.DB) (uuid : string) (now : Z)
    (subscription : Models.Subscription.t) : t * Storage.DB :=
  let '(call1, db1) := step db uuid now (Called subscription) in
  let '(call2, db2) := step db1 uuid now call1 in
  step db2 uuid now call2.

End CreateSubscriptionCall.

(** The states the subscriptions table can be in at time [now], together
    with the calls of CreateSubscription in flight: the table starts
    empty; the clock advances; a call of CreateSubscription is entered
    (from a request or through UpgradeToPlan); a call in flight runs
    its next statement; UpdateSubscriptionLimit and the DELETE of
    DeleteOrganization, one statement each on this table, run; any
    other operation leaves the table as it is. *)
Inductive reachable : Z -> Storage.DB -> list CreateSubscriptionCall.t -> Prop :=
| reach_init (now : Z) (db : Storage.DB) :
    Storage.subscriptions db = [] -> reachable now db []
| reach_clock (now now' : Z) (db : Storage.DB) (calls : list CreateSubscriptionCall.t) :
    reachable now db calls -> now <= now' -> reachable now' db calls
| reach_call (now : Z) (db : Storage.DB) (calls : list CreateSubscriptionCall.t)
    (subscription : Models.Subscription.t) :
    reachable now db calls ->
    reachable now db (CreateSubscriptionCall.Called subscription :: calls)
| reach_statement (now : Z) (db : Storage.DB) (before after : list CreateSubscriptionCall.t)
    (call : CreateSubscriptionCall.t) (uuid : string) :
    reachable now db (before ++ call :: after) ->
    reachable now (snd (CreateSubscriptionCall.step db uuid now call))
      (before ++ fst (CreateSubscriptionCall.step db uuid now call) :: after)
| reach_UpdateSubscriptionLimit (now : Z) (db : Storage.DB)
    (calls : list CreateSubscriptionCall.t) (id : string) (newLimit : Z) :
    reachable now db calls ->
    reachable now
      (snd (Storage.SubscriptionService.UpdateSubscriptionLimit db now id newLimit)) calls
| reach_DeleteOrganization (now : Z) (db : Storage.DB)
    (calls : list CreateSubscriptionCall.t) (id : string) :
    reachable now db calls -> reachable now (Storage.stmt_delete_org_subscriptions id db) calls
| reach_other (now : Z) (db db' : Storage.DB) (calls : list CreateSubscriptionCall.t) :
    reachable now db calls ->
    Storage.subscriptions db' = Storage.subscriptions db -> reachable now db' calls.

(** The states reached when the calls come in turn: no statement of
    another operation on the table falls between the statements of a
    call of CreateSubscription. *)
Inductive reachable_in_turn : Z -> Storage.DB -> Prop :=
| turn_init (now : Z) (db : Storage.DB) :
    Storage.subscriptions db = [] -> reachable_in_turn now db
| turn_clock (now now' : Z) (db : Storage.DB) :
    reachable_in_turn now db -> now <= now' -> reachable_in_turn now' db
| turn_CreateSubscription (now : Z) (db : Storage.DB) (uuid : string)
    (subscription : Models.Subscription.t) :
    reachable_in_turn now db ->
    reachable_in_turn now
      (snd (Storage.SubscriptionService.CreateSubscription db uuid now subscription))
| turn_UpdateSubscriptionLimit (now : Z) (db : Storage.DB) (id : string) (newLimit : Z) :
    reachable_in_turn now db ->
    reachable_in_turn now
      (snd (Storage.SubscriptionService.UpdateSubscriptionLimit db now id newLimit))
| turn_DeleteOrganization (now : Z) (db : Storage.DB) (id : string) :
    reachable_in_turn now db ->
    reachable_in_turn now (Storage.stmt_delete_org_subscriptions id db)
| turn_other (now : Z) (db db' : Storage.DB) :
    reachable_in_turn now db ->
    Storage.subscriptions db' = Storage.subscriptions db -> reachable_in_turn now db'.

(** Two subscriptions for one organization, requested at the same time,
    and the table after both calls have returned. *)
Definition first_sub : Models.Subscription.t :=
  Models.Subscription.mk "sub-a" "org-1" "plan-basic" "active" 10 3000 9000 0 0.
Definition second_sub : Models.Subscription.t :=
  Models.Subscription.mk "sub-b" "org-1" "plan-pro" "active" 100 3000 9000 0 0.
Definition two_active_db : Storage.DB :=
  Storage.mkDB [] [] [Models.Subscription.mk "sub-b" "org-1" "plan-pro" "active" 100 3000 9000
                        3000 3000;
                      Models.Subscription.mk "sub-a" "org-1" "plan-basic" "active" 10 3000 9000
                        3000 3000] [] [].

(** An organization with one running subscription, and the one to replace it. *)
Definition running_sub : Models.Subscription.t :=
  Models.Subscription.mk "sub-1" "org-1" "plan-basic" "active" 10 0 5000 0 0.
Definition upgrade_sub : Models.Subscription.t :=
  Models.Subscription.mk "" "org-1" "plan-pro" "active" 100 2000 9000 0 0.
Definition running_db : Storage.DB := Storage.mkDB [] [] [running_sub] [] [].

(** The row images of the UPDATE in cancelSubscription and of the INSERT
    in CreateSubscription. *)
Definition cancel_where (id : string) (now : Z) (s : Models.Subscription.t)
    : Models.Subscription.t :=
  if streq (Models.Subscription.ID s) id
  then Models.Subscription.mk (Models.Subscription.ID s) (Models.Subscription.OrganizationID s)
         (Models.Subscription.PlanID s) "cancelled" (Models.Subscription.SecretsLimit s)
         (Models.Subscription.StartDate s) (Models.Subscription.EndDate s)
         (Models.Subscription.CreatedAt s) now
  else s.

Definition inserted_row (s : Models.Subscription.t) (now : Z) : Models.Subscription.t :=
  Models.Subscription.mk (Models.Subscription.ID s) (Models.Subscription.OrganizationID s)
    (Models.Subscription.PlanID s) (Models.Subscription.Status s)
    (Models.Subscription.SecretsLimit s) (Models.Subscription.StartDate s)
    (Models.Subscription.EndDate s) now now.

(** *** Secret lifecycle *)

(** The data map StoreSecret puts at a secret's path. *)
Definition stored_fields (secretValue createdBy description : string) (now : Z)
    : gmap string Vault.value :=
  <["value" := Vault.VString secretValue]>
    (<["created_at" := Vault.VNumber now]>
      (<["created_by" := Vault.VString createdBy]>
        (<["description" := Vault.VString description]> ∅))).

Definition path_of (s : Models.Secret.t) : string :=
  Vault.Service.buildSecretPath (Models.Secret.OrganizationID s) (Models.Secret.ProjectID s)
    (Models.Secret.Environment s) (Models.Secret.Name s).

(** The count GetSecretsCount reports when the statement goes through:
    the first usage row of the organization, 0 without one. *)
Definition count_of (orgID : string) (d : Storage.DB) : Z :=
  match Storage.select_secret_count orgID d with
  | [] => 0
  | c :: _ => c
  end.

(** The metadata row CreateSecretMetadata inserts. *)
Definition metadata_row (m : Models.SecretMetadata.t) (uuid1 : string) (now : Z)
    : Models.SecretMetadata.t :=
  Models.SecretMetadata.mk
    (if streq (Models.SecretMetadata.ID m) "" then uuid1 else Models.SecretMetadata.ID m)
    (Models.SecretMetadata.Name m) (Models.SecretMetadata.Description m)
    (Models.SecretMetadata.OrganizationID m) (Models.SecretMetadata.ProjectID m)
    (Models.SecretMetadata.Environment m) (Models.SecretMetadata.CreatedBy m)
    now now (Models.SecretMetadata.Version m).

(** Sample data: a secret as a client posts it, its metadata row, an
    organization on the free tier that already counts five secrets, and
    one that counts none. *)
Definition secret0 : Models.Secret.t :=
  Models.Secret.mk "" "api-key" "hunter2" "payment key" "org-1" "proj-1" "prod" "" 0 0 1.
Definition metadata0 : Models.SecretMetadata.t :=
  Models.SecretMetadata.mk "meta-1" "api-key" "payment key" "org-1" "proj-1" "prod" "user-1" 50 50 1.
Definition usage_full : Storage.UsageStatistics.t :=
  Storage.UsageStatistics.mk "stat-1" "org-1" 5 0 0.
Definition usage_one : Storage.UsageStatistics.t :=
  Storage.UsageStatistics.mk "stat-1" "org-1" 1 0 0.
Definition empty_kv : Vault.store := Vault.mkStore [] ∅.
Definition kv_with_secret0 : Vault.store :=
  Vault.mkStore [] {[ "org-1/proj-1/prod/api-key" := stored_fields "hunter2" "user-1" "payment key" 50 ]}.

Definition full_world : World := mkWorld (Storage.mkDB [] [] [] [usage_full] []) empty_kv.
Definition fresh_world : World := mkWorld empty_db empty_kv.
(** Metadata without a value, a value without metadata, and both. *)
Definition metadata_only_world : World :=
  mkWorld (Storage.mkDB [] [] [] [usage_one] [metadata0]) empty_kv.
Definition value_only_world : World := mkWorld empty_db kv_with_secret0.
Definition stored_world : World :=
  mkWorld (Storage.mkDB [] [] [] [usage_one] [metadata0]) kv_with_secret0.

(** ** Further code of the cited files *)

(** *** mysql/users_repository.go (src/unnamed/part_001), the rest *)

Definition set_users (d : Storage.DB) (l : list Models.User.t) : Storage.DB :=
  Storage.mkDB (Storage.faults d) l (Storage.subscriptions d)
    (Storage.usage_statistics d) (Storage.secret_metadata d).

#[global] Instance User_eq_dec : EqDecision Models.User.t.
Proof. solve_decision. Defined.

#[global] Instance SecretMetadata_eq_dec : EqDecision Models.SecretMetadata.t.
Proof. solve_decision. Defined.

(** The connection string of connection.go does not set clientFoundRows,
    so [RowsAffected] after an UPDATE counts the matched rows whose
    values really change. *)
Definition rows_changed {A : Type} `{EqDecision A} (p : A -> bool) (f : A -> A) (l : list A) : Z :=
  Z.of_nat (length (List.filter (fun r => p r && negb (bool_decide (f r = r))) l)).

(** The users table compares an email with [=] under the collation of
    its schema: scripts/vault.sql creates the database with
    utf8mb4_unicode_ci, which equates strings that differ in case (and
    more).  Which strings the collation equates is taken as a parameter;
    all that is used of it is that it equates a string with itself. *)
Record Collation : Type := mkCollation { equates : string -> string -> bool }.

Definition collation_reflexive (c : Collation) : Prop :=
  forall a : string, equates c a a = true.

Module UsersRepositoryOps.
Import Models.

(** ... FROM users WHERE email = ? *)
Definition select_user_by_email (c : Collation) (email : string) (d : Storage.DB)
    : list User.t :=
  List.filter (fun u => equates c (User.Email u) email) (Storage.users d).

Definition GetUserByEmail (c : Collation) (d : Storage.DB) (email : string)
    : result User.t * Storage.DB :=
  match Storage.QueryRow d (select_user_by_email c email) with
  | (Err e, d') =>
      if Storage.errors_Is_ErrNoRows e then (Err storage_ErrUserNotFound, d') else (Err e, d')
  | (Ok user, d') => (Ok user, d')
  end.

Definition with_password (hashedPassword : string) (now : Z) (u : User.t) : User.t :=
  User.mk (User.ID u) (User.Email u) hashedPassword (User.FirstName u) (User.LastName u)
    (User.Role u) (User.CreatedAt u) now.

(** UPDATE users SET hashed_password = ?, updated_at = NOW() WHERE id = ? *)
Definition stmt_update_password (userID hashedPassword : string) (now : Z) (d : Storage.DB)
    : result (Z * Storage.DB) :=
  let p := fun u => streq (User.ID u) userID in
  Ok (rows_changed p (with_password hashedPassword now) (Storage.users d),
      set_users d (map (fun u => if p u then with_password hashedPassword now u else u)
                       (Storage.users d))).

Definition UpdatePassword (d : Storage.DB) (now : Z) (userID hashedPassword : string)
    : result unit * Storage.DB :=
  match Storage.Exec d (stmt_update_password userID hashedPassword now) with
  | (Err e, d') => (Err e, d')
  | (Ok rowsAffected, d') =>
      if rowsAffected =? 0 then (Err storage_ErrUserNotFound, d') else (Ok tt, d')
  end.

Definition with_profile (user : User.t) (now : Z) (u : User.t) : User.t :=
  User.mk (User.ID u) (User.Email user) (User.HashedPassword u) (User.FirstName user)
    (User.LastName user) (User.Role user) (User.CreatedAt u) now.

(** UPDATE users SET email = ?, first_name = ?, last_name = ?, role = ?,
    updated_at = NOW() WHERE id = ? *)
Definition stmt_update_user (user : User.t) (now : Z) (d : Storage.DB)
    : result (Z * Storage.DB) :=
  let p := fun u => streq (User.ID u) (User.ID user) in
  Ok (rows_changed p (with_profile user now) (Storage.users d),
      set_users d (map (fun u => if p u then with_profile user now u else u) (Storage.users d))).

Definition UpdateUser (d : Storage.DB) (now : Z) (user : User.t) : result unit * Storage.DB :=
  match Storage.Exec d (stmt_update_user user now) with
  | (Err e, d') => (Err e, d')
  | (Ok rowsAffected, d') =>
      if rowsAffected =? 0 then (Err storage_ErrUserNotFound, d') else (Ok tt, d')
  end.

(** DELETE FROM users WHERE id = ? *)
Definition stmt_delete_user (id : string) (d : Storage.DB) : result (Z * Storage.DB) :=
  let '(n, l) := Storage.delete_where (fun u => streq (User.ID u) id) (Storage.users d) in
  Ok (n, set_users d l).

Definition DeleteUser (d : Storage.DB) (id : string) : result unit * Storage.DB :=
  match Storage.Exec d (stmt_delete_user id) with
  | (Err e, d') => (Err e, d')
  | (Ok rowsAffected, d') =>
      if rowsAffected =? 0 then (Err storage_ErrUserNotFound, d') else (Ok tt, d')
  end.

End UsersRepositoryOps.

(** *** golang.org/x/crypto/bcrypt, as package auth uses it *)

(** The password hash is taken as a parameter: [GenerateFromPassword]
    draws a salt, given here as its first argument, and may fail;
    [CompareHashAndPassword] is [true] when it returns a nil error. *)
Record Bcrypt : Type := mkBcrypt {
  GenerateFromPassword : string -> string -> result string;
  CompareHashAndPassword : string -> string -> bool
}.

(** What is asked of the hash where a property needs it: a hash made
    from a password compares equal to that password. *)
Definition bcrypt_correct (b : Bcrypt) : Prop :=
  forall salt password hash,
    GenerateFromPassword b salt password = Ok hash ->
    CompareHashAndPassword b hash password = true.

Module Credentials.
Record t : Type := mk { Email : string; Password : string }.
End Credentials.

Module UserDetails.
Record t : Type := mk {
  ID : string; Email : string; FirstName : string; LastName : string; Role : string
}.
End UserDetails.

(** *** src/unnamed/part_005: Authenticate and RegisterUser *)
Module ServiceAccounts.
Import Models.

(** SELECT id, hashed_password, first_name, last_name, role FROM users WHERE email = ? *)
Definition Authenticate (b : Bcrypt) (c : Collation) (s : Service.t) (d : Storage.DB) (now : Z)
    (creds : Credentials.t) : result (TokenResponse * UserDetails.t) * Storage.DB :=
  match Storage.QueryRow d
          (UsersRepositoryOps.select_user_by_email c (Credentials.Email creds)) with
  | (Err err, d') =>
      if Storage.errors_Is_ErrNoRows err then (Err auth_ErrInvalidCredentials, d')
      else (Err err, d')
  | (Ok row, d') =>
      if negb (CompareHashAndPassword b (User.HashedPassword row) (Credentials.Password creds))
      then (Err auth_ErrInvalidCredentials, d')
      else
        let userID := User.ID row in
        let '(token, refreshToken, expiresAt) := Service.generateTokenPair s now userID in
        (Ok (mkTokenResponse token refreshToken expiresAt userID,
             UserDetails.mk userID (Credentials.Email creds) (User.FirstName row)
               (User.LastName row) (User.Role row)), d')
  end.

(** SELECT EXISTS(SELECT 1 FROM users WHERE email = ?): always one row. *)
Definition select_exists_email (c : Collation) (email : string) (d : Storage.DB)
    : list bool :=
  [existsb (fun u => equates c (User.Email u) email) (Storage.users d)].

(** INSERT INTO users (...): the table has primary key id and a unique
    email (scripts/vault.sql); the unique key compares under the
    collation too. *)
Definition stmt_insert_user (c : Collation) (u : User.t) (d : Storage.DB)
    : result (Z * Storage.DB) :=
  if existsb (fun x => streq (User.ID x) (User.ID u)
                       || equates c (User.Email x) (User.Email u))
       (Storage.users d)
  then Err (sql_DriverError "Duplicate entry")
  else Ok (1, set_users d (Storage.users d ++ [u])%list).

(** [salt] and [uuid] stand for the salt bcrypt draws and for
    [uuid.New().String()]. *)
Definition RegisterUser (b : Bcrypt) (c : Collation) (d : Storage.DB) (salt uuid : string)
    (now : Z) (creds : Credentials.t) (firstName lastName : string)
    : result UserDetails.t * Storage.DB :=
  match Storage.QueryRow d (select_exists_email c (Credentials.Email creds)) with
  | (Err err, d1) => (Err err, d1)
  | (Ok exists_, d1) =>
      if exists_ then (Err auth_ErrUserExists, d1)
      else
        match GenerateFromPassword b salt (Credentials.Password creds) with
        | Err err => (Err err, d1)
        | Ok hashedPassword =>
            let userID := uuid in
            match Storage.Exec d1
                    (stmt_insert_user c
                       (User.mk userID (Credentials.Email creds) hashedPassword
                          firstName lastName "user" now now)) with
            | (Err err, d2) => (Err err, d2)
            | (Ok _, d2) =>
                (Ok (UserDetails.mk userID (Credentials.Email creds) firstName lastName "user"),
                 d2)
            end
        end
  end.

End ServiceAccounts.

(** *** internal/auth/service_improved.go: the account operations that
    go through the users repository *)
Module ServiceImprovedAccounts.
Import Models.

Definition details (user : User.t) : UserDetails.t :=
  UserDetails.mk (User.ID user) (User.Email user) (User.FirstName user)
    (User.LastName user) (User.Role user).

Definition Authenticate (b : Bcrypt) (c : Collation) (s : ServiceImproved.t) (d : Storage.DB)
    (now : Z) (creds : Credentials.t) : result (TokenResponse * UserDetails.t) * Storage.DB :=
  match UsersRepositoryOps.GetUserByEmail c d (Credentials.Email creds) with
  | (Err err, d') =>
      if ServiceImproved.errors_Is_ErrUserNotFound err
      then (Err auth_ErrInvalidCredentials, d')
      else (Err err, d')
  | (Ok user, d') =>
      if negb (CompareHashAndPassword b (User.HashedPassword user) (Credentials.Password creds))
      then (Err auth_ErrInvalidCredentials, d')
      else
        let '(token, refreshToken, expiresAt) :=
          ServiceImproved.generateTokenPair s now (User.ID user) in
        (Ok (mkTokenResponse token refreshToken expiresAt (User.ID user), details user), d')
  end.

Definition GetUserByID (d : Storage.DB) (userID : string) : result UserDetails.t * Storage.DB :=
  match Storage.UsersRepository.GetUserByID d userID with
  | (Err err, d') =>
      if ServiceImproved.errors_Is_ErrUserNotFound err
      then (Err auth_ErrUserNotFound, d')
      else (Err err, d')
  | (Ok user, d') => (Ok (details user), d')
  end.

Definition UpdateUserPassword (b : Bcrypt) (d : Storage.DB) (salt : string) (now : Z)
    (userID currentPassword newPassword : string) : result unit * Storage.DB :=
  match Storage.UsersRepository.GetUserByID d userID with
  | (Err err, d1) =>
      if ServiceImproved.errors_Is_ErrUserNotFound err
      then (Err auth_ErrUserNotFound, d1)
      else (Err err, d1)
  | (Ok user, d1) =>
      if negb (CompareHashAndPassword b (User.HashedPassword user) currentPassword)
      then (Err auth_ErrInvalidCredentials, d1)
      else
        match GenerateFromPassword b salt newPassword with
        | Err err => (Err err, d1)
        | Ok hashedPassword => UsersRepositoryOps.UpdatePassword d1 now userID hashedPassword
        end
  end.

Definition UpdateUserProfile (d : Storage.DB) (now : Z) (userID firstName lastName : string)
    : result UserDetails.t * Storage.DB :=
  match Storage.UsersRepository.GetUserByID d userID with
  | (Err err, d1) =>
      if ServiceImproved.errors_Is_ErrUserNotFound err
      then (Err auth_ErrUserNotFound, d1)
      else (Err err, d1)
  | (Ok user, d1) =>
      let user := User.mk (User.ID user) (User.Email user) (User.HashedPassword user)
                    firstName lastName (User.Role user) (User.CreatedAt user) now in
      match UsersRepositoryOps.UpdateUser d1 now user with
      | (Err err, d2) => (Err err, d2)
      | (Ok _, d2) => (Ok (details user), d2)
      end
  end.

End ServiceImprovedAccounts.

(** *** mysql/secrets_repository.go, the rest *)
Module SecretsRepositoryOps.
Import Models.

(** [db.QueryContext] followed by the scan loop over all rows. *)
Definition Query {A : Type} (d : Storage.DB) (rows : Storage.DB -> list A)
    : result (list A) * Storage.DB :=
  match Storage.roundtrip d with
  | (Some msg, d') => (Err (sql_DriverError msg), d')
  | (None, d') => (Ok (rows d'), d')
  end.

(** SELECT ... FROM secret_metadata WHERE id = ? *)
Definition select_by_id (id : string) (d : Storage.DB) : list SecretMetadata.t :=
  List.filter (fun m => streq (SecretMetadata.ID m) id) (Storage.secret_metadata d).

Definition GetSecretMetadata (d : Storage.DB) (id : string)
    : result (option SecretMetadata.t) * Storage.DB :=
  match Storage.QueryRow d (select_by_id id) with
  | (Err e, d') => if Storage.errors_Is_ErrNoRows e then (Ok None, d') else (Err e, d')
  | (Ok metadata, d') => (Ok (Some metadata), d')
  end.

(** SELECT ... FROM secret_metadata
    WHERE organization_id = ? AND project_id = ? AND environment = ? *)
Definition in_scope (orgID projectID env : string) (m : SecretMetadata.t) : bool :=
  streq (SecretMetadata.OrganizationID m) orgID
  && streq (SecretMetadata.ProjectID m) projectID
  && streq (SecretMetadata.Environment m) env.

Definition ListProjectSecrets (d : Storage.DB) (orgID projectID env : string)
    : result (list SecretMetadata.t) * Storage.DB :=
  Query d (fun d' => List.filter (in_scope orgID projectID env) (Storage.secret_metadata d')).

Definition with_update (metadata : SecretMetadata.t) (now : Z) (m : SecretMetadata.t)
    : SecretMetadata.t :=
  SecretMetadata.mk (SecretMetadata.ID m) (SecretMetadata.Name metadata)
    (SecretMetadata.Description metadata) (SecretMetadata.OrganizationID m)
    (SecretMetadata.ProjectID m) (SecretMetadata.Environment m) (SecretMetadata.CreatedBy m)
    (SecretMetadata.CreatedAt m) now (SecretMetadata.Version metadata).

(** UPDATE secret_metadata SET name = ?, description = ?, updated_at = NOW(),
    version = ? WHERE id = ? *)
Definition stmt_update_metadata (metadata : SecretMetadata.t) (now : Z) (d : Storage.DB)
    : result (Z * Storage.DB) :=
  let p := fun m => streq (SecretMetadata.ID m) (SecretMetadata.ID metadata) in
  Ok (rows_changed p (with_update metadata now) (Storage.secret_metadata d),
      Storage.set_secret_metadata d
        (map (fun m => if p m then with_update metadata now m else m)
             (Storage.secret_metadata d))).

Definition UpdateSecretMetadata (d : Storage.DB) (now : Z) (metadata : SecretMetadata.t)
    : result unit * Storage.DB :=
  match Storage.Exec d (stmt_update_metadata metadata now) with
  | (Err e, d') => (Err e, d')
  | (Ok _, d') => (Ok tt, d')
  end.

End SecretsRepositoryOps.

(** *** repository_impl.go, the rest *)
Module SecretCountRepositoryOps.

(** UPDATE usage_statistics SET api_calls = api_calls + 1, last_updated = NOW()
    WHERE organization_id = ? *)
Definition stmt_increment_api (orgID : string) (now : Z) (d : Storage.DB)
    : result (Z * Storage.DB) :=
  let '(n, l) :=
    Storage.update_where
      (fun r => streq (Storage.UsageStatistics.organization_id r) orgID)
      (fun r => Storage.UsageStatistics.mk (Storage.UsageStatistics.id r)
                  (Storage.UsageStatistics.organization_id r)
                  (Storage.UsageStatistics.secret_count r)
                  (Storage.UsageStatistics.api_calls r + 1) now)
      (Storage.usage_statistics d) in
  Ok (n, Storage.set_usage_statistics d l).

(** INSERT INTO usage_statistics (...) VALUES (?, ?, 0, 1, NOW()) *)
Definition stmt_insert_api_stats (uuid orgID : string) (now : Z) (d : Storage.DB)
    : result (Z * Storage.DB) :=
  match Storage.insert_row Storage.UsageStatistics.id
          (Storage.UsageStatistics.mk uuid orgID 0 1 now) (Storage.usage_statistics d) with
  | Ok l => Ok (1, Storage.set_usage_statistics d l)
  | Err e => Err e
  end.

Definition IncrementAPICallCount (d : Storage.DB) (uuid : string) (now : Z) (orgID : string)
    : result unit * Storage.DB :=
  match Storage.Exec d (stmt_increment_api orgID now) with
  | (Err e, d') => (Err e, d')
  | (Ok rows, d') =>
      if rows =? 0
      then match Storage.Exec d' (stmt_insert_api_stats uuid orgID now) with
           | (Err e, d'') => (Err e, d'')
           | (Ok _, d'') => (Ok tt, d'')
           end
      else (Ok tt, d')
  end.

(** SELECT secret_count, api_calls FROM usage_statistics WHERE organization_id = ? *)
Definition select_usage (orgID : string) (d : Storage.DB) : list (Z * Z) :=
  map (fun r => (Storage.UsageStatistics.secret_count r, Storage.UsageStatistics.api_calls r))
    (List.filter (fun r => streq (Storage.UsageStatistics.organization_id r) orgID)
                 (Storage.usage_statistics d)).

Definition GetUsageStatistics (d : Storage.DB) (orgID : string) : result (Z * Z) * Storage.DB :=
  match Storage.QueryRow d (select_usage orgID) with
  | (Err e, d') => if Storage.errors_Is_ErrNoRows e then (Ok (0, 0), d') else (Err e, d')
  | (Ok counts, d') => (Ok counts, d')
  end.

End SecretCountRepositoryOps.

(** *** mysql/organizations_repository.go: CountOrganizationSecrets *)
Module OrganizationsRepositoryOps.

(** SELECT COUNT of the rows FROM secret_metadata WHERE organization_id = ?:
    always one row. *)
Definition select_count_secrets (orgID : string) (d : Storage.DB) : list Z :=
  [Z.of_nat (length (List.filter
                       (fun m => streq (Models.SecretMetadata.OrganizationID m) orgID)
                       (Storage.secret_metadata d)))].

Definition CountOrganizationSecrets (d : Storage.DB) (orgID : string) : result Z * Storage.DB :=
  match Storage.QueryRow d (select_count_secrets orgID) with
  | (Err e, d') => (Err e, d')
  | (Ok count, d') => (Ok count, d')
  end.

End OrganizationsRepositoryOps.

(** *** internal/vault: listing (client.go in src/unnamed/part_006, service.go) *)
Module VaultListing.
Import Models.

(** What [Logical().List] hands back: an error, no secret, or a secret
    whose data may be missing; under "keys" the data holds a slice of
    values that are strings or not, or something that is no slice. *)
Inductive item : Type := IString (s : string) | IOther.
Inductive entry : Type := Slice (l : list item) | NoSlice.
Record ListSecret : Type := mkListSecret { Data : option (gmap string entry) }.

Definition strings_of (l : list item) : list string :=
  flat_map (fun i => match i with IString s => [s] | IOther => [] end) l.

(** [logicalList] is the call [c.client.Logical().List]. *)
Definition ListSecrets (logicalList : string -> result (option ListSecret)) (path : string)
    : result (list string) :=
  let fullPath := ("secret/metadata/" ++ path)%string in
  match logicalList fullPath with
  | Err _ => Err (fmt_Error "impossible de lister les secrets")
  | Ok None => Ok []
  | Ok (Some secret) =>
      match Data secret with
      | None => Ok []
      | Some data =>
          match data !! "keys" with
          | None => Ok []
          | Some NoSlice => Err (fmt_Error "format inattendu pour les clés")
          | Some (Slice keysSlice) => Ok (strings_of keysSlice)
          end
      end
  end.

(** The loop of ListProjectSecrets: a key whose secret cannot be read
    is skipped. *)
Fixpoint collect (st : Vault.store) (orgID projectID env : string) (keys : list string)
    : list Secret.t * Vault.store :=
  match keys with
  | [] => ([], st)
  | key :: rest =>
      match Vault.Service.GetSecret st orgID projectID env key with
      | (Err _, st') => collect st' orgID projectID env rest
      | (Ok secret, st') =>
          let '(secrets, st'') := collect st' orgID projectID env rest in
          (secret :: secrets, st'')
      end
  end.

Definition ListProjectSecrets (logicalList : string -> result (option ListSecret))
    (st : Vault.store)
    (orgID projectID env : string) : result (list Secret.t) * Vault.store :=
  let path := (orgID ++ "/" ++ projectID ++ "/" ++ env)%string in
  match ListSecrets logicalList path with
  | Err err => (Err err, st)
  | Ok keys =>
      let '(secrets, st') := collect st orgID projectID env keys in
      (Ok secrets, st')
  end.

End VaultListing.

(** *** internal/api/middleware/middleware.go (src/unnamed/part_003): JWTAuth *)
Module Middleware.

(** [strings.Split(s, " ")]. *)
Fixpoint Split (s : string) : list string :=
  match s with
  | EmptyString => [EmptyString]
  | String c rest =>
      if streq (String c EmptyString) " " then EmptyString :: Split rest
      else match Split rest with
           | [] => [String c EmptyString]
           | h :: t => String c h :: t
           end
  end.

(** Either the request is answered 401 with a message, or the next
    handler runs with the user id in the request context. *)
Inductive outcome : Type :=
| Unauthorized (msg : string)
| Next (userID : string).

(** [VerifyToken] is the method of the auth service the middleware was
    built with; [authHeader] the Authorization header, empty if absent. *)
Definition JWTAuth (VerifyToken : string -> result string) (authHeader : string) : outcome :=
  if streq authHeader "" then Unauthorized "Autorisation requise"
  else
    match Split authHeader with
    | [scheme; token] =>
        if negb (streq scheme "Bearer") then Unauthorized "Format d'autorisation invalide"
        else match VerifyToken token with
             | Err _ => Unauthorized "Token invalide"
             | Ok userID => Next userID
             end
    | _ => Unauthorized "Format d'autorisation invalide"
    end.

End Middleware.

(** *** Notions for the further properties *)

(** The claims the untyped legacy service puts in a token. *)
Definition untyped_claims (userID : string) (exp iat : Z) : gmap string Jwt.claim :=
  <["sub" := Jwt.CString userID]>
    (<["exp" := Jwt.CNumber exp]>
      (<["iat" := Jwt.CNumber iat]> ∅)).

Definition user1 : Models.User.t :=
  Models.User.mk "user-1" "ann@example.org" "hash-of-pw" "Ann" "Lee" "user" 10 10.
Definition users_db : Storage.DB := Storage.mkDB [] [user1] [] [] [].

(** A stand-in hash for concrete instances: the hash of a password is
    the password. *)
Definition toy_bcrypt : Bcrypt :=
  mkBcrypt (fun _ password => Ok password) (fun hash password => streq hash password).

Definition ann_creds : Credentials.t := Credentials.mk "ann@example.org" "hash-of-pw".
Definition bob_creds : Credentials.t := Credentials.mk "bob@example.org" "pw-bob".

(** A collation for concrete instances: strings are equated when they
    agree after the letters A to Z are put in lower case. *)
Definition lower_ascii (a : Ascii.ascii) : Ascii.ascii :=
  let n := Ascii.nat_of_ascii a in
  if ((65 <=? n) && (n <=? 90))%nat then Ascii.ascii_of_nat (n + 32) else a.

Fixpoint lower (s : string) : string :=
  match s with
  | EmptyString => EmptyString
  | String a rest => String (lower_ascii a) (lower rest)
  end.

Definition ascii_ci : Collation := mkCollation (fun a b => streq (lower a) (lower b)).

(** Ann's address as she may type it. *)
Definition ann_shouting : Credentials.t := Credentials.mk "ANN@Example.org" "hash-of-pw".

(** The usage counter agrees with the catalog: for every organization
    GetSecretsCount and CountOrganizationSecrets give the same answer. *)
Definition ledger_consistent (d : Storage.DB) : Prop :=
  forall orgID : string,
    fst (Storage.SecretsRepository.GetSecretsCount d orgID)
    = fst (OrganizationsRepositoryOps.CountOrganizationSecrets d orgID).

Definition rows_of (orgID : string) (d : Storage.DB) : Z :=
  Z.of_nat (length (List.filter
                      (fun m => streq (Models.SecretMetadata.OrganizationID m) orgID)
                      (Storage.secret_metadata d))).

(** A database whose second statement fails: the connection drops after
    the first one. *)
Definition flaky_db : Storage.DB :=
  Storage.mkDB [None; Some "connection reset"] [] [] [] [].

(** One secret in the catalog, counted once. *)
Definition catalog_db : Storage.DB := Storage.mkDB [] [] [] [usage_one] [metadata0].

(** A second secret of the same project. *)
Definition metadata1 : Models.SecretMetadata.t :=
  Models.SecretMetadata.mk "" "db-password" "database" "org-1" "proj-1" "prod" "user-1" 0 0 1.

(** The subscriptions table after the first step of CreateSubscription:
    the organization's active subscription, if it has one, cancelled. *)
Definition cancelled_first (now : Z) (orgID : string) (d : Storage.DB)
    : list Models.Subscription.t :=
  match head (Storage.SubscriptionService.select_active_subscription orgID now d) with
  | Some existing =>
      map (cancel_where (Models.Subscription.ID existing) now) (Storage.subscriptions d)
  | None => Storage.subscriptions d
  end.

(** The subscription as CreateSubscription inserts it: with the drawn
    id when it came without one. *)
Definition subscription_row (s : Models.Subscription.t) (uuid : string) (now : Z)
    : Models.Subscription.t :=
  inserted_row
    (if streq (Models.Subscription.ID s) "" then Storage.SubscriptionService.with_ID s uuid
     else s) now.

(** A renewal that reuses the id of the running subscription. *)
Definition renewal_sub : Models.Subscription.t :=
  Models.Subscription.mk "sub-1" "org-1" "plan-basic" "active" 10 3000 9000 0 0.

(** A path component without the separator. *)
Fixpoint no_slash (s : string) : bool :=
  match s with
  | EmptyString => true
  | String c rest => negb (streq (String c EmptyString) "/") && no_slash rest
  end.

(** A secret whose organization id holds a separator. *)
Definition stray_secret : Models.Secret.t :=
  Models.Secret.mk "" "api-key" "overwritten" "" "org-1/proj-1" "prod" "eu" "" 0 0 1.

(** A value store whose next call fails. *)
Definition down_kv : Vault.store :=
  Vault.mkStore [Some "connection refused"] (Vault.data kv_with_secret0).

(** What ListProjectSecrets makes of one listed key when the value
    store answers: the secret read at the key's path (for a soft-deleted
    secret one without value, description and creator), or nothing for
    a key that has no version at its path, such as a folder entry. *)
Definition read_key (st : Vault.store) (orgID projectID env key : string)
    : list Models.Secret.t :=
  match Vault.data st !! Vault.Service.buildSecretPath orgID projectID env key with
  | Some d =>
      [Models.Secret.mk "" key (Vault.Service.string_field d "value" "")
         (Vault.Service.string_field d "description" "")
         orgID projectID env (Vault.Service.string_field d "created_by" "") 0 0 0]
  | None => []
  end.

(** A listing answer with a folder entry and a value that is no string. *)
Definition listing0 (path : string) : result (option VaultListing.ListSecret) :=
  if streq path "secret/metadata/org-1/proj-1/prod"
  then Ok (Some (VaultListing.mkListSecret
                   (Some {[ "keys" := VaultListing.Slice
                              [VaultListing.IString "api-key"; VaultListing.IOther;
                               VaultListing.IString "eu/"] ]})))
  else Ok None.

(** A string without a blank. *)
Fixpoint no_space (s : string) : bool :=
  match s with
  | EmptyString => true
  | String c rest => negb (streq (String c EmptyString) " ") && no_space rest
  end.

(** A verifier that knows one token. *)
Definition verify0 (token : string) : result string :=
  if streq token "tok-1" then Ok "user-1" else Err auth_ErrInvalidToken.

(** The value store after the secret of [kv_with_secret0] was deleted. *)
Definition deleted_kv : Vault.store :=
  snd (Vault.Service.DeleteSecret kv_with_secret0 "org-1" "proj-1" "prod" "api-key").

(** * Theorems *)

(** ** Token service *)

Lemma streq_refl (a : string) : streq a a = true.
Proof. unfold streq. by apply bool_decide_eq_true. Qed.

Lemma streq_true (a b : string) : streq a b = true <-> a = b.
Proof. unfold streq. apply bool_decide_eq_true. Qed.

Lemma streq_false (a b : string) : streq a b = false <-> a <> b.
Proof. unfold streq. apply bool_decide_eq_false. Qed.

Section TypedClaims.
Variables (userID tokenType : string) (exp iat : Z).

Lemma typed_claims_sub : typed_claims userID tokenType exp iat !! "sub" = Some (Jwt.CString userID).
Proof. unfold typed_claims. by simplify_map_eq. Qed.

Lemma typed_claims_type :
  typed_claims userID tokenType exp iat !! "type" = Some (Jwt.CString tokenType).
Proof. unfold typed_claims. by simplify_map_eq. Qed.

Lemma typed_claims_exp : typed_claims userID tokenType exp iat !! "exp" = Some (Jwt.CNumber exp).
Proof. unfold typed_claims. by simplify_map_eq. Qed.

Lemma typed_claims_iat : typed_claims userID tokenType exp iat !! "iat" = Some (Jwt.CNumber iat).
Proof. unfold typed_claims. by simplify_map_eq. Qed.

Lemma typed_claims_nbf : typed_claims userID tokenType exp iat !! "nbf" = None.
Proof. unfold typed_claims. by simplify_map_eq. Qed.

(** The flags [MapClaims.Valid] raises on minted claims. *)
Lemma ClaimsValid_typed (now : Z) :
  Jwt.ClaimsValid (typed_claims userID tokenType exp iat) now =
  Z.lor (if expired_at exp now then Jwt.ValidationErrorExpired else 0)
        (if used_before_issued iat now then Jwt.ValidationErrorIssuedAt else 0).
Proof.
  unfold Jwt.ClaimsValid, Jwt.VerifyExpiresAt, Jwt.VerifyIssuedAt, Jwt.VerifyNotBefore,
    Jwt.verifyClaim.
  rewrite typed_claims_exp, typed_claims_iat, typed_claims_nbf.
  unfold expired_at, used_before_issued, Jwt.verifyExp, Jwt.verifyIat.
  destruct (exp =? 0) eqn:He, (iat =? 0) eqn:Hi; simpl;
    try (destruct (now <? exp) eqn:Hlt; destruct (exp <=? now) eqn:Hle; try lia);
    try (destruct (iat <=? now) eqn:Hil; destruct (now <? iat) eqn:Hli; try lia);
    reflexivity.
Qed.
End TypedClaims.

(** [jwt.Parse] on a token that the parsing service itself could have
    signed: only the time checks can fail. *)
Lemma Parse_own_token (rel : Jwt.release) (secret : string) (keyFunc : Jwt.Token -> result string)
    (claims : gmap string Jwt.claim) (now : Z) :
  keyFunc (Jwt.mkToken Jwt.HS256 claims secret false) = Ok secret ->
  Jwt.Parse rel (Jwt.SignedString Jwt.HS256 claims secret) keyFunc now =
  if Jwt.ClaimsValid claims now =? 0
  then Ok (Jwt.mkToken Jwt.HS256 claims secret true)
  else Err (jwt_ValidationError (Jwt.ClaimsValid claims now)).
Proof.
  intros Hk. unfold Jwt.Parse, Jwt.SignedString. rewrite Hk.
  unfold Jwt.Verify. cbn [Jwt.SignedWith Jwt.Method Jwt.Claims].
  rewrite bool_decide_eq_true_2 by reflexivity.
  destruct rel; cbn [Z.eqb]; rewrite ?Z.lor_0_r; reflexivity.
Qed.

Lemma ServiceImproved_parse_minted (rel : Jwt.release) (s : ServiceImproved.t)
    (t0 now : Z) (userID tokenType : string) (expiry : Z) :
  ServiceImproved.parseToken rel s now
    (fst (ServiceImproved.generateToken s t0 userID tokenType expiry)) =
  if expired_at (t0 + expiry) now then Err auth_ErrTokenExpired
  else if used_before_issued t0 now then Err auth_ErrInvalidToken
  else Ok (typed_claims userID tokenType (t0 + expiry) t0).
Proof.
  unfold ServiceImproved.parseToken, ServiceImproved.generateToken. cbn [fst].
  rewrite (Parse_own_token rel (ServiceImproved.jwtSecret s)) by reflexivity.
  fold (typed_claims userID tokenType (t0 + expiry) t0).
  rewrite ClaimsValid_typed.
  destruct (expired_at (t0 + expiry) now), (used_before_issued t0 now); reflexivity.
Qed.

Lemma Service_parse_minted (rel : Jwt.release) (s : Service.t)
    (t0 now : Z) (userID tokenType : string) (expiry : Z) :
  Service.parseToken rel s now (fst (Service.generateToken s t0 userID tokenType expiry)) =
  if expired_at (t0 + expiry) now then Err auth_ErrTokenExpired
  else if used_before_issued t0 now then Err auth_ErrInvalidToken
  else Ok (typed_claims userID tokenType (t0 + expiry) t0).
Proof.
  unfold Service.parseToken, Service.generateToken. cbn [fst].
  rewrite (Parse_own_token rel (Service.jwtSecret s)) by reflexivity.
  fold (typed_claims userID tokenType (t0 + expiry) t0).
  rewrite ClaimsValid_typed.
  destruct (expired_at (t0 + expiry) now), (used_before_issued t0 now); reflexivity.
Qed.

Lemma ServiceImproved_VerifyToken_refresh (rel : Jwt.release) (s : ServiceImproved.t)
    (t0 now expiry : Z) (userID : string) :
  ServiceImproved.VerifyToken rel s now
    (fst (ServiceImproved.generateToken s t0 userID "refresh" expiry)) =
  Err (rejection (t0 + expiry) now).
Proof.
  unfold ServiceImproved.VerifyToken, rejection. rewrite ServiceImproved_parse_minted.
  destruct (expired_at (t0 + expiry) now); [reflexivity|].
  destruct (used_before_issued t0 now); [reflexivity|].
  rewrite typed_claims_type. reflexivity.
Qed.

Lemma ServiceImproved_RefreshToken_access (rel : Jwt.release) (s : ServiceImproved.t)
    (db : Storage.DB) (t0 now expiry : Z) (userID : string) :
  ServiceImproved.RefreshToken rel s db now
    (fst (ServiceImproved.generateToken s t0 userID "access" expiry)) =
  (Err (rejection (t0 + expiry) now), db).
Proof.
  unfold ServiceImproved.RefreshToken, rejection. rewrite ServiceImproved_parse_minted.
  destruct (expired_at (t0 + expiry) now); [reflexivity|].
  destruct (used_before_issued t0 now); [reflexivity|].
  rewrite typed_claims_type. reflexivity.
Qed.

Lemma Service_VerifyToken_refresh (rel : Jwt.release) (s : Service.t)
    (t0 now expiry : Z) (userID : string) :
  Service.VerifyToken rel s now (fst (Service.generateToken s t0 userID "refresh" expiry)) =
  Err (rejection (t0 + expiry) now).
Proof.
  unfold Service.VerifyToken, rejection. rewrite Service_parse_minted.
  destruct (expired_at (t0 + expiry) now); [reflexivity|].
  destruct (used_before_issued t0 now); [reflexivity|].
  rewrite typed_claims_type. reflexivity.
Qed.

Lemma Service_RefreshToken_access (rel : Jwt.release) (s : Service.t)
    (t0 now expiry : Z) (userID : string) :
  Service.RefreshToken rel s now (fst (Service.generateToken s t0 userID "access" expiry)) =
  Err (rejection (t0 + expiry) now).
Proof.
  unfold Service.RefreshToken, rejection. rewrite Service_parse_minted.
  destruct (expired_at (t0 + expiry) now); [reflexivity|].
  destruct (used_before_issued t0 now); [reflexivity|].
  rewrite typed_claims_type. reflexivity.
Qed.

(** The untyped service of internal/auth/service.go, sharing the signing
    secret, looks at no [type] claim: a refresh token passes whenever
    its time claims do. *)
Lemma LegacyService_VerifyToken_refresh (rel : Jwt.release) (s : ServiceImproved.t)
    (legacyExpiry t0 now expiry : Z) (userID : string) :
  LegacyService.VerifyToken rel (LegacyService.mk (ServiceImproved.jwtSecret s) legacyExpiry) now
    (fst (ServiceImproved.generateToken s t0 userID "refresh" expiry)) =
  if expired_at (t0 + expiry) now || used_before_issued t0 now
  then Err (jwt_ValidationError
              (Jwt.ClaimsValid (typed_claims userID "refresh" (t0 + expiry) t0) now))
  else Ok userID.
Proof.
  unfold LegacyService.VerifyToken, ServiceImproved.generateToken. cbn [fst].
  rewrite (Parse_own_token rel (ServiceImproved.jwtSecret s)) by reflexivity.
  fold (typed_claims userID "refresh" (t0 + expiry) t0).
  rewrite ClaimsValid_typed.
  destruct (expired_at (t0 + expiry) now), (used_before_issued t0 now); reflexivity.
Qed.

(** C3, as the code has it: a refresh token minted by a typed token
    service (ServiceImproved, or the Service of part_005) is always
    rejected by that service's VerifyToken, and an access token by its
    RefreshToken (which leaves the database alone); the error is
    ErrInvalidToken unless the token's exp has passed, in which case
    parsing fails first and the error is ErrTokenExpired. *)
Theorem C3_token_typing (rel : Jwt.release) (t0 now expiry : Z) (userID : string) :
  (forall s : ServiceImproved.t,
     ServiceImproved.VerifyToken rel s now
       (fst (ServiceImproved.generateToken s t0 userID "refresh" expiry)) =
       Err (if expired_at (t0 + expiry) now then auth_ErrTokenExpired else auth_ErrInvalidToken)
     /\ forall db : Storage.DB,
       ServiceImproved.RefreshToken rel s db now
         (fst (ServiceImproved.generateToken s t0 userID "access" expiry)) =
       (Err (if expired_at (t0 + expiry) now then auth_ErrTokenExpired else auth_ErrInvalidToken),
        db))
  /\ (forall s : Service.t,
     Service.VerifyToken rel s now (fst (Service.generateToken s t0 userID "refresh" expiry)) =
       Err (if expired_at (t0 + expiry) now then auth_ErrTokenExpired else auth_ErrInvalidToken)
     /\ Service.RefreshToken rel s now (fst (Service.generateToken s t0 userID "access" expiry)) =
       Err (if expired_at (t0 + expiry) now then auth_ErrTokenExpired else auth_ErrInvalidToken)).
Proof.
  split.
  - intros s. split.
    + apply ServiceImproved_VerifyToken_refresh.
    + intros db. apply ServiceImproved_RefreshToken_access.
  - intros s. split.
    + apply Service_VerifyToken_refresh.
    + apply Service_RefreshToken_access.
Qed.

(** C3 as stated fails once a token has expired: a refresh token minted
    at 1000 with a lifetime of 86400 s and presented to VerifyToken at
    100000 is rejected with ErrTokenExpired, not ErrInvalidToken, and so
    is an expired access token presented to RefreshToken. *)
Lemma C3_counterexample_expired_token :
  ServiceImproved.VerifyToken Jwt.SignatureFirst improved0 100000 refresh0
    = Err auth_ErrTokenExpired
  /\ ServiceImproved.VerifyToken Jwt.SignatureFirst improved0 100000 refresh0
    <> Err auth_ErrInvalidToken
  /\ fst (ServiceImproved.RefreshToken Jwt.SignatureFirst improved0 empty_db 100000 access0)
    = Err auth_ErrTokenExpired
  /\ ServiceImproved.VerifyToken Jwt.MergedErrors improved0 100000 refresh0
    = Err auth_ErrTokenExpired.
Proof.
  unfold refresh0, access0.
  rewrite !ServiceImproved_VerifyToken_refresh, ServiceImproved_RefreshToken_access.
  repeat split; try reflexivity. discriminate.
Qed.

(** The same refresh token, while fresh, is accepted as an access
    credential by the untyped legacy service under the same secret. *)
Example LegacyService_accepts_refresh0 :
  LegacyService.VerifyToken Jwt.SignatureFirst legacy0 2000 refresh0 = Ok "user-1".
Proof.
  unfold refresh0.
  exact (LegacyService_VerifyToken_refresh Jwt.SignatureFirst improved0 3600 1000 2000 86400 "user-1").
Qed.

(** [jwt.Parse] on a token whose signature verifies and whose [exp] has
    passed: a validation error that matches [ErrTokenExpired]. *)
Lemma Parse_expired (rel : Jwt.release) (t : Jwt.Token) (keyFunc : Jwt.Token -> result string)
    (e now : Z) :
  keyFunc t = Ok (Jwt.SignedWith t) ->
  Jwt.Claims t !! "exp" = Some (Jwt.CNumber e) -> e <> 0 -> e < now ->
  exists Errors,
    Jwt.Parse rel (Jwt.Compact t) keyFunc now = Err (jwt_ValidationError Errors)
    /\ Jwt.Is (jwt_ValidationError Errors) Jwt.ErrTokenExpired = true.
Proof.
  intros Hk Hexp Hne Hlt.
  exists (Jwt.ClaimsValid (Jwt.Claims t) now).
  assert (Hflags : exists a b, (a = 0 \/ a = Jwt.ValidationErrorIssuedAt)
            /\ (b = 0 \/ b = Jwt.ValidationErrorNotValidYet)
            /\ Jwt.ClaimsValid (Jwt.Claims t) now = Z.lor Jwt.ValidationErrorExpired (Z.lor a b)).
  { unfold Jwt.ClaimsValid.
    assert (Hv : Jwt.VerifyExpiresAt (Jwt.Claims t) "exp" now false = false).
    { unfold Jwt.VerifyExpiresAt, Jwt.verifyClaim. rewrite Hexp.
      destruct (e =? 0) eqn:He; [lia|]. unfold Jwt.verifyExp. lia. }
    rewrite Hv.
    eexists _, _. split; [|split; [|reflexivity]].
    - destruct (Jwt.VerifyIssuedAt _ _ _ _); auto.
    - destruct (Jwt.VerifyNotBefore _ _ _ _); auto. }
  destruct Hflags as (a & b & Ha & Hb & Hcv).
  unfold Jwt.Parse. rewrite Hk. unfold Jwt.Verify.
  rewrite bool_decide_eq_true_2 by reflexivity. rewrite !Hcv.
  destruct rel, Ha as [-> | ->], Hb as [-> | ->]; split; reflexivity.
Qed.

Lemma HMAC_keyFunc_improved (s : ServiceImproved.t) (t : Jwt.Token) :
  Jwt.SigningMethodHMAC (Jwt.Method t) = true ->
  Jwt.SignedWith t = ServiceImproved.jwtSecret s ->
  ServiceImproved.keyFunc s t = Ok (Jwt.SignedWith t).
Proof. intros Hm Hs. unfold ServiceImproved.keyFunc. rewrite Hm, Hs. reflexivity. Qed.

Lemma HMAC_keyFunc_service (s : Service.t) (t : Jwt.Token) :
  Jwt.SigningMethodHMAC (Jwt.Method t) = true ->
  Jwt.SignedWith t = Service.jwtSecret s ->
  Service.keyFunc s t = Ok (Jwt.SignedWith t).
Proof. intros Hm Hs. unfold Service.keyFunc. rewrite Hm, Hs. reflexivity. Qed.

Lemma HMAC_keyFunc_legacy (s : LegacyService.t) (t : Jwt.Token) :
  Jwt.SigningMethodHMAC (Jwt.Method t) = true ->
  Jwt.SignedWith t = LegacyService.jwtSecret s ->
  LegacyService.keyFunc s t = Ok (Jwt.SignedWith t).
Proof. intros Hm Hs. unfold LegacyService.keyFunc. rewrite Hm, Hs. reflexivity. Qed.

(** [jwt.Parse] on a token that cannot be trusted, under a key function
    of the services' shape: an error, which matches [ErrTokenExpired]
    exactly when [untrusted_answer] says so. *)
Lemma Parse_untrusted (rel : Jwt.release) (t : Jwt.Token) (keyFunc : Jwt.Token -> result string)
    (secret msg : string) (now : Z) :
  (forall token, keyFunc token
                 = if Jwt.SigningMethodHMAC (Jwt.Method token) then Ok secret
                   else Err (fmt_Error msg)) ->
  Jwt.SignedWith t <> secret \/ Jwt.SigningMethodHMAC (Jwt.Method t) = false ->
  exists Errors,
    Jwt.Parse rel (Jwt.Compact t) keyFunc now = Err (jwt_ValidationError Errors)
    /\ (if Jwt.Is (jwt_ValidationError Errors) Jwt.ErrTokenExpired
        then auth_ErrTokenExpired else auth_ErrInvalidToken)
       = untrusted_answer rel t now
    /\ Jwt.Is (jwt_ValidationError Errors) Jwt.ErrTokenExpired
       = match untrusted_answer rel t now with auth_ErrTokenExpired => true | _ => false end.
Proof.
  intros Hk Hbad. unfold Jwt.Parse, untrusted_answer. rewrite Hk.
  destruct (Jwt.SigningMethodHMAC (Jwt.Method t)) eqn:Hm.
  - destruct Hbad as [Hkey|Hno]; [|discriminate].
    unfold Jwt.Verify. rewrite bool_decide_eq_false_2 by exact Hkey.
    unfold Jwt.ClaimsValid.
    destruct rel, (Jwt.VerifyExpiresAt _ _ _ _), (Jwt.VerifyIssuedAt _ _ _ _),
      (Jwt.VerifyNotBefore _ _ _ _); eexists; (split; [reflexivity|split; reflexivity]).
  - destruct rel; eexists; (split; [reflexivity|split; reflexivity]).
Qed.

Section UntrustedTokens.
Variables (rel : Jwt.release) (now : Z).

Lemma ServiceImproved_untrusted (s : ServiceImproved.t) (t : Jwt.Token) :
  Jwt.SignedWith t <> ServiceImproved.jwtSecret s
    \/ Jwt.SigningMethodHMAC (Jwt.Method t) = false ->
  ServiceImproved.parseToken rel s now (Jwt.Compact t) = Err (untrusted_answer rel t now)
  /\ ServiceImproved.VerifyToken rel s now (Jwt.Compact t) = Err (untrusted_answer rel t now)
  /\ forall db : Storage.DB,
       ServiceImproved.RefreshToken rel s db now (Jwt.Compact t)
       = (Err (untrusted_answer rel t now), db).
Proof.
  intros Hbad.
  destruct (Parse_untrusted rel t (ServiceImproved.keyFunc s) (ServiceImproved.jwtSecret s)
              _ now (fun _ => eq_refl) Hbad) as (fl & HP & HA & _).
  assert (Hp : ServiceImproved.parseToken rel s now (Jwt.Compact t)
               = Err (untrusted_answer rel t now)).
  { unfold ServiceImproved.parseToken. rewrite HP, <- HA.
    by destruct (Jwt.Is _ _). }
  split; [exact Hp|]. split.
  - unfold ServiceImproved.VerifyToken. by rewrite Hp.
  - intros db. unfold ServiceImproved.RefreshToken. by rewrite Hp.
Qed.

Lemma Service_untrusted (s : Service.t) (t : Jwt.Token) :
  Jwt.SignedWith t <> Service.jwtSecret s \/ Jwt.SigningMethodHMAC (Jwt.Method t) = false ->
  Service.parseToken rel s now (Jwt.Compact t) = Err (untrusted_answer rel t now)
  /\ Service.VerifyToken rel s now (Jwt.Compact t) = Err (untrusted_answer rel t now)
  /\ Service.RefreshToken rel s now (Jwt.Compact t) = Err (untrusted_answer rel t now).
Proof.
  intros Hbad.
  destruct (Parse_untrusted rel t (Service.keyFunc s) (Service.jwtSecret s)
              _ now (fun _ => eq_refl) Hbad) as (fl & HP & HA & _).
  assert (Hp : Service.parseToken rel s now (Jwt.Compact t)
               = Err (untrusted_answer rel t now)).
  { unfold Service.parseToken. rewrite HP, <- HA. by destruct (Jwt.Is _ _). }
  split; [exact Hp|]. split.
  - unfold Service.VerifyToken. by rewrite Hp.
  - unfold Service.RefreshToken. by rewrite Hp.
Qed.

Lemma LegacyService_untrusted (s : LegacyService.t) (t : Jwt.Token) :
  Jwt.SignedWith t <> LegacyService.jwtSecret s
    \/ Jwt.SigningMethodHMAC (Jwt.Method t) = false ->
  exists err,
    LegacyService.VerifyToken rel s now (Jwt.Compact t) = Err err
    /\ err <> auth_ErrInvalidToken /\ err <> auth_ErrTokenExpired
    /\ Jwt.Is err Jwt.ErrTokenExpired
       = match untrusted_answer rel t now with auth_ErrTokenExpired => true | _ => false end.
Proof.
  intros Hbad.
  destruct (Parse_untrusted rel t (LegacyService.keyFunc s) (LegacyService.jwtSecret s)
              _ now (fun _ => eq_refl) Hbad) as (fl & HP & _ & HI).
  exists (jwt_ValidationError fl). unfold LegacyService.VerifyToken. rewrite HP.
  split; [reflexivity|]. split; [discriminate|]. split; [discriminate|exact HI].
Qed.
End UntrustedTokens.

(** C4, as the code has it.  A token whose signature verifies under the
    shared secret and whose exp claim is a number other than 0 in the
    past is rejected with ErrTokenExpired by parseToken, and hence by
    VerifyToken and RefreshToken, of both typed services; the legacy
    VerifyToken hands back the library's validation error, which
    matches jwt.ErrTokenExpired.  (An exp of 0 is an unset claim for
    the library: such a token is not rejected for its age.)
    ErrTokenExpired is not ErrInvalidToken.  A string that is no token
    is answered with ErrInvalidToken by parseToken, VerifyToken and
    RefreshToken of both typed services, and by the legacy VerifyToken
    with the library's error for a malformed token.  A token signed
    with another key, or naming a method outside the HMAC family, is
    answered with ErrInvalidToken by the typed services too, with one
    exception: under a release of the library that validates the claims
    before the signature, an HMAC token under another key whose exp
    check fails is answered with ErrTokenExpired.  The legacy
    VerifyToken answers such a token with the library's error, never
    with a user. *)
Theorem C4_expired_token (rel : Jwt.release) (t : Jwt.Token) (e now : Z)
    (Hmethod : Jwt.SigningMethodHMAC (Jwt.Method t) = true)
    (Hexp : Jwt.Claims t !! "exp" = Some (Jwt.CNumber e))
    (Hset : e <> 0)
    (Hpast : e < now) :
  (forall s : ServiceImproved.t,
     Jwt.SignedWith t = ServiceImproved.jwtSecret s ->
     ServiceImproved.parseToken rel s now (Jwt.Compact t) = Err auth_ErrTokenExpired
     /\ ServiceImproved.VerifyToken rel s now (Jwt.Compact t) = Err auth_ErrTokenExpired
     /\ forall db : Storage.DB,
        ServiceImproved.RefreshToken rel s db now (Jwt.Compact t) = (Err auth_ErrTokenExpired, db))
  /\ (forall s : Service.t,
     Jwt.SignedWith t = Service.jwtSecret s ->
     Service.parseToken rel s now (Jwt.Compact t) = Err auth_ErrTokenExpired
     /\ Service.VerifyToken rel s now (Jwt.Compact t) = Err auth_ErrTokenExpired
     /\ Service.RefreshToken rel s now (Jwt.Compact t) = Err auth_ErrTokenExpired)
  /\ (forall s : LegacyService.t,
     Jwt.SignedWith t = LegacyService.jwtSecret s ->
     exists err,
       LegacyService.VerifyToken rel s now (Jwt.Compact t) = Err err
       /\ Jwt.Is err Jwt.ErrTokenExpired = true
       /\ err <> auth_ErrInvalidToken)
  /\ auth_ErrTokenExpired <> auth_ErrInvalidToken
  /\ (forall raw : string,
     (forall s : ServiceImproved.t,
        ServiceImproved.parseToken rel s now (Jwt.Garbage raw) = Err auth_ErrInvalidToken
        /\ ServiceImproved.VerifyToken rel s now (Jwt.Garbage raw) = Err auth_ErrInvalidToken
        /\ forall db : Storage.DB,
           ServiceImproved.RefreshToken rel s db now (Jwt.Garbage raw)
           = (Err auth_ErrInvalidToken, db))
     /\ (forall s : Service.t,
        Service.parseToken rel s now (Jwt.Garbage raw) = Err auth_ErrInvalidToken
        /\ Service.VerifyToken rel s now (Jwt.Garbage raw) = Err auth_ErrInvalidToken
        /\ Service.RefreshToken rel s now (Jwt.Garbage raw) = Err auth_ErrInvalidToken)
     /\ (forall s : LegacyService.t,
        exists err,
          LegacyService.VerifyToken rel s now (Jwt.Garbage raw) = Err err
          /\ Jwt.Is err Jwt.ErrTokenMalformed = true
          /\ Jwt.Is err Jwt.ErrTokenExpired = false))
  /\ (forall t' : Jwt.Token,
     (forall s : ServiceImproved.t,
        Jwt.SignedWith t' <> ServiceImproved.jwtSecret s
          \/ Jwt.SigningMethodHMAC (Jwt.Method t') = false ->
        ServiceImproved.parseToken rel s now (Jwt.Compact t') = Err (untrusted_answer rel t' now)
        /\ ServiceImproved.VerifyToken rel s now (Jwt.Compact t')
           = Err (untrusted_answer rel t' now)
        /\ forall db : Storage.DB,
           ServiceImproved.RefreshToken rel s db now (Jwt.Compact t')
           = (Err (untrusted_answer rel t' now), db))
     /\ (forall s : Service.t,
        Jwt.SignedWith t' <> Service.jwtSecret s
          \/ Jwt.SigningMethodHMAC (Jwt.Method t') = false ->
        Service.parseToken rel s now (Jwt.Compact t') = Err (untrusted_answer rel t' now)
        /\ Service.VerifyToken rel s now (Jwt.Compact t') = Err (untrusted_answer rel t' now)
        /\ Service.RefreshToken rel s now (Jwt.Compact t') = Err (untrusted_answer rel t' now))
     /\ (forall s : LegacyService.t,
        Jwt.SignedWith t' <> LegacyService.jwtSecret s
          \/ Jwt.SigningMethodHMAC (Jwt.Method t') = false ->
        exists err,
          LegacyService.VerifyToken rel s now (Jwt.Compact t') = Err err
          /\ err <> auth_ErrInvalidToken /\ err <> auth_ErrTokenExpired
          /\ Jwt.Is err Jwt.ErrTokenExpired
             = match untrusted_answer rel t' now with
               | auth_ErrTokenExpired => true
               | _ => false
               end)
     /\ (untrusted_answer rel t' now = auth_ErrInvalidToken
         \/ (rel = Jwt.MergedErrors
             /\ Jwt.SigningMethodHMAC (Jwt.Method t') = true
             /\ Jwt.VerifyExpiresAt (Jwt.Claims t') "exp" now false = false
             /\ untrusted_answer rel t' now = auth_ErrTokenExpired))).
Proof.
  repeat apply conj.
  - intros s Hs.
    destruct (Parse_expired rel t (ServiceImproved.keyFunc s) e now
                (HMAC_keyFunc_improved s t Hmethod Hs) Hexp Hset Hpast) as (fl & HP & HI).
    assert (Hp : ServiceImproved.parseToken rel s now (Jwt.Compact t) = Err auth_ErrTokenExpired).
    { unfold ServiceImproved.parseToken. rewrite HP, HI. reflexivity. }
    split; [exact Hp|]. split.
    + unfold ServiceImproved.VerifyToken. rewrite Hp. reflexivity.
    + intros db. unfold ServiceImproved.RefreshToken. rewrite Hp. reflexivity.
  - intros s Hs.
    destruct (Parse_expired rel t (Service.keyFunc s) e now
                (HMAC_keyFunc_service s t Hmethod Hs) Hexp Hset Hpast) as (fl & HP & HI).
    assert (Hp : Service.parseToken rel s now (Jwt.Compact t) = Err auth_ErrTokenExpired).
    { unfold Service.parseToken. rewrite HP, HI. reflexivity. }
    split; [exact Hp|]. split.
    + unfold Service.VerifyToken. rewrite Hp. reflexivity.
    + unfold Service.RefreshToken. rewrite Hp. reflexivity.
  - intros s Hs.
    destruct (Parse_expired rel t (LegacyService.keyFunc s) e now
                (HMAC_keyFunc_legacy s t Hmethod Hs) Hexp Hset Hpast) as (fl & HP & HI).
    exists (jwt_ValidationError fl). split; [|split; [exact HI|discriminate]].
    unfold LegacyService.VerifyToken. rewrite HP. reflexivity.
  - discriminate.
  - intros raw. split; [|split].
    + intros s. split; [reflexivity|]. split; [reflexivity|]. intros db. reflexivity.
    + intros s. split; [reflexivity|]. split; reflexivity.
    + intros s. eexists. split; [reflexivity|]. split; reflexivity.
  - intros t'. split; [|split; [|split]].
    + intros s. apply ServiceImproved_untrusted.
    + intros s. apply Service_untrusted.
    + intros s. apply LegacyService_untrusted.
    + unfold untrusted_answer. destruct rel; [|by left].
      destruct (Jwt.SigningMethodHMAC (Jwt.Method t')); [|by left].
      destruct (Jwt.VerifyExpiresAt _ _ _ _); [by left|]. right. auto.
Qed.

(** An access token that expired at 4600, presented at 100000. *)
Lemma C4_expired_token_witness :
  Jwt.SigningMethodHMAC (Jwt.Method stale_access) = true
  /\ Jwt.Claims stale_access !! "exp" = Some (Jwt.CNumber 4600)
  /\ 4600 <> 0
  /\ 4600 < 100000
  /\ ServiceImproved.VerifyToken Jwt.SignatureFirst improved0 100000 (Jwt.Compact stale_access)
     = Err auth_ErrTokenExpired.
Proof.
  assert (H1 : Jwt.SigningMethodHMAC (Jwt.Method stale_access) = true) by reflexivity.
  assert (H2 : Jwt.Claims stale_access !! "exp" = Some (Jwt.CNumber 4600)) by reflexivity.
  assert (H3 : 4600 <> 0) by discriminate.
  assert (H4 : 4600 < 100000) by reflexivity.
  split; [exact H1|]. split; [exact H2|]. split; [exact H3|]. split; [exact H4|].
  exact (proj1 (proj2 (proj1 (C4_expired_token Jwt.SignatureFirst stale_access 4600 100000
                                H1 H2 H3 H4) improved0 eq_refl))).
Defined.

(** C4 as stated fails.  At time 2000 the access token under the shared
    secret whose exp is 0 has its exp in the past, yet all three
    services accept it, with either release of the library.  And with a
    release that validates the claims before the signature, the stale
    token under another key is answered with ErrTokenExpired, not
    ErrInvalidToken. *)
Lemma C4_counterexample_zero_exp :
  Jwt.SigningMethodHMAC (Jwt.Method epoch_access) = true
  /\ Jwt.SignedWith epoch_access = ServiceImproved.jwtSecret improved0
  /\ Jwt.Claims epoch_access !! "exp" = Some (Jwt.CNumber 0)
  /\ 0 < 2000
  /\ (forall rel : Jwt.release,
        ServiceImproved.VerifyToken rel improved0 2000 (Jwt.Compact epoch_access) = Ok "user-1"
        /\ Service.VerifyToken rel service0 2000 (Jwt.Compact epoch_access) = Ok "user-1"
        /\ LegacyService.VerifyToken rel legacy0 2000 (Jwt.Compact epoch_access) = Ok "user-1"
        /\ ServiceImproved.parseToken rel improved0 2000 (Jwt.Compact epoch_access)
           <> Err auth_ErrTokenExpired)
  /\ Jwt.SignedWith forged_stale <> ServiceImproved.jwtSecret improved0
  /\ ServiceImproved.VerifyToken Jwt.MergedErrors improved0 100000 (Jwt.Compact forged_stale)
     = Err auth_ErrTokenExpired
  /\ ServiceImproved.VerifyToken Jwt.MergedErrors improved0 100000 (Jwt.Compact forged_stale)
     <> Err auth_ErrInvalidToken.
Proof.
  repeat apply conj; try reflexivity; try discriminate.
  intros rel. destruct rel; repeat apply conj; try reflexivity; discriminate.
Qed.

(** ** Refresh and the subject's continued existence *)

Lemma QueryRow_no_fault {A : Type} (db : Storage.DB) (rows : Storage.DB -> list A) :
  Storage.faults db = [] ->
  Storage.QueryRow db rows =
  (match rows db with [] => Err sql_ErrNoRows | r :: _ => Ok r end, db).
Proof. intros Hf. unfold Storage.QueryRow, Storage.roundtrip. rewrite Hf. reflexivity. Qed.

Lemma select_user_by_id_ID (db : Storage.DB) (id : string) (u : Models.User.t) :
  In u (Storage.UsersRepository.select_user_by_id id db) -> Models.User.ID u = id.
Proof.
  unfold Storage.UsersRepository.select_user_by_id. rewrite List.filter_In.
  intros [_ H]. by apply streq_true.
Qed.

(** The improved service does what the claim says: with a valid refresh
    token it looks the subject up, fails with ErrUserNotFound when no
    row has that id, and otherwise mints a new pair for that user. *)
Lemma ServiceImproved_RefreshToken_resolves (rel : Jwt.release) (s : ServiceImproved.t)
    (db : Storage.DB) (t0 now expiry : Z) (userID : string) :
  expired_at (t0 + expiry) now = false ->
  used_before_issued t0 now = false ->
  Storage.faults db = [] ->
  ServiceImproved.RefreshToken rel s db now
    (fst (ServiceImproved.generateToken s t0 userID "refresh" expiry)) =
  (match Storage.UsersRepository.select_user_by_id userID db with
   | [] => Err auth_ErrUserNotFound
   | _ :: _ =>
       let '(token, newRefreshToken, expiresAt) :=
         ServiceImproved.generateTokenPair s now userID in
       Ok (mkTokenResponse token newRefreshToken expiresAt userID)
   end, db).
Proof.
  intros He Hi Hf. unfold ServiceImproved.RefreshToken.
  rewrite ServiceImproved_parse_minted, He, Hi, typed_claims_type, typed_claims_sub.
  cbn [streq negb]. rewrite streq_refl. cbn [negb].
  unfold Storage.UsersRepository.GetUserByID. rewrite QueryRow_no_fault by exact Hf.
  destruct (Storage.UsersRepository.select_user_by_id userID db) as [|u l] eqn:Hsel.
  - reflexivity.
  - assert (Hid : Models.User.ID u = userID).
    { apply (select_user_by_id_ID db). rewrite Hsel. by left. }
    rewrite Hid. reflexivity.
Qed.

(** C5 at its failing input: the Service of part_005 answers a valid
    refresh token whose subject has no row in users with a new token
    pair for that subject; it never consults the users table.  On the
    same token and an empty users table the improved service fails with
    ErrUserNotFound. *)
Theorem C5_refresh_skips_user_lookup :
  (exists resp : TokenResponse,
     Service.RefreshToken Jwt.SignatureFirst service0 2000 ghost_refresh = Ok resp
     /\ UserID resp = "ghost"
     /\ Service.VerifyToken Jwt.SignatureFirst service0 2000 (Token resp) = Ok "ghost")
  /\ Storage.users empty_db = []
  /\ fst (ServiceImproved.RefreshToken Jwt.SignatureFirst improved0 empty_db 2000 ghost_refresh)
     = Err auth_ErrUserNotFound.
Proof.
  split; [|split].
  - eexists. split; [reflexivity|]. split; reflexivity.
  - reflexivity.
  - reflexivity.
Qed.

(** ** Plan resolution *)

Section OrderBy.
Import Models.

Lemma insert_desc_In (s x : Subscription.t) (l : list Subscription.t) :
  In x (Storage.insert_desc s l) <-> x = s \/ In x l.
Proof.
  induction l as [|y r IH]; simpl.
  - intuition.
  - destruct (Subscription.EndDate y <=? Subscription.EndDate s); simpl.
    + intuition.
    + rewrite IH. intuition.
Qed.

Lemma ORDER_BY_In (x : Subscription.t) (l : list Subscription.t) :
  In x (Storage.ORDER_BY_end_date_DESC l) <-> In x l.
Proof.
  unfold Storage.ORDER_BY_end_date_DESC.
  induction l as [|y r IH]; simpl; [tauto|].
  rewrite insert_desc_In, IH. intuition.
Qed.

Lemma ORDER_BY_nil (l : list Subscription.t) :
  Storage.ORDER_BY_end_date_DESC l = [] <-> l = [].
Proof.
  split; [|intros ->; reflexivity].
  destruct l as [|y r]; [reflexivity|]. intros H.
  assert (Hin : In y (Storage.ORDER_BY_end_date_DESC (y :: r))) by (apply ORDER_BY_In; by left).
  rewrite H in Hin. destruct Hin.
Qed.



End OrderBy.


(** C6 at its failing input: at time 2000 the organization has no
    active subscription (its only one ended at 1000, and
    GetActiveSubscription finds none), yet the limit lookup returns that
    subscription's limit of 100 rather than the free-tier 5: its query
    has no end_date condition. *)
Theorem C6_limit_of_lapsed_subscription :
  fst (Storage.SubscriptionService.GetActiveSubscription lapsed_db 2000 "org-1") = Ok None
  /\ fst (Storage.SecretCountRepository.GetSecretsLimit lapsed_db "org-1") = Ok 100
  /\ fst (Storage.SecretCountRepository.GetSecretsLimit lapsed_db "org-1") <> Ok 5.
Proof. split; [|split]; [reflexivity | reflexivity | discriminate]. Qed.

(** ** The two limit lookups *)

(** The lookups of repository_impl.go and mysql/secrets_repository.go
    run the same query and differ only in the answer to an empty
    selection. *)
Lemma GetSecretsLimit_agree_on_rows (db : Storage.DB) (orgID : string) :
  fst (Storage.QueryRow db (Storage.select_secrets_limit orgID)) <> Err sql_ErrNoRows ->
  Storage.SecretCountRepository.GetSecretsLimit db orgID
  = Storage.SecretsRepository.GetSecretsLimit db orgID.
Proof.
  unfold Storage.SecretCountRepository.GetSecretsLimit, Storage.SecretsRepository.GetSecretsLimit.
  destruct (Storage.QueryRow db (Storage.select_secrets_limit orgID)) as [[limit|e] db'];
    cbn [fst]; [reflexivity|].
  destruct e; try reflexivity. intros H. exfalso. apply H. reflexivity.
Qed.

(** C10 at its failing input: for an organization without any
    subscription the lookup of repository_impl.go answers 5 and the one
    of mysql/secrets_repository.go answers 0, both without error. *)
Theorem C10_limit_lookups_differ :
  Storage.SecretCountRepository.GetSecretsLimit empty_db "org-1" = (Ok 5, empty_db)
  /\ Storage.SecretsRepository.GetSecretsLimit empty_db "org-1" = (Ok 0, empty_db)
  /\ Storage.SecretCountRepository.GetSecretsLimit empty_db "org-1"
     <> Storage.SecretsRepository.GetSecretsLimit empty_db "org-1".
Proof. split; [|split]; [reflexivity | reflexivity | discriminate]. Qed.

(** ** At most one active subscription *)

Section ActiveSubscriptions.
Import Models.

Lemma active_for_code (now : Z) (orgID : string) (s : Subscription.t) :
  bool_decide (active_for now orgID s) =
  streq (Subscription.OrganizationID s) orgID
  && streq (Subscription.Status s) "active"
  && (now <? Subscription.EndDate s).
Proof.
  unfold active_for, streq.
  destruct (now <? Subscription.EndDate s) eqn:Hlt;
    repeat case_bool_decide; simpl; try reflexivity; try lia; exfalso; intuition lia.
Qed.

Lemma select_active_subscription_eq (orgID : string) (now : Z) (db : Storage.DB) :
  Storage.SubscriptionService.select_active_subscription orgID now db =
  take 1 (Storage.ORDER_BY_end_date_DESC
            (active_subscriptions now orgID (Storage.subscriptions db))).
Proof.
  unfold Storage.SubscriptionService.select_active_subscription, active_subscriptions.
  do 2 f_equal. apply List.filter_ext. intros s. symmetry. apply active_for_code.
Qed.

(** Rewriting rows can only lower the number of selected rows when
    every selected image comes from a selected row. *)
Lemma filter_map_length_le {A : Type} (p q : A -> bool) (g : A -> A) (l : list A) :
  (forall x, p (g x) = true -> q x = true) ->
  (length (List.filter p (map g l)) <= length (List.filter q l))%nat.
Proof.
  intros Hpq. induction l as [|x r IH]; simpl; [lia|].
  destruct (p (g x)) eqn:Hp.
  - rewrite (Hpq x Hp). simpl. lia.
  - destruct (q x); simpl; lia.
Qed.

Lemma filter_filter_length_le {A : Type} (p q : A -> bool) (l : list A) :
  (length (List.filter p (List.filter q l)) <= length (List.filter p l))%nat.
Proof.
  induction l as [|x r IH]; simpl; [lia|].
  destruct (q x), (p x) eqn:Hp; simpl; rewrite ?Hp; simpl; lia.
Qed.

(** If at most one row is selected and a selected row is among those
    rewritten to unselected ones, nothing stays selected. *)
Lemma filter_map_none {A : Type} (p : A -> bool) (g : A -> A) (e : A) (l : list A) :
  (length (List.filter p l) <= 1)%nat ->
  In e l -> p e = true -> p (g e) = false ->
  (forall x, p (g x) = true -> p x = true) ->
  List.filter p (map g l) = [].
Proof.
  intros Hone Hin Hpe Hge Hmono.
  induction l as [|x r IH]; simpl in *; [destruct Hin|].
  destruct (p x) eqn:Hpx.
  - simpl in Hone.
    assert (Hr : List.filter p r = []).
    { destruct (List.filter p r); [reflexivity|simpl in Hone; lia]. }
    assert (Hmr : List.filter p (map g r) = []).
    { pose proof (filter_map_length_le p p g r Hmono) as Hle. rewrite Hr in Hle.
      destruct (List.filter p (map g r)); [reflexivity|simpl in Hle; lia]. }
    destruct Hin as [-> | Hin].
    + rewrite Hge. exact Hmr.
    + exfalso. assert (Hine : In e (List.filter p r)) by (apply List.filter_In; auto).
      rewrite Hr in Hine. destruct Hine.
  - destruct Hin as [-> | Hin]; [congruence|].
    destruct (p (g x)) eqn:Hpg; [apply Hmono in Hpg; congruence|].
    by apply IH.
Qed.

Lemma roundtrip_subscriptions (db : Storage.DB) :
  Storage.subscriptions (snd (Storage.roundtrip db)) = Storage.subscriptions db.
Proof. unfold Storage.roundtrip. destruct (Storage.faults db); reflexivity. Qed.

(** The lookup leaves the table alone; when it finds nothing no row of
    the organization is active, and what it finds is an active row. *)
Lemma GetActiveSubscription_effect (db : Storage.DB) (now : Z) (orgID : string) :
  let r := Storage.SubscriptionService.GetActiveSubscription db now orgID in
  Storage.subscriptions (snd r) = Storage.subscriptions db
  /\ (fst r = Ok None -> active_subscriptions now orgID (Storage.subscriptions db) = [])
  /\ (forall e, fst r = Ok (Some e) ->
        In e (Storage.subscriptions db) /\ bool_decide (active_for now orgID e) = true).
Proof.
  unfold Storage.SubscriptionService.GetActiveSubscription, Storage.QueryRow.
  pose proof (roundtrip_subscriptions db) as Hrt.
  destruct (Storage.roundtrip db) as [[msg|] db1]; cbn [snd] in Hrt; cbn.
  - split; [exact Hrt|]. split; [discriminate|]. intros e. discriminate.
  - rewrite select_active_subscription_eq, Hrt.
    destruct (Storage.ORDER_BY_end_date_DESC
                (active_subscriptions now orgID (Storage.subscriptions db)))
      as [|top rest] eqn:Hs; cbn.
    + split; [exact Hrt|]. split; [|intros e; discriminate].
      intros _. by apply ORDER_BY_nil.
    + split; [exact Hrt|]. split; [discriminate|].
      intros e [= <-].
      assert (Hin : In top (active_subscriptions now orgID (Storage.subscriptions db))).
      { apply ORDER_BY_In. rewrite Hs. by left. }
      unfold active_subscriptions in Hin. apply List.filter_In in Hin. exact Hin.
Qed.
End ActiveSubscriptions.

Section CreateSubscription.
Import Models.

Lemma cancel_where_inactive (id : string) (now t : Z) (orgID : string) (s : Subscription.t) :
  Subscription.ID s = id ->
  bool_decide (active_for t orgID (cancel_where id now s)) = false.
Proof.
  intros Hid. unfold cancel_where. rewrite (proj2 (streq_true _ _) Hid).
  apply bool_decide_eq_false. unfold active_for. cbn. intros (_ & H & _). discriminate.
Qed.

Lemma cancel_where_mono (id : string) (now t : Z) (orgID : string) (s : Subscription.t) :
  bool_decide (active_for t orgID (cancel_where id now s)) = true ->
  bool_decide (active_for t orgID s) = true.
Proof.
  unfold cancel_where. destruct (streq (Subscription.ID s) id) eqn:Hid; [|auto].
  intros H. apply bool_decide_eq_true in H. destruct H as (_ & H & _). discriminate.
Qed.

(** cancelSubscription either fails and leaves the table as it was,
    or rewrites the rows with the given id to 'cancelled'. *)
Lemma cancelSubscription_effect (db : Storage.DB) (now : Z) (id : string) :
  let r := Storage.SubscriptionService.cancelSubscription db now id in
  ((exists e, fst r = Err e) /\ Storage.subscriptions (snd r) = Storage.subscriptions db)
  \/ (fst r = Ok tt
      /\ Storage.subscriptions (snd r) = map (cancel_where id now) (Storage.subscriptions db)).
Proof.
  unfold Storage.SubscriptionService.cancelSubscription, Storage.Exec.
  pose proof (roundtrip_subscriptions db) as Hrt.
  destruct (Storage.roundtrip db) as [[msg|] db1]; cbn [snd] in Hrt; cbn.
  - left. eauto.
  - right. split; [reflexivity|]. rewrite Hrt. reflexivity.
Qed.

(** The INSERT either fails and leaves the table as it was, or appends
    the new row. *)
Lemma insert_subscription_effect (db : Storage.DB) (now : Z) (s : Subscription.t) :
  let r := Storage.Exec db (Storage.SubscriptionService.stmt_insert_subscription s now) in
  ((exists e, fst r = Err e) /\ Storage.subscriptions (snd r) = Storage.subscriptions db)
  \/ (fst r = Ok 1
      /\ Storage.subscriptions (snd r) = (Storage.subscriptions db ++ [inserted_row s now])%list).
Proof.
  unfold Storage.Exec.
  pose proof (roundtrip_subscriptions db) as Hrt.
  destruct (Storage.roundtrip db) as [[msg|] db1]; cbn [snd] in Hrt; cbn.
  - left. eauto.
  - unfold Storage.SubscriptionService.stmt_insert_subscription, Storage.insert_row.
    fold (inserted_row s now).
    destruct (existsb _ (Storage.subscriptions db1)); cbn.
    + left. eauto.
    + right. rewrite Hrt. auto.
Qed.

Lemma active_subscriptions_app (now : Z) (orgID : string) (l : list Subscription.t)
    (s : Subscription.t) :
  length (active_subscriptions now orgID (l ++ [s])) =
  (length (active_subscriptions now orgID l)
   + if bool_decide (active_for now orgID s) then 1 else 0)%nat.
Proof.
  unfold active_subscriptions. rewrite List.filter_app, length_app. cbn.
  destruct (bool_decide (active_for now orgID s)); reflexivity.
Qed.

Lemma inserted_row_active (now t : Z) (orgID : string) (s : Subscription.t) :
  bool_decide (active_for t orgID (inserted_row s now)) = true ->
  Subscription.OrganizationID s = orgID.
Proof. intros H. apply bool_decide_eq_true in H. by destruct H as (H & _). Qed.

(** Appending a row for an organization that has no active row keeps
    every organization at one active row at most. *)
Lemma at_most_one_after_insert (now : Z) (l : list Subscription.t) (s : Subscription.t) :
  (forall orgID, (length (active_subscriptions now orgID l) <= 1)%nat) ->
  active_subscriptions now (Subscription.OrganizationID s) l = [] ->
  forall orgID,
    (length (active_subscriptions now orgID (l ++ [inserted_row s now])) <= 1)%nat.
Proof.
  intros Hinv Hnone orgID. rewrite active_subscriptions_app.
  destruct (bool_decide (active_for now orgID (inserted_row s now))) eqn:Ha.
  - apply inserted_row_active in Ha. subst orgID. rewrite Hnone. cbn. lia.
  - specialize (Hinv orgID). lia.
Qed.

Lemma at_most_one_after_cancel (now : Z) (id : string) (l : list Subscription.t) :
  (forall orgID, (length (active_subscriptions now orgID l) <= 1)%nat) ->
  forall orgID,
    (length (active_subscriptions now orgID (map (cancel_where id now) l)) <= 1)%nat.
Proof.
  intros Hinv orgID. specialize (Hinv orgID). unfold active_subscriptions in *.
  etransitivity; [|exact Hinv].
  apply filter_map_length_le. intros x. apply cancel_where_mono.
Qed.

Lemma none_active_after_cancel (now : Z) (orgID : string) (e : Subscription.t)
    (l : list Subscription.t) :
  (length (active_subscriptions now orgID l) <= 1)%nat ->
  In e l -> bool_decide (active_for now orgID e) = true ->
  active_subscriptions now orgID (map (cancel_where (Subscription.ID e) now) l) = [].
Proof.
  intros Hone Hin Hact. unfold active_subscriptions in *.
  apply (filter_map_none _ _ e); auto.
  - by apply cancel_where_inactive.
  - intros x. apply cancel_where_mono.
Qed.

Lemma with_ID_OrganizationID (s : Subscription.t) (uuid : string) :
  Subscription.OrganizationID
    (if streq (Subscription.ID s) "" then Storage.SubscriptionService.with_ID s uuid else s)
  = Subscription.OrganizationID s.
Proof. destruct (streq (Subscription.ID s) ""); reflexivity. Qed.

(** CreateSubscription keeps the invariant, on every path through it:
    after a failed lookup, a failed cancellation, a failed insert
    (transport fault or duplicate id) and on success. *)
Lemma CreateSubscription_preserves (db : Storage.DB) (uuid : string) (now : Z)
    (subscription : Subscription.t) :
  at_most_one_active now db ->
  at_most_one_active now
    (snd (Storage.SubscriptionService.CreateSubscription db uuid now subscription)).
Proof.
  unfold at_most_one_active. intros Hinv.
  unfold Storage.SubscriptionService.CreateSubscription.
  set (sub := if streq (Subscription.ID subscription) ""
              then Storage.SubscriptionService.with_ID subscription uuid else subscription).
  assert (Horg : Subscription.OrganizationID sub = Subscription.OrganizationID subscription)
    by apply with_ID_OrganizationID.
  rewrite Horg.
  destruct (GetActiveSubscription_effect db now (Subscription.OrganizationID subscription))
    as (Hsame & Hnone & Hsome).
  destruct (Storage.SubscriptionService.GetActiveSubscription db now
              (Subscription.OrganizationID subscription)) as [[existingSub|e] db1];
    cbn [fst snd] in *; [|by rewrite Hsame].
  destruct existingSub as [existing|].
  - destruct (Hsome existing eq_refl) as (Hin & Hact).
    destruct (cancelSubscription_effect db1 now (Subscription.ID existing))
      as [((e & He) & Hc) | (Hok & Hc)];
      destruct (Storage.SubscriptionService.cancelSubscription db1 now
                  (Subscription.ID existing)) as [cancelled db2]; cbn [fst snd] in *; subst.
    + cbn. by rewrite Hc, Hsame.
    + rewrite Hsame in Hc.
      destruct (insert_subscription_effect db2 now sub) as [((e & He) & Hi) | (Hok & Hi)];
        destruct (Storage.Exec db2 (Storage.SubscriptionService.stmt_insert_subscription sub now))
          as [ins db3]; cbn [fst snd] in *; subst; cbn; rewrite Hi, Hc.
      * by apply at_most_one_after_cancel.
      * apply at_most_one_after_insert; [by apply at_most_one_after_cancel|].
        rewrite Horg. by apply none_active_after_cancel.
  - specialize (Hnone eq_refl).
    destruct (insert_subscription_effect db1 now sub) as [((e & He) & Hi) | (Hok & Hi)];
      destruct (Storage.Exec db1 (Storage.SubscriptionService.stmt_insert_subscription sub now))
        as [ins db3]; cbn [fst snd] in *; subst; cbn; rewrite Hi, Hsame.
    + exact Hinv.
    + apply at_most_one_after_insert; [exact Hinv|]. by rewrite Horg.
Qed.
End CreateSubscription.

Section Reachable.
Import Models.

(** As the clock advances, subscriptions only stop being active. *)
Lemma at_most_one_active_later (now now' : Z) (db : Storage.DB) :
  now <= now' -> at_most_one_active now db -> at_most_one_active now' db.
Proof.
  intros Hle Hinv orgID. specialize (Hinv orgID). unfold active_subscriptions in *.
  etransitivity; [|exact Hinv].
  rewrite <- (map_id (Storage.subscriptions db)) at 1.
  apply filter_map_length_le. intros s Ha.
  apply bool_decide_eq_true in Ha. apply bool_decide_eq_true.
  unfold active_for in *. intuition lia.
Qed.

Lemma UpdateSubscriptionLimit_preserves (db : Storage.DB) (now : Z) (id : string)
    (newLimit : Z) :
  at_most_one_active now db ->
  at_most_one_active now
    (snd (Storage.SubscriptionService.UpdateSubscriptionLimit db now id newLimit)).
Proof.
  intros Hinv orgID. specialize (Hinv orgID).
  unfold Storage.SubscriptionService.UpdateSubscriptionLimit, Storage.Exec.
  pose proof (roundtrip_subscriptions db) as Hrt.
  destruct (Storage.roundtrip db) as [[msg|] db1]; cbn [snd] in Hrt; cbn.
  - by rewrite Hrt.
  - rewrite Hrt. unfold active_subscriptions in *.
    etransitivity; [|exact Hinv].
    apply filter_map_length_le. intros s.
    destruct (streq (Subscription.ID s) id); [|auto].
    intros Ha. apply bool_decide_eq_true in Ha. apply bool_decide_eq_true. exact Ha.
Qed.

Lemma DeleteOrganization_preserves (db : Storage.DB) (now : Z) (id : string) :
  at_most_one_active now db ->
  at_most_one_active now (Storage.stmt_delete_org_subscriptions id db).
Proof.
  intros Hinv orgID. specialize (Hinv orgID).
  unfold Storage.stmt_delete_org_subscriptions, Storage.delete_where. cbn.
  unfold active_subscriptions in *.
  etransitivity; [apply filter_filter_length_le|exact Hinv].
Qed.

Lemma reachable_in_turn_at_most_one_active (now : Z) (db : Storage.DB) :
  reachable_in_turn now db -> at_most_one_active now db.
Proof.
  induction 1 as [now db Hnil | now now' db _ IH Hle | now db uuid s _ IH
                  | now db id lim _ IH | now db id _ IH | now db db' _ IH Hsame].
  - intros orgID. rewrite Hnil. cbn. lia.
  - by apply (at_most_one_active_later now).
  - by apply CreateSubscription_preserves.
  - by apply UpdateSubscriptionLimit_preserves.
  - by apply DeleteOrganization_preserves.
  - intros orgID. rewrite Hsame. apply IH.
Qed.
End Reachable.

(** ** Secret lifecycle: the coordinator and the value store *)

Section Coordinator.
Import Models.

Lemma kv_roundtrip_no_fault (st : Vault.store) :
  Vault.faults st = [] -> Vault.roundtrip st = (None, st).
Proof. intros Hf. unfold Vault.roundtrip. rewrite Hf. reflexivity. Qed.

(** With the value store answering, CreateSecret stores the fields at
    the derived path and answers 201; it reads and writes nothing else. *)
Lemma CreateSecret_effect (w : World) (now : Z) (secret : Secret.t) (userID : string) :
  Vault.faults (kv w) = [] ->
  SecretsHandler.CreateSecret w now (Some secret) userID =
  (SecretsHandler.mkResponse SecretsHandler.StatusCreated SecretsHandler.NoBody,
   mkWorld (db w)
     (Vault.mkStore []
        (<[path_of secret :=
             stored_fields (Secret.Value secret) userID (Secret.Description secret) now]>
           (Vault.data (kv w))))).
Proof.
  intros Hf.
  unfold SecretsHandler.CreateSecret, Vault.Service.StoreSecret, Vault.Client.WriteSecret,
    Vault.KVv2_Put.
  rewrite kv_roundtrip_no_fault by exact Hf. cbn. rewrite Hf. reflexivity.
Qed.

(** GetSecret answers from the value store alone. *)
Lemma GetSecret_effect (w : World) (orgID projectID env name : string) :
  Vault.faults (kv w) = [] ->
  SecretsHandler.GetSecret w orgID projectID env name =
  (match Vault.data (kv w) !! Vault.Service.buildSecretPath orgID projectID env name with
   | None => SecretsHandler.mkResponse SecretsHandler.StatusNotFound
               (SecretsHandler.Text "Secret non trouvé")
   | Some d =>
       SecretsHandler.mkResponse SecretsHandler.StatusOK
         (SecretsHandler.Json
            (Secret.mk "" name (Vault.Service.string_field d "value" "")
               (Vault.Service.string_field d "description" "")
               orgID projectID env (Vault.Service.string_field d "created_by" "") 0 0 0))
   end, w).
Proof.
  intros Hf.
  unfold SecretsHandler.GetSecret, Vault.Service.GetSecret, Vault.Client.GetSecret,
    Vault.KVv2_Get.
  rewrite kv_roundtrip_no_fault by exact Hf.
  destruct w as [d st]. cbn.
  destruct (Vault.data st !! Vault.Service.buildSecretPath orgID projectID env name);
    reflexivity.
Qed.

Lemma GetSecret_ignores_db (w : World) (d' : Storage.DB) (orgID projectID env name : string) :
  fst (SecretsHandler.GetSecret (mkWorld d' (kv w)) orgID projectID env name)
  = fst (SecretsHandler.GetSecret w orgID projectID env name)
  /\ db (snd (SecretsHandler.GetSecret w orgID projectID env name)) = db w.
Proof.
  unfold SecretsHandler.GetSecret. cbn [kv db].
  destruct (Vault.Service.GetSecret (kv w) orgID projectID env name) as [[s|e] st'];
    split; reflexivity.
Qed.

Lemma DeleteSecret_effect (w : World) (orgID projectID env name : string) :
  Vault.faults (kv w) = [] ->
  SecretsHandler.DeleteSecret w orgID projectID env name =
  (SecretsHandler.mkResponse SecretsHandler.StatusNoContent SecretsHandler.NoBody,
   mkWorld (db w)
     (Vault.mkStore []
        (alter (fun _ => Vault.nil_data)
           (Vault.Service.buildSecretPath orgID projectID env name) (Vault.data (kv w))))).
Proof.
  intros Hf.
  unfold SecretsHandler.DeleteSecret, Vault.Service.DeleteSecret, Vault.Client.DeleteSecret,
    Vault.KVv2_Delete.
  rewrite kv_roundtrip_no_fault by exact Hf. cbn. rewrite Hf. reflexivity.
Qed.

Lemma stored_fields_read (v c d : string) (now : Z) :
  Vault.Service.string_field (stored_fields v c d now) "value" "" = v
  /\ Vault.Service.string_field (stored_fields v c d now) "description" "" = d
  /\ Vault.Service.string_field (stored_fields v c d now) "created_by" "" = c.
Proof.
  unfold Vault.Service.string_field, stored_fields.
  repeat split; by simplify_map_eq.
Qed.
End Coordinator.

(** ** Secret lifecycle: the catalog and the quota ledger *)

Section Ledger.
Import Models.

Lemma Exec_no_fault (d : Storage.DB) (stmt : Storage.DB -> result (Z * Storage.DB)) :
  Storage.faults d = [] ->
  Storage.Exec d stmt =
  match stmt d with
  | Ok (n, d') => (Ok n, d')
  | Err e => (Err e, d)
  end.
Proof. intros Hf. unfold Storage.Exec, Storage.roundtrip. rewrite Hf. reflexivity. Qed.

Lemma GetSecretsCount_no_fault (d : Storage.DB) (orgID : string) :
  Storage.faults d = [] ->
  Storage.SecretCountRepository.GetSecretsCount d orgID = (Ok (count_of orgID d), d)
  /\ Storage.SecretsRepository.GetSecretsCount d orgID = (Ok (count_of orgID d), d).
Proof.
  intros Hf.
  unfold Storage.SecretCountRepository.GetSecretsCount, Storage.SecretsRepository.GetSecretsCount.
  rewrite QueryRow_no_fault by exact Hf. unfold count_of.
  destruct (Storage.select_secret_count orgID d); split; reflexivity.
Qed.

(** The quota check is [count < limit]. *)
Lemma CanCreateSecret_no_fault (d : Storage.DB) (orgID : string) (limit : Z) :
  Storage.faults d = [] ->
  fst (Storage.SecretCountRepository.GetSecretsLimit d orgID) = Ok limit ->
  Storage.SubscriptionService.CanCreateSecret d orgID = (Ok (count_of orgID d <? limit), d).
Proof.
  intros Hf Hl. unfold Storage.SubscriptionService.CanCreateSecret.
  rewrite (proj1 (GetSecretsCount_no_fault d orgID Hf)).
  revert Hl. unfold Storage.SecretCountRepository.GetSecretsLimit.
  rewrite QueryRow_no_fault by exact Hf.
  destruct (Storage.select_secrets_limit orgID d); cbn; intros [= <-]; reflexivity.
Qed.

(** The check written against the counting interface is the same
    check, once the interface is implemented by SecretCountRepository. *)
Lemma SecretsSubscriptionService_CanCreateSecret_impl (d : Storage.DB) (orgID : string) :
  Storage.SecretsSubscriptionService.CanCreateSecret tt d orgID
  = Storage.SubscriptionService.CanCreateSecret d orgID.
Proof. reflexivity. Qed.

Lemma existsb_fresh {A : Type} (key : A -> string) (k : string) (l : list A) :
  (forall x, In x l -> key x <> k) ->
  existsb (fun x => streq (key x) k) l = false.
Proof.
  intros Hfresh. induction l as [|x r IH]; [reflexivity|]. cbn.
  rewrite (proj2 (streq_false _ _) (Hfresh x (or_introl eq_refl))). cbn.
  apply IH. intros y Hy. apply Hfresh. by right.
Qed.

(** The counts an UPDATE of the organization's usage rows leaves. *)
Lemma counts_after_update (orgID : string) (f : Z -> Z) (now : Z)
    (l : list Storage.UsageStatistics.t) :
  let p := fun r => streq (Storage.UsageStatistics.organization_id r) orgID in
  let g := fun r =>
    if p r
    then Storage.UsageStatistics.mk (Storage.UsageStatistics.id r)
           (Storage.UsageStatistics.organization_id r)
           (f (Storage.UsageStatistics.secret_count r))
           (Storage.UsageStatistics.api_calls r) now
    else r in
  map Storage.UsageStatistics.secret_count (List.filter p (map g l))
  = map f (map Storage.UsageStatistics.secret_count (List.filter p l))
  /\ map Storage.UsageStatistics.id (map g l) = map Storage.UsageStatistics.id l.
Proof.
  intros p g. induction l as [|x r [IH1 IH2]]; [split; reflexivity|].
  cbn [map List.filter]. subst g. cbn beta.
  destruct (p x) eqn:Hp.
  - assert (Hp' : p (Storage.UsageStatistics.mk (Storage.UsageStatistics.id x)
                       (Storage.UsageStatistics.organization_id x)
                       (f (Storage.UsageStatistics.secret_count x))
                       (Storage.UsageStatistics.api_calls x) now) = true) by exact Hp.
    rewrite Hp'. cbn [map]. rewrite IH1, IH2. split; reflexivity.
  - rewrite Hp. rewrite IH1, IH2. split; reflexivity.
Qed.
End Ledger.

Section LedgerUpdates.
Import Models.

Lemma In_map_id_fresh (uuid : string) (l l' : list Storage.UsageStatistics.t) :
  map Storage.UsageStatistics.id l' = map Storage.UsageStatistics.id l ->
  (forall x, In x l -> Storage.UsageStatistics.id x <> uuid) ->
  forall x, In x l' -> Storage.UsageStatistics.id x <> uuid.
Proof.
  intros Hids Hfresh x Hx Heq.
  assert (Hin : In uuid (map Storage.UsageStatistics.id l)).
  { rewrite <- Hids, <- Heq. by apply in_map. }
  apply in_map_iff in Hin as (y & Hy & Hyl). by apply (Hfresh y Hyl).
Qed.

(** incrementSecretsCount raises the organization's count by exactly
    one, creating the usage row with count 1 when there is none, and
    touches no other table. *)
Lemma incrementSecretsCount_effect (d : Storage.DB) (uuid : string) (now : Z) (orgID : string) :
  Storage.faults d = [] ->
  (forall x, In x (Storage.usage_statistics d) -> Storage.UsageStatistics.id x <> uuid) ->
  exists d',
    Storage.SecretsRepository.incrementSecretsCount d uuid now orgID = (Ok tt, d')
    /\ Storage.faults d' = []
    /\ count_of orgID d' = count_of orgID d + 1
    /\ Storage.secret_metadata d' = Storage.secret_metadata d
    /\ Storage.subscriptions d' = Storage.subscriptions d.
Proof.
  intros Hf Hfresh. unfold Storage.SecretsRepository.incrementSecretsCount.
  rewrite Exec_no_fault by exact Hf.
  unfold Storage.stmt_increment, Storage.update_where.
  destruct (counts_after_update orgID (fun c => c + 1) now (Storage.usage_statistics d))
    as [Hcounts Hids]. cbn zeta in Hcounts, Hids.
  set (p := fun r => streq (Storage.UsageStatistics.organization_id r) orgID) in *.
  set (l' := map _ (Storage.usage_statistics d)) in *.
  destruct (List.filter p (Storage.usage_statistics d)) as [|r0 rs] eqn:Hsel.
  - cbn [length Z.of_nat Z.eqb].
    rewrite Exec_no_fault by exact Hf.
    unfold Storage.stmt_insert_stats, Storage.insert_row.
    cbn [Storage.usage_statistics Storage.set_usage_statistics Storage.UsageStatistics.id].
    rewrite (existsb_fresh Storage.UsageStatistics.id uuid l')
      by (apply (In_map_id_fresh uuid (Storage.usage_statistics d)); assumption).
    eexists. split; [reflexivity|]. cbn. split; [exact Hf|]. split; [|split; reflexivity].
    unfold count_of, Storage.select_secret_count.
    cbn [Storage.usage_statistics Storage.set_usage_statistics].
    fold p. rewrite List.filter_app, map_app, Hcounts, Hsel. cbn.
    unfold p. cbn. rewrite streq_refl. reflexivity.
  - assert (Hz : (Z.of_nat (length (r0 :: rs)) =? 0) = false)
      by (apply Z.eqb_neq; cbn [length]; lia).
    rewrite Hz.
    eexists. split; [reflexivity|]. cbn. split; [exact Hf|]. split; [|split; reflexivity].
    unfold count_of, Storage.select_secret_count.
    cbn [Storage.usage_statistics Storage.set_usage_statistics].
    fold p. fold l'. rewrite Hcounts, Hsel. reflexivity.
Qed.

(** decrementSecretsCount lowers the count by one without going below
    zero, and touches no other table. *)
Lemma decrementSecretsCount_effect (d : Storage.DB) (now : Z) (orgID : string) :
  Storage.faults d = [] ->
  exists d',
    Storage.SecretsRepository.decrementSecretsCount d now orgID = (Ok tt, d')
    /\ Storage.faults d' = []
    /\ count_of orgID d' = Z.max 0 (count_of orgID d - 1)
    /\ Storage.secret_metadata d' = Storage.secret_metadata d
    /\ Storage.subscriptions d' = Storage.subscriptions d.
Proof.
  intros Hf. unfold Storage.SecretsRepository.decrementSecretsCount.
  rewrite Exec_no_fault by exact Hf.
  unfold Storage.stmt_decrement, Storage.update_where.
  destruct (counts_after_update orgID (fun c => Z.max 0 (c - 1)) now (Storage.usage_statistics d))
    as [Hcounts _]. cbn zeta in Hcounts.
  eexists. split; [reflexivity|]. cbn. split; [exact Hf|]. split; [|split; reflexivity].
  unfold count_of, Storage.select_secret_count.
  cbn [Storage.usage_statistics Storage.set_usage_statistics].
  rewrite Hcounts.
  destruct (List.filter _ (Storage.usage_statistics d)); reflexivity.
Qed.
End LedgerUpdates.

Section Catalog.
Import Models.

(** CreateSecretMetadata inserts the row and raises the organization's
    count by exactly one. *)
Lemma CreateSecretMetadata_effect (d : Storage.DB) (uuid1 uuid2 : string) (now : Z)
    (m : SecretMetadata.t) :
  Storage.faults d = [] ->
  (forall x, In x (Storage.secret_metadata d) ->
     SecretMetadata.ID x <> SecretMetadata.ID (metadata_row m uuid1 now)) ->
  (forall x, In x (Storage.usage_statistics d) -> Storage.UsageStatistics.id x <> uuid2) ->
  exists d',
    Storage.SecretsRepository.CreateSecretMetadata d uuid1 uuid2 now m = (Ok tt, d')
    /\ Storage.faults d' = []
    /\ Storage.secret_metadata d'
       = (Storage.secret_metadata d ++ [metadata_row m uuid1 now])%list
    /\ count_of (SecretMetadata.OrganizationID m) d'
       = count_of (SecretMetadata.OrganizationID m) d + 1.
Proof.
  intros Hf Hmeta Hstats. unfold Storage.SecretsRepository.CreateSecretMetadata.
  set (m' := if streq (SecretMetadata.ID m) "" then _ else m).
  assert (Hrow : SecretMetadata.mk (SecretMetadata.ID m') (SecretMetadata.Name m')
                   (SecretMetadata.Description m') (SecretMetadata.OrganizationID m')
                   (SecretMetadata.ProjectID m') (SecretMetadata.Environment m')
                   (SecretMetadata.CreatedBy m') now now (SecretMetadata.Version m')
                 = metadata_row m uuid1 now).
  { unfold metadata_row. subst m'. destruct (streq (SecretMetadata.ID m) ""); reflexivity. }
  assert (Horg : SecretMetadata.OrganizationID m' = SecretMetadata.OrganizationID m).
  { subst m'. destruct (streq (SecretMetadata.ID m) ""); reflexivity. }
  rewrite Exec_no_fault by exact Hf.
  unfold Storage.SecretsRepository.stmt_insert_metadata, Storage.insert_row.
  rewrite Hrow, Horg.
  rewrite (existsb_fresh SecretMetadata.ID _ (Storage.secret_metadata d) Hmeta).
  set (d1 := Storage.set_secret_metadata d _).
  destruct (incrementSecretsCount_effect d1 uuid2 now (SecretMetadata.OrganizationID m))
    as (d' & Hinc & Hf' & Hcount & Hsame & _); [exact Hf | exact Hstats |].
  exists d'. split; [exact Hinc|]. split; [exact Hf'|]. split; [exact Hsame|exact Hcount].
Qed.

Lemma GetSecretMetadataByPath_no_fault (d : Storage.DB) (orgID projectID env name : string) :
  Storage.faults d = [] ->
  Storage.SecretsRepository.GetSecretMetadataByPath d orgID projectID env name =
  (Ok (head (Storage.SecretsRepository.select_by_path orgID projectID env name d)), d).
Proof.
  intros Hf. unfold Storage.SecretsRepository.GetSecretMetadataByPath.
  rewrite QueryRow_no_fault by exact Hf.
  destruct (Storage.SecretsRepository.select_by_path orgID projectID env name d); reflexivity.
Qed.

(** Without a metadata row at the path the metadata delete succeeds
    and changes nothing. *)
Lemma DeleteSecretMetadataByPath_absent (d : Storage.DB) (now : Z)
    (orgID projectID env name : string) :
  Storage.faults d = [] ->
  Storage.SecretsRepository.select_by_path orgID projectID env name d = [] ->
  Storage.SecretsRepository.DeleteSecretMetadataByPath d now orgID projectID env name
  = (Ok tt, d).
Proof.
  intros Hf Hnone. unfold Storage.SecretsRepository.DeleteSecretMetadataByPath.
  rewrite GetSecretMetadataByPath_no_fault by exact Hf. rewrite Hnone. reflexivity.
Qed.

End Catalog.

(** ** Create *)

(** C1, as the code has it: the coordinator (SecretsHandler.CreateSecret
    over Service.StoreSecret) makes no quota check.  Whenever the value
    store takes the write, the request succeeds with 201 and the fields
    are stored at the derived path, other paths staying as they were;
    the database is left untouched, so no metadata row is inserted and
    secret_count does not move.  The quota pieces are separate
    operations that the create path does not call: CanCreateSecret is
    [count < limit], and CreateSecretMetadata inserts the metadata row
    and raises the organization's secret_count by exactly 1. *)
Theorem C1_create_writes_value_only (w : World) (now : Z) (secret : Models.Secret.t)
    (userID : string) (Hkv : Vault.faults (kv w) = []) :
  let r := SecretsHandler.CreateSecret w now (Some secret) userID in
  SecretsHandler.Status (fst r) = SecretsHandler.StatusCreated
  /\ db (snd r) = db w
  /\ Vault.data (kv (snd r)) !! path_of secret
     = Some (stored_fields (Models.Secret.Value secret) userID
               (Models.Secret.Description secret) now)
  /\ (forall p, p <> path_of secret -> Vault.data (kv (snd r)) !! p = Vault.data (kv w) !! p)
  /\ (forall (orgID : string) (count limit : Z),
        Storage.faults (db w) = [] ->
        fst (Storage.SecretCountRepository.GetSecretsCount (db w) orgID) = Ok count ->
        fst (Storage.SecretCountRepository.GetSecretsLimit (db w) orgID) = Ok limit ->
        Storage.SubscriptionService.CanCreateSecret (db w) orgID
        = (Ok (count <? limit), db w))
  /\ (forall (uuid1 uuid2 : string) (m : Models.SecretMetadata.t) (count : Z),
        Storage.faults (db w) = [] ->
        (forall x, In x (Storage.secret_metadata (db w)) ->
           Models.SecretMetadata.ID x <> Models.SecretMetadata.ID (metadata_row m uuid1 now)) ->
        (forall x, In x (Storage.usage_statistics (db w)) ->
           Storage.UsageStatistics.id x <> uuid2) ->
        fst (Storage.SecretsRepository.GetSecretsCount (db w)
               (Models.SecretMetadata.OrganizationID m)) = Ok count ->
        exists d',
          Storage.SecretsRepository.CreateSecretMetadata (db w) uuid1 uuid2 now m = (Ok tt, d')
          /\ Storage.secret_metadata d'
             = (Storage.secret_metadata (db w) ++ [metadata_row m uuid1 now])%list
          /\ fst (Storage.SecretsRepository.GetSecretsCount d'
                    (Models.SecretMetadata.OrganizationID m)) = Ok (count + 1)).
Proof.
  cbn zeta. rewrite CreateSecret_effect by exact Hkv. cbn [fst snd db kv Vault.data].
  split; [reflexivity|]. split; [reflexivity|]. split; [apply lookup_insert_eq|].
  split; [intros p Hp; by apply lookup_insert_ne|]. split.
  - intros orgID count limit Hf Hc Hl.
    rewrite (proj1 (GetSecretsCount_no_fault _ orgID Hf)) in Hc. injection Hc as <-.
    by apply CanCreateSecret_no_fault.
  - intros uuid1 uuid2 m count Hf Hmeta Hstats Hc.
    rewrite (proj2 (GetSecretsCount_no_fault _ _ Hf)) in Hc. injection Hc as <-.
    destruct (CreateSecretMetadata_effect (db w) uuid1 uuid2 now m Hf Hmeta Hstats)
      as (d' & Hcreate & Hf' & Hrows & Hcount).
    exists d'. split; [exact Hcreate|]. split; [exact Hrows|].
    rewrite (proj2 (GetSecretsCount_no_fault _ _ Hf')). cbn [fst]. by rewrite Hcount.
Qed.

(** For the organization that already counts its five free-tier
    secrets the request is served all the same. *)
Lemma C1_create_writes_value_only_witness :
  Vault.faults (kv full_world) = []
  /\ SecretsHandler.Status
       (fst (SecretsHandler.CreateSecret full_world 100 (Some secret0) "user-1"))
     = SecretsHandler.StatusCreated
  /\ Storage.SubscriptionService.CanCreateSecret (db full_world) "org-1"
     = (Ok (5 <? 5), db full_world).
Proof.
  assert (H : Vault.faults (kv full_world) = []) by reflexivity.
  split; [exact H|]. split.
  - exact (proj1 (C1_create_writes_value_only full_world 100 secret0 "user-1" H)).
  - exact (proj1 (proj2 (proj2 (proj2 (proj2
             (C1_create_writes_value_only full_world 100 secret0 "user-1" H)))))
             "org-1" 5 5 eq_refl eq_refl eq_refl).
Defined.

(** C1 as stated fails: with count = limit = 5 the quota check answers
    false, yet the coordinator answers 201 and the value is stored; and
    for an organization below its limit the coordinator stores the value
    but inserts no metadata row and leaves the count at 0. *)
Lemma C1_counterexample_no_quota_check :
  Storage.SubscriptionService.CanCreateSecret (db full_world) "org-1"
    = (Ok false, db full_world)
  /\ SecretsHandler.Status
       (fst (SecretsHandler.CreateSecret full_world 100 (Some secret0) "user-1"))
     = SecretsHandler.StatusCreated
  /\ Vault.data (kv (snd (SecretsHandler.CreateSecret full_world 100 (Some secret0) "user-1")))
       !! "org-1/proj-1/prod/api-key"
     = Some (stored_fields "hunter2" "user-1" "payment key" 100)
  /\ Storage.SubscriptionService.CanCreateSecret (db fresh_world) "org-1"
     = (Ok true, db fresh_world)
  /\ SecretsHandler.Status
       (fst (SecretsHandler.CreateSecret fresh_world 100 (Some secret0) "user-1"))
     = SecretsHandler.StatusCreated
  /\ Storage.secret_metadata
       (db (snd (SecretsHandler.CreateSecret fresh_world 100 (Some secret0) "user-1"))) = []
  /\ fst (Storage.SecretCountRepository.GetSecretsCount
            (db (snd (SecretsHandler.CreateSecret fresh_world 100 (Some secret0) "user-1")))
            "org-1") = Ok 0.
Proof. repeat apply conj; reflexivity. Qed.

(** ** Read *)

(** C2, as the code has it: Read (SecretsHandler.GetSecret over
    Service.GetSecret) never fetches the metadata row; its answer is the
    same whatever the database holds, and it leaves both stores as they
    were.  It asks the value store for the derived path: on absence it
    answers 404 "Secret non trouvé", with or without a metadata row, and
    on presence it answers 200 with the stored value, description and
    creator, again with or without a metadata row. *)
Theorem C2_read_from_value_store (w : World) (orgID projectID env name : string)
    (Hkv : Vault.faults (kv w) = []) :
  let r := SecretsHandler.GetSecret w orgID projectID env name in
  let path := Vault.Service.buildSecretPath orgID projectID env name in
  snd r = w
  /\ (forall d' : Storage.DB,
        fst (SecretsHandler.GetSecret (mkWorld d' (kv w)) orgID projectID env name) = fst r)
  /\ (Vault.data (kv w) !! path = None ->
        fst r = SecretsHandler.mkResponse SecretsHandler.StatusNotFound
                  (SecretsHandler.Text "Secret non trouvé"))
  /\ (forall d : gmap string Vault.value,
        Vault.data (kv w) !! path = Some d ->
        fst r = SecretsHandler.mkResponse SecretsHandler.StatusOK
                  (SecretsHandler.Json
                     (Models.Secret.mk "" name (Vault.Service.string_field d "value" "")
                        (Vault.Service.string_field d "description" "")
                        orgID projectID env
                        (Vault.Service.string_field d "created_by" "") 0 0 0))).
Proof.
  cbn zeta. split; [|split; [|split]].
  - rewrite GetSecret_effect by exact Hkv. reflexivity.
  - intros d'. apply GetSecret_ignores_db.
  - intros Hnone. rewrite GetSecret_effect by exact Hkv. rewrite Hnone. reflexivity.
  - intros d Hsome. rewrite GetSecret_effect by exact Hkv. rewrite Hsome. reflexivity.
Qed.

Lemma C2_read_from_value_store_witness :
  Vault.faults (kv metadata_only_world) = []
  /\ Vault.data (kv metadata_only_world) !! "org-1/proj-1/prod/api-key" = None
  /\ fst (SecretsHandler.GetSecret metadata_only_world "org-1" "proj-1" "prod" "api-key")
     = SecretsHandler.mkResponse SecretsHandler.StatusNotFound
         (SecretsHandler.Text "Secret non trouvé").
Proof.
  assert (H : Vault.faults (kv metadata_only_world) = []) by reflexivity.
  assert (Hnone : Vault.data (kv metadata_only_world)
                    !! Vault.Service.buildSecretPath "org-1" "proj-1" "prod" "api-key" = None)
    by reflexivity.
  split; [exact H|]. split; [exact Hnone|].
  exact (proj1 (proj2 (proj2
           (C2_read_from_value_store metadata_only_world "org-1" "proj-1" "prod" "api-key" H)))
           Hnone).
Defined.

(** C2 as stated fails.  With a metadata row at the path and no value,
    Read answers exactly what it answers when there is no metadata row
    either: 404 "Secret non trouvé"; no inconsistent-state error exists.
    With no metadata row and a value at the path, Read consults the
    value store and returns the secret. *)
Lemma C2_counterexample_metadata_not_consulted :
  fst (Storage.SecretsRepository.GetSecretMetadataByPath (db metadata_only_world)
         "org-1" "proj-1" "prod" "api-key") = Ok (Some metadata0)
  /\ Vault.data (kv metadata_only_world) !! "org-1/proj-1/prod/api-key" = None
  /\ fst (SecretsHandler.GetSecret metadata_only_world "org-1" "proj-1" "prod" "api-key")
     = SecretsHandler.mkResponse SecretsHandler.StatusNotFound
         (SecretsHandler.Text "Secret non trouvé")
  /\ fst (Storage.SecretsRepository.GetSecretMetadataByPath (db fresh_world)
            "org-1" "proj-1" "prod" "api-key") = Ok None
  /\ fst (SecretsHandler.GetSecret fresh_world "org-1" "proj-1" "prod" "api-key")
     = fst (SecretsHandler.GetSecret metadata_only_world "org-1" "proj-1" "prod" "api-key")
  /\ fst (Storage.SecretsRepository.GetSecretMetadataByPath (db value_only_world)
            "org-1" "proj-1" "prod" "api-key") = Ok None
  /\ SecretsHandler.Status
       (fst (SecretsHandler.GetSecret value_only_world "org-1" "proj-1" "prod" "api-key"))
     = SecretsHandler.StatusOK.
Proof. repeat apply conj; reflexivity. Qed.

(** ** Delete *)




(** ** Round trip *)

(** C8, as the code has it: creating a secret and then reading the same
    path returns the same value and the same description, the creator
    the request was authenticated as, and version 0: Read fills in no
    version, whatever the client sent and whatever the catalog holds. *)
Theorem C8_create_then_read (w : World) (now : Z) (secret : Models.Secret.t) (userID : string)
    (Hkv : Vault.faults (kv w) = []) :
  let created := SecretsHandler.CreateSecret w now (Some secret) userID in
  let read :=
    SecretsHandler.GetSecret (snd created)
      (Models.Secret.OrganizationID secret) (Models.Secret.ProjectID secret)
      (Models.Secret.Environment secret) (Models.Secret.Name secret) in
  SecretsHandler.Status (fst created) = SecretsHandler.StatusCreated
  /\ exists got : Models.Secret.t,
       fst read = SecretsHandler.mkResponse SecretsHandler.StatusOK (SecretsHandler.Json got)
       /\ Models.Secret.Value got = Models.Secret.Value secret
       /\ Models.Secret.Description got = Models.Secret.Description secret
       /\ Models.Secret.CreatedBy got = userID
       /\ Models.Secret.Version got = 0.
Proof.
  cbn zeta. rewrite CreateSecret_effect by exact Hkv. cbn [fst snd].
  split; [reflexivity|].
  rewrite GetSecret_effect by reflexivity. cbn [kv Vault.data fst].
  fold (path_of secret). rewrite lookup_insert_eq.
  destruct (stored_fields_read (Models.Secret.Value secret) userID
              (Models.Secret.Description secret) now) as (Hv & Hd & Hc).
  eexists. split; [reflexivity|]. cbn. auto.
Qed.

Lemma C8_create_then_read_witness :
  Vault.faults (kv fresh_world) = []
  /\ exists got : Models.Secret.t,
       fst (SecretsHandler.GetSecret
              (snd (SecretsHandler.CreateSecret fresh_world 100 (Some secret0) "user-1"))
              "org-1" "proj-1" "prod" "api-key")
       = SecretsHandler.mkResponse SecretsHandler.StatusOK (SecretsHandler.Json got)
       /\ Models.Secret.Value got = "hunter2"
       /\ Models.Secret.Description got = "payment key"
       /\ Models.Secret.Version got = 0.
Proof.
  assert (H : Vault.faults (kv fresh_world) = []) by reflexivity.
  split; [exact H|].
  destruct (proj2 (C8_create_then_read fresh_world 100 secret0 "user-1" H))
    as (got & Hr & Hv & Hd & _ & Hver).
  exists got. split; [exact Hr|]. split; [exact Hv|]. split; [exact Hd|exact Hver].
Defined.

(** C8 as stated fails on the version: the secret is posted with
    version 1 and read back with version 0. *)
Lemma C8_counterexample_version_zero :
  Models.Secret.Version secret0 = 1
  /\ fst (SecretsHandler.GetSecret
            (snd (SecretsHandler.CreateSecret fresh_world 100 (Some secret0) "user-1"))
            "org-1" "proj-1" "prod" "api-key")
     = SecretsHandler.mkResponse SecretsHandler.StatusOK
         (SecretsHandler.Json
            (Models.Secret.mk "" "api-key" "hunter2" "payment key" "org-1" "proj-1" "prod"
               "user-1" 0 0 0))
  /\ (0 : Z) <> 1.
Proof. repeat apply conj; [reflexivity | reflexivity | discriminate]. Qed.

(** * Further properties of the code *)

(** ** What the token services accept *)

(** [jwt.Parse] succeeds only on a well-formed token whose signature
    verifies under the key the key function returns and whose time
    claims are valid. *)
Lemma Parse_Ok_inv (rel : Jwt.release) (ts : Jwt.TokenString)
    (keyFunc : Jwt.Token -> result string) (now : Z) (tok : Jwt.Token) :
  Jwt.Parse rel ts keyFunc now = Ok tok ->
  exists t,
    ts = Jwt.Compact t
    /\ keyFunc t = Ok (Jwt.SignedWith t)
    /\ Jwt.ClaimsValid (Jwt.Claims t) now = 0
    /\ tok = Jwt.mkToken (Jwt.Method t) (Jwt.Claims t) (Jwt.SignedWith t) true.
Proof.
  unfold Jwt.Parse. destruct ts as [t|raw]; [|discriminate].
  destruct (keyFunc t) as [key|e] eqn:Hk; [|discriminate].
  unfold Jwt.Verify. case_bool_decide as Hs.
  - subst key. intros H. exists t. split; [reflexivity|]. split; [exact Hk|].
    destruct rel; cbn [Z.eqb] in H; rewrite ?Z.lor_0_r in H;
      destruct (Jwt.ClaimsValid (Jwt.Claims t) now =? 0) eqn:Hc; try discriminate;
      apply Z.eqb_eq in Hc; injection H as <-; auto.
  - intros H. exfalso. destruct rel.
    + destruct (Z.lor _ _ =? 0) eqn:Hz; [|discriminate].
      apply Z.eqb_eq, Z.lor_eq_0_iff in Hz. destruct Hz as [_ Hz]. discriminate.
    + cbn in H. discriminate.
Qed.

Lemma Parse_Ok_intro (rel : Jwt.release) (t : Jwt.Token)
    (keyFunc : Jwt.Token -> result string) (now : Z) :
  keyFunc t = Ok (Jwt.SignedWith t) ->
  Jwt.ClaimsValid (Jwt.Claims t) now = 0 ->
  Jwt.Parse rel (Jwt.Compact t) keyFunc now
  = Ok (Jwt.mkToken (Jwt.Method t) (Jwt.Claims t) (Jwt.SignedWith t) true).
Proof.
  intros Hk Hc. unfold Jwt.Parse. rewrite Hk. unfold Jwt.Verify.
  rewrite bool_decide_eq_true_2 by reflexivity. rewrite Hc. destruct rel; reflexivity.
Qed.

Lemma keyFunc_improved_inv (s : ServiceImproved.t) (t : Jwt.Token) (key : string) :
  ServiceImproved.keyFunc s t = Ok key ->
  Jwt.SigningMethodHMAC (Jwt.Method t) = true /\ key = ServiceImproved.jwtSecret s.
Proof.
  unfold ServiceImproved.keyFunc. destruct (Jwt.SigningMethodHMAC (Jwt.Method t)); [|discriminate].
  intros [= <-]. auto.
Qed.

Lemma keyFunc_service_inv (s : Service.t) (t : Jwt.Token) (key : string) :
  Service.keyFunc s t = Ok key ->
  Jwt.SigningMethodHMAC (Jwt.Method t) = true /\ key = Service.jwtSecret s.
Proof.
  unfold Service.keyFunc. destruct (Jwt.SigningMethodHMAC (Jwt.Method t)); [|discriminate].
  intros [= <-]. auto.
Qed.

Lemma keyFunc_legacy_inv (s : LegacyService.t) (t : Jwt.Token) (key : string) :
  LegacyService.keyFunc s t = Ok key ->
  Jwt.SigningMethodHMAC (Jwt.Method t) = true /\ key = LegacyService.jwtSecret s.
Proof.
  unfold LegacyService.keyFunc. destruct (Jwt.SigningMethodHMAC (Jwt.Method t)); [|discriminate].
  intros [= <-]. auto.
Qed.

(** parseToken hands back claims exactly for the tokens that an HMAC
    signature under the service's secret and valid time claims vouch for. *)
Lemma ServiceImproved_parseToken_Ok (rel : Jwt.release) (s : ServiceImproved.t) (now : Z)
    (ts : Jwt.TokenString) (claims : gmap string Jwt.claim) :
  ServiceImproved.parseToken rel s now ts = Ok claims <->
  exists t,
    ts = Jwt.Compact t
    /\ Jwt.SigningMethodHMAC (Jwt.Method t) = true
    /\ Jwt.SignedWith t = ServiceImproved.jwtSecret s
    /\ Jwt.ClaimsValid (Jwt.Claims t) now = 0
    /\ claims = Jwt.Claims t.
Proof.
  unfold ServiceImproved.parseToken. split.
  - destruct (Jwt.Parse rel ts (ServiceImproved.keyFunc s) now) as [tok|e] eqn:HP.
    + destruct (Parse_Ok_inv _ _ _ _ _ HP) as (t & -> & Hk & Hc & ->).
      destruct (keyFunc_improved_inv _ _ _ Hk) as [Hm Hs]. cbn. intros [= <-].
      exists t. auto.
    + destruct (Jwt.Is e Jwt.ErrTokenExpired); discriminate.
  - intros (t & -> & Hm & Hs & Hc & ->).
    rewrite Parse_Ok_intro; [reflexivity | by apply HMAC_keyFunc_improved | exact Hc].
Qed.

Lemma Service_parseToken_Ok (rel : Jwt.release) (s : Service.t) (now : Z)
    (ts : Jwt.TokenString) (claims : gmap string Jwt.claim) :
  Service.parseToken rel s now ts = Ok claims <->
  exists t,
    ts = Jwt.Compact t
    /\ Jwt.SigningMethodHMAC (Jwt.Method t) = true
    /\ Jwt.SignedWith t = Service.jwtSecret s
    /\ Jwt.ClaimsValid (Jwt.Claims t) now = 0
    /\ claims = Jwt.Claims t.
Proof.
  unfold Service.parseToken. split.
  - destruct (Jwt.Parse rel ts (Service.keyFunc s) now) as [tok|e] eqn:HP.
    + destruct (Parse_Ok_inv _ _ _ _ _ HP) as (t & -> & Hk & Hc & ->).
      destruct (keyFunc_service_inv _ _ _ Hk) as [Hm Hs]. cbn. intros [= <-].
      exists t. auto.
    + destruct (Jwt.Is e Jwt.ErrTokenExpired); discriminate.
  - intros (t & -> & Hm & Hs & Hc & ->).
    rewrite Parse_Ok_intro; [reflexivity | by apply HMAC_keyFunc_service | exact Hc].
Qed.

(** The type and subject checks shared by VerifyToken and RefreshToken. *)
Lemma typed_check_Ok (claims : gmap string Jwt.claim) (wanted userID : string) :
  match claims !! "type" with
  | Some (Jwt.CString tokenType) =>
      if negb (streq tokenType wanted) then Err auth_ErrInvalidToken
      else match claims !! "sub" with
           | Some (Jwt.CString u) => Ok u
           | _ => Err auth_ErrInvalidToken
           end
  | _ => Err auth_ErrInvalidToken
  end = Ok userID <->
  claims !! "type" = Some (Jwt.CString wanted) /\ claims !! "sub" = Some (Jwt.CString userID).
Proof.
  split.
  - destruct (claims !! "type") as [[ty| |]|]; try discriminate.
    destruct (streq ty wanted) eqn:Hty; [|discriminate]. apply streq_true in Hty as ->. cbn.
    destruct (claims !! "sub") as [[u| |]|]; try discriminate. intros [= <-]. auto.
  - intros [-> ->]. rewrite streq_refl. reflexivity.
Qed.

(** X1. VerifyToken of the typed services returns a user id exactly for a
    well-formed token with an HMAC signature under the service's secret,
    valid time claims, type "access" and that string as subject. *)
Theorem VerifyToken_accepts_iff (rel : Jwt.release) (now : Z) (ts : Jwt.TokenString)
    (userID : string) :
  (forall s : ServiceImproved.t,
     ServiceImproved.VerifyToken rel s now ts = Ok userID <->
     exists t,
       ts = Jwt.Compact t
       /\ Jwt.SigningMethodHMAC (Jwt.Method t) = true
       /\ Jwt.SignedWith t = ServiceImproved.jwtSecret s
       /\ Jwt.ClaimsValid (Jwt.Claims t) now = 0
       /\ Jwt.Claims t !! "type" = Some (Jwt.CString "access")
       /\ Jwt.Claims t !! "sub" = Some (Jwt.CString userID))
  /\ (forall s : Service.t,
     Service.VerifyToken rel s now ts = Ok userID <->
     exists t,
       ts = Jwt.Compact t
       /\ Jwt.SigningMethodHMAC (Jwt.Method t) = true
       /\ Jwt.SignedWith t = Service.jwtSecret s
       /\ Jwt.ClaimsValid (Jwt.Claims t) now = 0
       /\ Jwt.Claims t !! "type" = Some (Jwt.CString "access")
       /\ Jwt.Claims t !! "sub" = Some (Jwt.CString userID)).
Proof.
  split; intros s.
  - unfold ServiceImproved.VerifyToken. split.
    + destruct (ServiceImproved.parseToken rel s now ts) as [claims|e] eqn:Hp; [|discriminate].
      apply ServiceImproved_parseToken_Ok in Hp as (t & -> & Hm & Hs & Hc & ->).
      intros H. apply typed_check_Ok in H as [Hty Hsub]. exists t. auto 10.
    + intros (t & -> & Hm & Hs & Hc & Hty & Hsub).
      rewrite (proj2 (ServiceImproved_parseToken_Ok rel s now _ (Jwt.Claims t)))
        by (exists t; auto).
      apply typed_check_Ok. auto.
  - unfold Service.VerifyToken. split.
    + destruct (Service.parseToken rel s now ts) as [claims|e] eqn:Hp; [|discriminate].
      apply Service_parseToken_Ok in Hp as (t & -> & Hm & Hs & Hc & ->).
      intros H. apply typed_check_Ok in H as [Hty Hsub]. exists t. auto 10.
    + intros (t & -> & Hm & Hs & Hc & Hty & Hsub).
      rewrite (proj2 (Service_parseToken_Ok rel s now _ (Jwt.Claims t))) by (exists t; auto).
      apply typed_check_Ok. auto.
Qed.

Lemma fresh_window (t0 now lifetime : Z) :
  t0 <= now -> now < t0 + lifetime ->
  expired_at (t0 + lifetime) now = false /\ used_before_issued t0 now = false.
Proof.
  intros H1 H2. unfold expired_at, used_before_issued. split.
  - destruct (t0 + lifetime =? 0); cbn; [reflexivity|]. apply Z.leb_gt. lia.
  - destruct (t0 =? 0); cbn; [reflexivity|]. apply Z.ltb_ge. lia.
Qed.

(** X2. A token signed with another key, or naming a signing method outside
    the HMAC family, is never accepted: not by VerifyToken of any of the
    three services, and not by RefreshToken. *)
Theorem foreign_token_never_accepted (rel : Jwt.release) (now : Z) (t : Jwt.Token) :
  (forall s : ServiceImproved.t,
     Jwt.SignedWith t <> ServiceImproved.jwtSecret s
       \/ Jwt.SigningMethodHMAC (Jwt.Method t) = false ->
     (forall u, ServiceImproved.VerifyToken rel s now (Jwt.Compact t) <> Ok u)
     /\ (forall db r, fst (ServiceImproved.RefreshToken rel s db now (Jwt.Compact t)) <> Ok r))
  /\ (forall s : Service.t,
     Jwt.SignedWith t <> Service.jwtSecret s
       \/ Jwt.SigningMethodHMAC (Jwt.Method t) = false ->
     (forall u, Service.VerifyToken rel s now (Jwt.Compact t) <> Ok u)
     /\ (forall r, Service.RefreshToken rel s now (Jwt.Compact t) <> Ok r))
  /\ (forall s : LegacyService.t,
     Jwt.SignedWith t <> LegacyService.jwtSecret s
       \/ Jwt.SigningMethodHMAC (Jwt.Method t) = false ->
     forall u, LegacyService.VerifyToken rel s now (Jwt.Compact t) <> Ok u).
Proof.
  split; [|split]; intros s Hbad.
  - assert (Hp : forall claims,
               ServiceImproved.parseToken rel s now (Jwt.Compact t) <> Ok claims).
    { intros claims H. apply ServiceImproved_parseToken_Ok in H as (t' & [= <-] & Hm & Hs & _).
      destruct Hbad as [Hbad | Hbad]; congruence. }
    split.
    + intros u. unfold ServiceImproved.VerifyToken.
      destruct (ServiceImproved.parseToken rel s now (Jwt.Compact t)) as [claims|e] eqn:H;
        [by destruct (Hp claims)|discriminate].
    + intros db r. unfold ServiceImproved.RefreshToken.
      destruct (ServiceImproved.parseToken rel s now (Jwt.Compact t)) as [claims|e] eqn:H;
        [by destruct (Hp claims)|discriminate].
  - assert (Hp : forall claims, Service.parseToken rel s now (Jwt.Compact t) <> Ok claims).
    { intros claims H. apply Service_parseToken_Ok in H as (t' & [= <-] & Hm & Hs & _).
      destruct Hbad as [Hbad | Hbad]; congruence. }
    split.
    + intros u. unfold Service.VerifyToken.
      destruct (Service.parseToken rel s now (Jwt.Compact t)) as [claims|e] eqn:H;
        [by destruct (Hp claims)|discriminate].
    + intros r. unfold Service.RefreshToken.
      destruct (Service.parseToken rel s now (Jwt.Compact t)) as [claims|e] eqn:H;
        [by destruct (Hp claims)|discriminate].
  - intros u. unfold LegacyService.VerifyToken.
    destruct (Jwt.Parse rel (Jwt.Compact t) (LegacyService.keyFunc s) now) as [tok|e] eqn:HP;
      [|discriminate].
    destruct (Parse_Ok_inv _ _ _ _ _ HP) as (t' & [= <-] & Hk & _).
    destruct (keyFunc_legacy_inv _ _ _ Hk) as [Hm Hs].
    destruct Hbad as [Hbad | Hbad]; congruence.
Qed.

(** A token with the unsigned method [none] that claims to be an access
    token of user-1 and carries the right secret in its signature slot. *)
Lemma foreign_token_never_accepted_witness :
  Jwt.SigningMethodHMAC
    (Jwt.Method (Jwt.mkToken Jwt.none (typed_claims "user-1" "access" 4600 1000) "s3cr3t" false))
  = false
  /\ forall u,
       ServiceImproved.VerifyToken Jwt.MergedErrors improved0 2000
         (Jwt.Compact (Jwt.mkToken Jwt.none (typed_claims "user-1" "access" 4600 1000)
                         "s3cr3t" false)) <> Ok u.
Proof.
  assert (H : Jwt.SigningMethodHMAC
                (Jwt.Method (Jwt.mkToken Jwt.none (typed_claims "user-1" "access" 4600 1000)
                               "s3cr3t" false)) = false) by reflexivity.
  split; [exact H|].
  exact (proj1 (proj1 (foreign_token_never_accepted Jwt.MergedErrors 2000 _) improved0
                  (or_intror H))).
Defined.

(** ** Minting and verifying *)

Lemma ServiceImproved_generateTokenPair_eq (s : ServiceImproved.t) (t0 : Z) (userID : string) :
  ServiceImproved.generateTokenPair s t0 userID =
  (fst (ServiceImproved.generateToken s t0 userID "access" (ServiceImproved.jwtExpiry s)),
   fst (ServiceImproved.generateToken s t0 userID "refresh" (ServiceImproved.refreshTime s)),
   t0 + ServiceImproved.jwtExpiry s).
Proof. reflexivity. Qed.

Lemma Service_generateTokenPair_eq (s : Service.t) (t0 : Z) (userID : string) :
  Service.generateTokenPair s t0 userID =
  (fst (Service.generateToken s t0 userID "access" (Service.jwtExpiry s)),
   fst (Service.generateToken s t0 userID "refresh" (Service.refreshTime s)),
   t0 + Service.jwtExpiry s).
Proof. reflexivity. Qed.

(** X3. The pair a typed service mints: the reported expiry is that of the
    access token; within its lifetime the access token verifies to the
    user it was minted for, and within the refresh lifetime the refresh
    token is exchanged by the part_005 service for a new pair of the
    same user, expiring one access lifetime after the exchange. *)
Theorem token_pair_round_trip (rel : Jwt.release) (t0 now : Z) (userID : string)
    (Hissued : t0 <= now) :
  (forall s : ServiceImproved.t,
     snd (ServiceImproved.generateTokenPair s t0 userID) = t0 + ServiceImproved.jwtExpiry s
     /\ (now < t0 + ServiceImproved.jwtExpiry s ->
         ServiceImproved.VerifyToken rel s now
           (fst (fst (ServiceImproved.generateTokenPair s t0 userID))) = Ok userID))
  /\ (forall s : Service.t,
     snd (Service.generateTokenPair s t0 userID) = t0 + Service.jwtExpiry s
     /\ (now < t0 + Service.jwtExpiry s ->
         Service.VerifyToken rel s now (fst (fst (Service.generateTokenPair s t0 userID)))
         = Ok userID)
     /\ (now < t0 + Service.refreshTime s ->
         exists r,
           Service.RefreshToken rel s now (snd (fst (Service.generateTokenPair s t0 userID)))
           = Ok r
           /\ UserID r = userID
           /\ ExpiresAt r = now + Service.jwtExpiry s)).
Proof.
  split; intros s.
  - rewrite ServiceImproved_generateTokenPair_eq. cbn [fst snd].
    split; [reflexivity|]. intros Hlive.
    destruct (fresh_window t0 now _ Hissued Hlive) as [He Hi].
    unfold ServiceImproved.VerifyToken.
    rewrite ServiceImproved_parse_minted, He, Hi, typed_claims_type, typed_claims_sub.
    reflexivity.
  - rewrite Service_generateTokenPair_eq. cbn [fst snd].
    split; [reflexivity|]. split.
    + intros Hlive. destruct (fresh_window t0 now _ Hissued Hlive) as [He Hi].
      unfold Service.VerifyToken.
      rewrite Service_parse_minted, He, Hi, typed_claims_type, typed_claims_sub.
      reflexivity.
    + intros Hlive. destruct (fresh_window t0 now _ Hissued Hlive) as [He Hi].
      unfold Service.RefreshToken.
      rewrite Service_parse_minted, He, Hi, typed_claims_type, typed_claims_sub.
      rewrite Service_generateTokenPair_eq.
      cbn. eexists. split; [reflexivity|]. split; reflexivity.
Qed.

Lemma token_pair_round_trip_witness :
  1000 <= 2000
  /\ 2000 < 1000 + Service.jwtExpiry service0
  /\ Service.VerifyToken Jwt.SignatureFirst service0 2000
       (fst (fst (Service.generateTokenPair service0 1000 "user-1"))) = Ok "user-1".
Proof.
  assert (H1 : 1000 <= 2000) by discriminate.
  assert (H2 : 2000 < 1000 + Service.jwtExpiry service0) by reflexivity.
  split; [exact H1|]. split; [exact H2|].
  exact (proj1 (proj2 (proj2 (token_pair_round_trip Jwt.SignatureFirst 1000 2000 "user-1" H1)
                         service0)) H2).
Defined.

Lemma ClaimsValid_untyped (userID : string) (exp iat now : Z) :
  Jwt.ClaimsValid (untyped_claims userID exp iat) now =
  Z.lor (if expired_at exp now then Jwt.ValidationErrorExpired else 0)
        (if used_before_issued iat now then Jwt.ValidationErrorIssuedAt else 0).
Proof.
  unfold Jwt.ClaimsValid, Jwt.VerifyExpiresAt, Jwt.VerifyIssuedAt, Jwt.VerifyNotBefore,
    Jwt.verifyClaim, untyped_claims.
  replace ((<["sub":=Jwt.CString userID]> (<["exp":=Jwt.CNumber exp]>
             (<["iat":=Jwt.CNumber iat]> ∅)) : gmap string Jwt.claim) !! "exp")
    with (Some (Jwt.CNumber exp)) by (by simplify_map_eq).
  replace ((<["sub":=Jwt.CString userID]> (<["exp":=Jwt.CNumber exp]>
             (<["iat":=Jwt.CNumber iat]> ∅)) : gmap string Jwt.claim) !! "iat")
    with (Some (Jwt.CNumber iat)) by (by simplify_map_eq).
  replace ((<["sub":=Jwt.CString userID]> (<["exp":=Jwt.CNumber exp]>
             (<["iat":=Jwt.CNumber iat]> ∅)) : gmap string Jwt.claim) !! "nbf")
    with (@None Jwt.claim) by (by simplify_map_eq).
  unfold expired_at, used_before_issued, Jwt.verifyExp, Jwt.verifyIat.
  destruct (exp =? 0) eqn:He, (iat =? 0) eqn:Hi; simpl;
    try (destruct (now <? exp) eqn:Hlt; destruct (exp <=? now) eqn:Hle; try lia);
    try (destruct (iat <=? now) eqn:Hil; destruct (now <? iat) eqn:Hli; try lia);
    reflexivity.
Qed.

(** X4. The legacy service reads back what it mints: from issuance until
    the expiry it reports, VerifyToken returns the user the token was
    generated for; from that expiry on it fails with the library's
    error for an expired token. *)
Theorem legacy_token_round_trip (rel : Jwt.release) (s : LegacyService.t) (t0 now : Z)
    (userID : string) (Hissued : t0 <= now) :
  snd (LegacyService.generateToken s t0 userID) = t0 + LegacyService.jwtExpiry s
  /\ (now < t0 + LegacyService.jwtExpiry s ->
      LegacyService.VerifyToken rel s now (fst (LegacyService.generateToken s t0 userID))
      = Ok userID)
  /\ (t0 + LegacyService.jwtExpiry s <> 0 -> t0 + LegacyService.jwtExpiry s <= now ->
      exists err,
        LegacyService.VerifyToken rel s now (fst (LegacyService.generateToken s t0 userID))
        = Err err
        /\ Jwt.Is err Jwt.ErrTokenExpired = true).
Proof.
  split; [reflexivity|].
  assert (HP : Jwt.Parse rel (fst (LegacyService.generateToken s t0 userID))
                 (LegacyService.keyFunc s) now =
               if Jwt.ClaimsValid (untyped_claims userID (t0 + LegacyService.jwtExpiry s) t0) now
                  =? 0
               then Ok (Jwt.mkToken Jwt.HS256
                          (untyped_claims userID (t0 + LegacyService.jwtExpiry s) t0)
                          (LegacyService.jwtSecret s) true)
               else Err (jwt_ValidationError
                           (Jwt.ClaimsValid
                              (untyped_claims userID (t0 + LegacyService.jwtExpiry s) t0) now))).
  { unfold LegacyService.generateToken. cbn [fst].
    by rewrite (Parse_own_token rel (LegacyService.jwtSecret s)). }
  assert (Hi : used_before_issued t0 now = false).
  { unfold used_before_issued. destruct (t0 =? 0); cbn; [reflexivity|]. apply Z.ltb_ge. lia. }
  unfold LegacyService.VerifyToken. rewrite HP, ClaimsValid_untyped, Hi. split.
  - intros Hlive. destruct (fresh_window t0 now _ Hissued Hlive) as [-> _]. cbn.
    unfold untyped_claims. by simplify_map_eq.
  - intros Hset Hover.
    assert (He : expired_at (t0 + LegacyService.jwtExpiry s) now = true).
    { unfold expired_at. apply andb_true_iff. split.
      - apply negb_true_iff, Z.eqb_neq. exact Hset.
      - apply Z.leb_le. exact Hover. }
    rewrite He. cbn. eexists. split; reflexivity.
Qed.

Lemma legacy_token_round_trip_witness :
  1000 <= 2000
  /\ 2000 < 1000 + LegacyService.jwtExpiry legacy0
  /\ LegacyService.VerifyToken Jwt.MergedErrors legacy0 2000
       (fst (LegacyService.generateToken legacy0 1000 "user-1")) = Ok "user-1".
Proof.
  assert (H1 : 1000 <= 2000) by discriminate.
  assert (H2 : 2000 < 1000 + LegacyService.jwtExpiry legacy0) by reflexivity.
  split; [exact H1|]. split; [exact H2|].
  exact (proj1 (proj2 (legacy_token_round_trip Jwt.MergedErrors legacy0 1000 2000 "user-1" H1))
           H2).
Defined.

(** X5. Refreshing with the improved service while the subject still has a
    row in users yields a pair whose access token, if access tokens live
    for a positive time, verifies at once to that same user; the users
    table is read, not written. *)
Theorem refresh_then_verify (rel : Jwt.release) (s : ServiceImproved.t) (d : Storage.DB)
    (t0 now : Z) (userID : string) (u : Models.User.t) (rest : list Models.User.t)
    (Hissued : t0 <= now)
    (Hlive : now < t0 + ServiceImproved.refreshTime s)
    (Hpositive : 0 < ServiceImproved.jwtExpiry s)
    (Hfaults : Storage.faults d = [])
    (Huser : Storage.UsersRepository.select_user_by_id userID d = u :: rest) :
  exists r,
    ServiceImproved.RefreshToken rel s d now
      (snd (fst (ServiceImproved.generateTokenPair s t0 userID))) = (Ok r, d)
    /\ UserID r = userID
    /\ ExpiresAt r = now + ServiceImproved.jwtExpiry s
    /\ ServiceImproved.VerifyToken rel s now (Token r) = Ok userID.
Proof.
  destruct (fresh_window t0 now _ Hissued Hlive) as [He Hi].
  rewrite ServiceImproved_generateTokenPair_eq. cbn [fst snd].
  rewrite (ServiceImproved_RefreshToken_resolves rel s d t0 now _ userID He Hi Hfaults), Huser.
  rewrite ServiceImproved_generateTokenPair_eq.
  eexists. split; [reflexivity|]. cbn [UserID ExpiresAt Token].
  split; [reflexivity|]. split; [reflexivity|].
  assert (Hnow : now <= now) by lia.
  assert (Hacc : now < now + ServiceImproved.jwtExpiry s) by lia.
  pose proof (proj2 (proj1 (token_pair_round_trip rel now now userID Hnow) s) Hacc) as Hv.
  rewrite ServiceImproved_generateTokenPair_eq in Hv. exact Hv.
Qed.

Lemma refresh_then_verify_witness :
  1000 <= 2000
  /\ 2000 < 1000 + ServiceImproved.refreshTime improved0
  /\ 0 < ServiceImproved.jwtExpiry improved0
  /\ Storage.faults users_db = []
  /\ Storage.UsersRepository.select_user_by_id "user-1" users_db = [user1]
  /\ exists r,
       ServiceImproved.RefreshToken Jwt.SignatureFirst improved0 users_db 2000
         (snd (fst (ServiceImproved.generateTokenPair improved0 1000 "user-1"))) = (Ok r, users_db)
       /\ ServiceImproved.VerifyToken Jwt.SignatureFirst improved0 2000 (Token r) = Ok "user-1".
Proof.
  assert (H1 : 1000 <= 2000) by discriminate.
  assert (H2 : 2000 < 1000 + ServiceImproved.refreshTime improved0) by reflexivity.
  assert (H3 : 0 < ServiceImproved.jwtExpiry improved0) by reflexivity.
  assert (H4 : Storage.faults users_db = []) by reflexivity.
  assert (H5 : Storage.UsersRepository.select_user_by_id "user-1" users_db = [user1])
    by reflexivity.
  split; [exact H1|]. split; [exact H2|]. split; [exact H3|]. split; [exact H4|].
  split; [exact H5|].
  destruct (refresh_then_verify Jwt.SignatureFirst improved0 users_db 1000 2000 "user-1"
              user1 [] H1 H2 H3 H4 H5) as (r & Hr & _ & _ & Hv).
  exists r. split; [exact Hr | exact Hv].
Defined.

(** ** Accounts *)

Section TableUpdates.
Context {A : Type} `{EqDecision A}.

(** The rows an UPDATE ... WHERE p selects afterwards, when the update
    does not move rows in or out of the selection. *)
Lemma filter_update (p : A -> bool) (f : A -> A) (l : list A) :
  (forall r, p (f r) = p r) ->
  List.filter p (map (fun r => if p r then f r else r) l) = map f (List.filter p l).
Proof.
  intros Hp. induction l as [|x r IH]; [reflexivity|]. cbn.
  destruct (p x) eqn:Hx.
  - rewrite Hp, Hx. cbn. by rewrite IH.
  - rewrite Hx. exact IH.
Qed.

(** Rows outside the selection of another predicate are untouched. *)
Lemma filter_update_other (p q : A -> bool) (f : A -> A) (l : list A) :
  (forall r, q (f r) = q r) ->
  (forall r, q r = true -> p r = false) ->
  List.filter q (map (fun r => if p r then f r else r) l) = List.filter q l.
Proof.
  intros Hq Hdisj. induction l as [|x r IH]; [reflexivity|]. cbn.
  destruct (p x) eqn:Hx.
  - rewrite Hq. destruct (q x) eqn:Hqx; [by rewrite (Hdisj x Hqx) in Hx|exact IH].
  - destruct (q x); by rewrite IH.
Qed.

Lemma rows_changed_pos (p : A -> bool) (f : A -> A) (l : list A) (u : A) :
  In u l -> p u = true -> f u <> u -> (rows_changed p f l =? 0) = false.
Proof.
  intros Hin Hp Hne. apply Z.eqb_neq. unfold rows_changed.
  assert (Hin' : In u (List.filter (fun r => p r && negb (bool_decide (f r = r))) l)).
  { apply List.filter_In. split; [exact Hin|]. rewrite Hp. cbn.
    by rewrite bool_decide_eq_false_2. }
  destruct (List.filter _ l); [destruct Hin'|]. cbn [length]. lia.
Qed.

Lemma rows_changed_none (p : A -> bool) (f : A -> A) (l : list A) :
  (forall r, In r l -> p r = true -> f r = r) -> rows_changed p f l = 0.
Proof.
  intros Hsame. unfold rows_changed.
  replace (List.filter (fun r => p r && negb (bool_decide (f r = r))) l) with (@nil A);
    [reflexivity|].
  symmetry. induction l as [|x r IH]; [reflexivity|]. cbn.
  destruct (p x) eqn:Hx; cbn.
  - rewrite bool_decide_eq_true_2 by (apply Hsame; [by left|exact Hx]). cbn.
    apply IH. intros y Hy. apply Hsame. by right.
  - apply IH. intros y Hy. apply Hsame. by right.
Qed.

Lemma map_update_same (p : A -> bool) (f : A -> A) (l : list A) :
  (forall r, In r l -> p r = true -> f r = r) ->
  map (fun r => if p r then f r else r) l = l.
Proof.
  intros Hsame. induction l as [|x r IH]; [reflexivity|]. cbn.
  rewrite IH by (intros y Hy; apply Hsame; by right).
  destruct (p x) eqn:Hx; [|reflexivity]. rewrite Hsame; [reflexivity|by left|exact Hx].
Qed.
End TableUpdates.

Lemma head_filter_In {A : Type} (p : A -> bool) (l : list A) (u : A) (rest : list A) :
  List.filter p l = u :: rest -> In u l /\ p u = true.
Proof.
  intros H. apply List.filter_In. rewrite H. by left.
Qed.

Lemma filter_nil_existsb {A : Type} (p : A -> bool) (l : list A) :
  List.filter p l = [] <-> existsb p l = false.
Proof.
  induction l as [|x r IH]; [tauto|]. cbn. destruct (p x); cbn; [|exact IH].
  split; discriminate.
Qed.

Section ServiceAccountsProperties.
Import Models.
Variables (b : Bcrypt) (c : Collation) (s : Service.t).

(** X6. Registering an email that already has a row, that is, an email
    the collation of the users table equates with the email of a row,
    fails with ErrUserExists and leaves the database as it was. *)
Theorem RegisterUser_existing_email (d : Storage.DB) (salt uuid : string) (now : Z)
    (creds : Credentials.t) (firstName lastName : string) (u : User.t) (rest : list User.t) :
  Storage.faults d = [] ->
  UsersRepositoryOps.select_user_by_email c (Credentials.Email creds) d = u :: rest ->
  ServiceAccounts.RegisterUser b c d salt uuid now creds firstName lastName
  = (Err auth_ErrUserExists, d).
Proof.
  intros Hf Hsel. unfold ServiceAccounts.RegisterUser.
  rewrite QueryRow_no_fault by exact Hf. unfold ServiceAccounts.select_exists_email.
  destruct (existsb _ (Storage.users d)) eqn:Hex; [reflexivity|].
  apply filter_nil_existsb in Hex. unfold UsersRepositoryOps.select_user_by_email in Hsel.
  rewrite Hex in Hsel. discriminate.
Qed.

(** X7. Authenticate is decided by the first row whose email the
    collation of the users table equates with the one given.  No such
    row and a wrong password get the same answer,
    ErrInvalidCredentials, and no token, and nothing is written, in
    the part_005 service and in ServiceImproved alike; with such a row
    and the right password the part_005 service returns a token pair
    for that row's user, whatever the case the email was typed in. *)
Theorem Authenticate_failures_alike (d : Storage.DB) (now : Z) (creds : Credentials.t) :
  Storage.faults d = [] ->
  (UsersRepositoryOps.select_user_by_email c (Credentials.Email creds) d = [] ->
     ServiceAccounts.Authenticate b c s d now creds = (Err auth_ErrInvalidCredentials, d))
  /\ (forall u rest,
        UsersRepositoryOps.select_user_by_email c (Credentials.Email creds) d = u :: rest ->
        CompareHashAndPassword b (User.HashedPassword u) (Credentials.Password creds) = false ->
        ServiceAccounts.Authenticate b c s d now creds = (Err auth_ErrInvalidCredentials, d))
  /\ (forall u rest,
        UsersRepositoryOps.select_user_by_email c (Credentials.Email creds) d = u :: rest ->
        CompareHashAndPassword b (User.HashedPassword u) (Credentials.Password creds) = true ->
        exists resp,
          ServiceAccounts.Authenticate b c s d now creds
          = (Ok (resp, UserDetails.mk (User.ID u) (Credentials.Email creds) (User.FirstName u)
                         (User.LastName u) (User.Role u)), d)
          /\ UserID resp = User.ID u)
  /\ (forall si : ServiceImproved.t,
        (UsersRepositoryOps.select_user_by_email c (Credentials.Email creds) d = [] ->
           ServiceImprovedAccounts.Authenticate b c si d now creds
           = (Err auth_ErrInvalidCredentials, d))
        /\ (forall u rest,
              UsersRepositoryOps.select_user_by_email c (Credentials.Email creds) d = u :: rest ->
              CompareHashAndPassword b (User.HashedPassword u) (Credentials.Password creds)
              = false ->
              ServiceImprovedAccounts.Authenticate b c si d now creds
              = (Err auth_ErrInvalidCredentials, d))).
Proof.
  intros Hf.
  unfold ServiceAccounts.Authenticate, ServiceImprovedAccounts.Authenticate,
    UsersRepositoryOps.GetUserByEmail.
  rewrite QueryRow_no_fault by exact Hf.
  split; [|split; [|split; [|intros si; split]]].
  - intros ->. reflexivity.
  - intros u rest -> Hc. rewrite Hc. reflexivity.
  - intros u rest -> Hc. rewrite Hc. cbn [negb].
    rewrite Service_generateTokenPair_eq. eexists. split; reflexivity.
  - intros ->. reflexivity.
  - intros u rest -> Hc. rewrite Hc. reflexivity.
Qed.

(** X8. Register, then log in: with a hash that compares equal to the
    password it was made from, a registration under a new id of an
    email that the collation of the users table equates with the email
    of no row succeeds, adds exactly that user with role "user", and a
    following Authenticate with the same credentials returns a token
    pair for the new id whose access token, if access tokens live for
    a positive time, verifies to it. *)
Theorem register_then_authenticate (rel : Jwt.release) (d : Storage.DB) (salt uuid : string)
    (now now' : Z) (creds : Credentials.t) (firstName lastName hash : string) :
  bcrypt_correct b ->
  collation_reflexive c ->
  Storage.faults d = [] ->
  (forall x, In x (Storage.users d) ->
     User.ID x <> uuid /\ equates c (User.Email x) (Credentials.Email creds) = false) ->
  GenerateFromPassword b salt (Credentials.Password creds) = Ok hash ->
  0 < Service.jwtExpiry s ->
  exists d' resp,
    ServiceAccounts.RegisterUser b c d salt uuid now creds firstName lastName
    = (Ok (UserDetails.mk uuid (Credentials.Email creds) firstName lastName "user"), d')
    /\ Storage.users d'
       = (Storage.users d
            ++ [User.mk uuid (Credentials.Email creds) hash firstName lastName "user" now now])%list
    /\ ServiceAccounts.Authenticate b c s d' now' creds
       = (Ok (resp, UserDetails.mk uuid (Credentials.Email creds) firstName lastName "user"), d')
    /\ UserID resp = uuid
    /\ Service.VerifyToken rel s now' (Token resp) = Ok uuid.
Proof.
  intros Hb Hrefl Hf Hfresh Hgen Hpos.
  set (new := User.mk uuid (Credentials.Email creds) hash firstName lastName "user" now now).
  assert (Hex : existsb (fun u => equates c (User.Email u) (Credentials.Email creds))
                  (Storage.users d) = false).
  { clear -Hfresh. induction (Storage.users d) as [|x r IH]; [reflexivity|]. cbn.
    rewrite (proj2 (Hfresh x (or_introl eq_refl))). cbn.
    apply IH. intros y Hy. apply Hfresh. by right. }
  assert (Hnone : List.filter (fun u => equates c (User.Email u) (Credentials.Email creds))
                    (Storage.users d) = []) by by apply filter_nil_existsb.
  assert (Hdup : existsb (fun x => streq (User.ID x) (User.ID new)
                                   || equates c (User.Email x) (User.Email new))
                   (Storage.users d) = false).
  { clear -Hfresh. induction (Storage.users d) as [|x r IH]; [reflexivity|]. cbn.
    destruct (Hfresh x (or_introl eq_refl)) as [H1 H2].
    rewrite (proj2 (streq_false _ _) H1), H2. cbn.
    apply IH. intros y Hy. apply Hfresh. by right. }
  eexists (set_users d (Storage.users d ++ [new])%list), _.
  assert (Hreg : ServiceAccounts.RegisterUser b c d salt uuid now creds firstName lastName
                 = (Ok (UserDetails.mk uuid (Credentials.Email creds) firstName lastName "user"),
                    set_users d (Storage.users d ++ [new])%list)).
  { unfold ServiceAccounts.RegisterUser.
    rewrite QueryRow_no_fault by exact Hf. unfold ServiceAccounts.select_exists_email.
    rewrite Hex, Hgen. rewrite Exec_no_fault by exact Hf.
    unfold ServiceAccounts.stmt_insert_user. fold new. rewrite Hdup. reflexivity. }
  split; [exact Hreg|]. split; [reflexivity|].
  assert (Hauth : ServiceAccounts.Authenticate b c s
                    (set_users d (Storage.users d ++ [new])%list) now' creds
                  = (Ok (mkTokenResponse
                           (fst (fst (Service.generateTokenPair s now' uuid)))
                           (snd (fst (Service.generateTokenPair s now' uuid)))
                           (snd (Service.generateTokenPair s now' uuid)) uuid,
                         UserDetails.mk uuid (Credentials.Email creds) firstName lastName
                           "user"),
                     set_users d (Storage.users d ++ [new])%list)).
  { unfold ServiceAccounts.Authenticate.
    rewrite QueryRow_no_fault by exact Hf.
    unfold UsersRepositoryOps.select_user_by_email. cbn [Storage.users set_users].
    rewrite List.filter_app, Hnone. unfold new. cbn. rewrite Hrefl. cbn.
    rewrite (Hb salt _ hash Hgen). reflexivity. }
  split; [exact Hauth|]. cbn [UserID Token]. split; [reflexivity|].
  assert (Hnow : now' <= now') by lia.
  assert (Hacc : now' < now' + Service.jwtExpiry s) by lia.
  exact (proj1 (proj2 (proj2 (token_pair_round_trip rel now' now' uuid Hnow) s)) Hacc).
Qed.
End ServiceAccountsProperties.

Lemma toy_bcrypt_correct : bcrypt_correct toy_bcrypt.
Proof. intros salt password hash [= <-]. apply streq_refl. Qed.

Lemma ascii_ci_reflexive : collation_reflexive ascii_ci.
Proof. intros a. apply streq_refl. Qed.

(** Registering Ann's address once more, in another case. *)
Lemma RegisterUser_existing_email_witness :
  Storage.faults users_db = []
  /\ UsersRepositoryOps.select_user_by_email ascii_ci (Credentials.Email ann_shouting) users_db
     = [user1]
  /\ ServiceAccounts.RegisterUser toy_bcrypt ascii_ci users_db "salt" "user-2" 20 ann_shouting
       "Ann" "Lee"
     = (Err auth_ErrUserExists, users_db).
Proof.
  assert (H1 : Storage.faults users_db = []) by reflexivity.
  assert (H2 : UsersRepositoryOps.select_user_by_email ascii_ci
                 (Credentials.Email ann_shouting) users_db = [user1]) by reflexivity.
  split; [exact H1|]. split; [exact H2|].
  exact (RegisterUser_existing_email toy_bcrypt ascii_ci users_db "salt" "user-2" 20
           ann_shouting "Ann" "Lee" user1 [] H1 H2).
Defined.

(** An unknown address and a wrong password are refused alike; Ann's
    address in another case, with her password, is let in as user-1. *)
Lemma Authenticate_failures_alike_witness :
  Storage.faults users_db = []
  /\ UsersRepositoryOps.select_user_by_email ascii_ci (Credentials.Email bob_creds) users_db
     = []
  /\ ServiceAccounts.Authenticate toy_bcrypt ascii_ci service0 users_db 20 bob_creds
     = (Err auth_ErrInvalidCredentials, users_db)
  /\ ServiceAccounts.Authenticate toy_bcrypt ascii_ci service0 users_db 20
       (Credentials.mk "ann@example.org" "guess")
     = (Err auth_ErrInvalidCredentials, users_db)
  /\ exists resp,
       ServiceAccounts.Authenticate toy_bcrypt ascii_ci service0 users_db 20 ann_shouting
       = (Ok (resp, UserDetails.mk "user-1" "ANN@Example.org" "Ann" "Lee" "user"), users_db)
       /\ UserID resp = "user-1".
Proof.
  assert (H1 : Storage.faults users_db = []) by reflexivity.
  assert (H2 : UsersRepositoryOps.select_user_by_email ascii_ci (Credentials.Email bob_creds)
                 users_db = []) by reflexivity.
  split; [exact H1|]. split; [exact H2|]. split; [|split].
  - exact (proj1 (Authenticate_failures_alike toy_bcrypt ascii_ci service0 users_db 20
                    bob_creds H1) H2).
  - exact (proj1 (proj2 (Authenticate_failures_alike toy_bcrypt ascii_ci service0 users_db 20
                           (Credentials.mk "ann@example.org" "guess") H1))
             user1 [] eq_refl eq_refl).
  - exact (proj1 (proj2 (proj2 (Authenticate_failures_alike toy_bcrypt ascii_ci service0
                                  users_db 20 ann_shouting H1)))
             user1 [] eq_refl eq_refl).
Defined.

Lemma register_then_authenticate_witness :
  bcrypt_correct toy_bcrypt
  /\ collation_reflexive ascii_ci
  /\ Storage.faults users_db = []
  /\ (forall x, In x (Storage.users users_db) ->
        Models.User.ID x <> "user-2"
        /\ equates ascii_ci (Models.User.Email x) (Credentials.Email bob_creds) = false)
  /\ GenerateFromPassword toy_bcrypt "salt" (Credentials.Password bob_creds) = Ok "pw-bob"
  /\ 0 < Service.jwtExpiry service0
  /\ exists d' resp,
       ServiceAccounts.RegisterUser toy_bcrypt ascii_ci users_db "salt" "user-2" 20 bob_creds
         "Bob" "Ray"
       = (Ok (UserDetails.mk "user-2" "bob@example.org" "Bob" "Ray" "user"), d')
       /\ fst (ServiceAccounts.Authenticate toy_bcrypt ascii_ci service0 d' 30 bob_creds)
          = Ok (resp, UserDetails.mk "user-2" "bob@example.org" "Bob" "Ray" "user")
       /\ Service.VerifyToken Jwt.SignatureFirst service0 30 (Token resp) = Ok "user-2".
Proof.
  assert (H1 : Storage.faults users_db = []) by reflexivity.
  assert (H2 : forall x, In x (Storage.users users_db) ->
                 Models.User.ID x <> "user-2"
                 /\ equates ascii_ci (Models.User.Email x) (Credentials.Email bob_creds)
                    = false).
  { intros x [<- | []]. split; [discriminate|reflexivity]. }
  assert (H3 : GenerateFromPassword toy_bcrypt "salt" (Credentials.Password bob_creds)
               = Ok "pw-bob") by reflexivity.
  assert (H4 : 0 < Service.jwtExpiry service0) by reflexivity.
  split; [exact toy_bcrypt_correct|]. split; [exact ascii_ci_reflexive|].
  split; [exact H1|]. split; [exact H2|]. split; [exact H3|]. split; [exact H4|].
  destruct (register_then_authenticate toy_bcrypt ascii_ci service0 Jwt.SignatureFirst users_db
              "salt" "user-2" 20 30 bob_creds "Bob" "Ray" "pw-bob"
              toy_bcrypt_correct ascii_ci_reflexive H1 H2 H3 H4)
    as (d' & resp & Hreg & _ & Hauth & _ & Hver).
  exists d', resp. split; [exact Hreg|]. split; [by rewrite Hauth|exact Hver].
Defined.

Section PasswordAndProfile.
Import Models.
Variable b : Bcrypt.

Lemma GetUserByID_no_fault (d : Storage.DB) (userID : string) :
  Storage.faults d = [] ->
  Storage.UsersRepository.GetUserByID d userID =
  (match Storage.UsersRepository.select_user_by_id userID d with
   | [] => Err storage_ErrUserNotFound
   | u :: _ => Ok u
   end, d).
Proof.
  intros Hf. unfold Storage.UsersRepository.GetUserByID.
  rewrite QueryRow_no_fault by exact Hf.
  destruct (Storage.UsersRepository.select_user_by_id userID d); reflexivity.
Qed.

(** UpdateUserPassword refuses a wrong current password with
    ErrInvalidCredentials and an unknown user with ErrUserNotFound,
    and in both cases writes nothing. *)
Theorem UpdateUserPassword_refusals (d : Storage.DB) (salt : string) (now : Z)
    (userID currentPassword newPassword : string) :
  Storage.faults d = [] ->
  (Storage.UsersRepository.select_user_by_id userID d = [] ->
     ServiceImprovedAccounts.UpdateUserPassword b d salt now userID currentPassword newPassword
     = (Err auth_ErrUserNotFound, d))
  /\ (forall u rest,
        Storage.UsersRepository.select_user_by_id userID d = u :: rest ->
        CompareHashAndPassword b (User.HashedPassword u) currentPassword = false ->
        ServiceImprovedAccounts.UpdateUserPassword b d salt now userID currentPassword
          newPassword
        = (Err auth_ErrInvalidCredentials, d)).
Proof.
  intros Hf. unfold ServiceImprovedAccounts.UpdateUserPassword.
  rewrite GetUserByID_no_fault by exact Hf. split.
  - intros ->. reflexivity.
  - intros u rest -> Hc. rewrite Hc. reflexivity.
Qed.

(** X9. A password change that goes through replaces the hash of the rows
    with that id and of no other row: afterwards GetUserByID returns
    the same user with the new hash, which compares equal to the new
    password, and every other id reads as before. *)
Theorem UpdateUserPassword_changes_hash (d : Storage.DB) (salt : string) (now : Z)
    (userID currentPassword newPassword hash : string) (u : User.t) (rest : list User.t) :
  bcrypt_correct b ->
  Storage.faults d = [] ->
  Storage.UsersRepository.select_user_by_id userID d = u :: rest ->
  CompareHashAndPassword b (User.HashedPassword u) currentPassword = true ->
  GenerateFromPassword b salt newPassword = Ok hash ->
  User.UpdatedAt u <> now ->
  exists d',
    ServiceImprovedAccounts.UpdateUserPassword b d salt now userID currentPassword newPassword
    = (Ok tt, d')
    /\ Storage.UsersRepository.GetUserByID d' userID
       = (Ok (UsersRepositoryOps.with_password hash now u), d')
    /\ CompareHashAndPassword b
         (User.HashedPassword (UsersRepositoryOps.with_password hash now u)) newPassword = true
    /\ (forall other, other <> userID ->
          Storage.UsersRepository.select_user_by_id other d'
          = Storage.UsersRepository.select_user_by_id other d).
Proof.
  intros Hb Hf Hsel Hc Hgen Hts.
  destruct (head_filter_In _ _ _ _ Hsel) as [Hin Hid].
  unfold ServiceImprovedAccounts.UpdateUserPassword.
  rewrite GetUserByID_no_fault by exact Hf. rewrite Hsel, Hc, Hgen. cbn [negb].
  unfold UsersRepositoryOps.UpdatePassword. rewrite Exec_no_fault by exact Hf.
  unfold UsersRepositoryOps.stmt_update_password. cbn zeta.
  rewrite (rows_changed_pos _ _ _ u Hin Hid)
    by (intros Heq; apply Hts; by rewrite <- Heq).
  eexists. split; [reflexivity|]. split; [|split].
  - rewrite GetUserByID_no_fault by exact Hf.
    unfold Storage.UsersRepository.select_user_by_id. cbn [Storage.users set_users].
    rewrite filter_update by reflexivity.
    unfold Storage.UsersRepository.select_user_by_id in Hsel. rewrite Hsel. reflexivity.
  - cbn. by apply (Hb salt).
  - intros other Hother. unfold Storage.UsersRepository.select_user_by_id.
    cbn [Storage.users set_users]. apply filter_update_other; [reflexivity|].
    intros r Hr. apply streq_true in Hr. apply streq_false. congruence.
Qed.

(** X10. UpdateUserProfile changes the two names and the update time of the
    user and nothing else: id, email, role, password hash and creation
    time are kept. *)
Theorem UpdateUserProfile_keeps_identity (d : Storage.DB) (now : Z)
    (userID firstName lastName : string) (u : User.t) (rest : list User.t) :
  Storage.faults d = [] ->
  Storage.UsersRepository.select_user_by_id userID d = u :: rest ->
  User.UpdatedAt u <> now ->
  exists d',
    ServiceImprovedAccounts.UpdateUserProfile d now userID firstName lastName
    = (Ok (UserDetails.mk userID (User.Email u) firstName lastName (User.Role u)), d')
    /\ Storage.UsersRepository.GetUserByID d' userID
       = (Ok (User.mk userID (User.Email u) (User.HashedPassword u) firstName lastName
                (User.Role u) (User.CreatedAt u) now), d').
Proof.
  intros Hf Hsel Hts.
  destruct (head_filter_In _ _ _ _ Hsel) as [Hin Hid].
  assert (Hu : User.ID u = userID) by by apply streq_true.
  unfold ServiceImprovedAccounts.UpdateUserProfile.
  rewrite GetUserByID_no_fault by exact Hf. rewrite Hsel.
  unfold UsersRepositoryOps.UpdateUser. rewrite Exec_no_fault by exact Hf.
  unfold UsersRepositoryOps.stmt_update_user. cbn zeta. cbn [User.ID].
  rewrite Hu.
  rewrite (rows_changed_pos _ _ _ u Hin Hid)
    by (intros Heq; apply Hts; by rewrite <- Heq).
  eexists. split; [reflexivity|].
  rewrite GetUserByID_no_fault by exact Hf.
  unfold Storage.UsersRepository.select_user_by_id. cbn [Storage.users set_users].
  rewrite filter_update by reflexivity.
  unfold Storage.UsersRepository.select_user_by_id in Hsel. rewrite Hsel.
  cbn. unfold UsersRepositoryOps.with_profile. cbn. rewrite Hu. reflexivity.
Qed.

(** X11. Saving a profile that changes nothing, in the second of the row's
    last update, fails with the repository's ErrUserNotFound although
    the user exists: no row counts as affected. *)
Theorem UpdateUserProfile_unchanged_is_not_found (d : Storage.DB) (now : Z)
    (userID : string) (u : User.t) :
  Storage.faults d = [] ->
  Storage.UsersRepository.select_user_by_id userID d = [u] ->
  User.UpdatedAt u = now ->
  ServiceImprovedAccounts.UpdateUserProfile d now userID (User.FirstName u) (User.LastName u)
  = (Err storage_ErrUserNotFound, d).
Proof.
  intros Hf Hsel Hts.
  destruct (head_filter_In _ _ _ _ Hsel) as [Hin Hid].
  assert (Hu : User.ID u = userID) by by apply streq_true.
  assert (Hsame : forall r, In r (Storage.users d) ->
                    streq (User.ID r) userID = true ->
                    UsersRepositoryOps.with_profile
                      (User.mk (User.ID u) (User.Email u) (User.HashedPassword u)
                         (User.FirstName u) (User.LastName u) (User.Role u)
                         (User.CreatedAt u) now) now r = r).
  { intros r Hr Hp.
    assert (Hru : In r [u]).
    { rewrite <- Hsel. apply List.filter_In. auto. }
    destruct Hru as [<- | []]. destruct u. cbn in *. by subst. }
  unfold ServiceImprovedAccounts.UpdateUserProfile.
  rewrite GetUserByID_no_fault by exact Hf. rewrite Hsel.
  unfold UsersRepositoryOps.UpdateUser. rewrite Exec_no_fault by exact Hf.
  unfold UsersRepositoryOps.stmt_update_user. cbn zeta. cbn [User.ID]. rewrite Hu.
  rewrite rows_changed_none by exact Hsame.
  rewrite map_update_same by exact Hsame. cbn.
  destruct d. reflexivity.
Qed.
End PasswordAndProfile.

(** ** The quota ledger *)

Section LedgerProperties.
Import Models.

Lemma Increment_same_text :
  Storage.SecretCountRepository.IncrementSecretsCount
  = Storage.SecretsRepository.incrementSecretsCount
  /\ Storage.SecretCountRepository.DecrementSecretsCount
     = Storage.SecretsRepository.decrementSecretsCount.
Proof. split; reflexivity. Qed.

Lemma Exec_head (d : Storage.DB) (stmt : Storage.DB -> result (Z * Storage.DB))
    (f : option string) (fs : list (option string)) :
  Storage.faults d = f :: fs ->
  Storage.Exec d stmt =
  match f with
  | Some msg => (Err (sql_DriverError msg), Storage.set_faults d fs)
  | None =>
      match stmt (Storage.set_faults d fs) with
      | Ok (n, d') => (Ok n, d')
      | Err e => (Err e, Storage.set_faults d fs)
      end
  end.
Proof.
  intros Hf. unfold Storage.Exec, Storage.roundtrip. rewrite Hf. destruct f; reflexivity.
Qed.


(** The counts of the other organizations after an UPDATE of one
    organization's usage rows. *)
Lemma counts_of_others (orgID other : string) (g : Storage.UsageStatistics.t -> Z)
    (h : Storage.UsageStatistics.t -> Z) (now : Z) (l : list Storage.UsageStatistics.t) :
  other <> orgID ->
  List.filter (fun r => streq (Storage.UsageStatistics.organization_id r) other)
    (map (fun r =>
            if streq (Storage.UsageStatistics.organization_id r) orgID
            then Storage.UsageStatistics.mk (Storage.UsageStatistics.id r)
                   (Storage.UsageStatistics.organization_id r) (g r) (h r) now
            else r) l)
  = List.filter (fun r => streq (Storage.UsageStatistics.organization_id r) other) l.
Proof.
  intros Hne.
  apply (filter_update_other
           (fun r => streq (Storage.UsageStatistics.organization_id r) orgID)
           (fun r => streq (Storage.UsageStatistics.organization_id r) other)
           (fun r => Storage.UsageStatistics.mk (Storage.UsageStatistics.id r)
                       (Storage.UsageStatistics.organization_id r) (g r) (h r) now)).
  - reflexivity.
  - intros r Hr. apply streq_true in Hr. apply streq_false. congruence.
Qed.

End LedgerProperties.

Section LedgerRoundTrips.
Import Models.

(** X13. Increment, then decrement: the count is back where it was, for a
    count that was not negative; straight after the increment it is
    one higher. *)
Theorem increment_then_decrement (d : Storage.DB) (uuid : string) (now now' : Z)
    (orgID : string) :
  Storage.faults d = [] ->
  (forall x, In x (Storage.usage_statistics d) -> Storage.UsageStatistics.id x <> uuid) ->
  0 <= count_of orgID d ->
  exists d1 d2,
    Storage.SecretCountRepository.IncrementSecretsCount d uuid now orgID = (Ok tt, d1)
    /\ Storage.SecretCountRepository.GetSecretsCount d1 orgID = (Ok (count_of orgID d + 1), d1)
    /\ Storage.SecretCountRepository.DecrementSecretsCount d1 now' orgID = (Ok tt, d2)
    /\ Storage.SecretCountRepository.GetSecretsCount d2 orgID = (Ok (count_of orgID d), d2).
Proof.
  intros Hf Hfresh Hpos.
  destruct (incrementSecretsCount_effect d uuid now orgID Hf Hfresh)
    as (d1 & Hinc & Hf1 & Hc1 & _).
  destruct (decrementSecretsCount_effect d1 now' orgID Hf1) as (d2 & Hdec & Hf2 & Hc2 & _).
  exists d1, d2. split; [exact Hinc|]. split.
  - rewrite (proj1 (GetSecretsCount_no_fault d1 orgID Hf1)). by rewrite Hc1.
  - split; [exact Hdec|].
    rewrite (proj1 (GetSecretsCount_no_fault d2 orgID Hf2)). rewrite Hc2, Hc1.
    do 2 f_equal. lia.
Qed.

(** A decrement for an organization without a usage row creates none:
    the count stays 0, so decrementing and then incrementing ends at 1. *)
Theorem decrement_without_row (d : Storage.DB) (uuid : string) (now now' : Z)
    (orgID : string) :
  Storage.faults d = [] ->
  (forall x, In x (Storage.usage_statistics d) -> Storage.UsageStatistics.id x <> uuid) ->
  Storage.select_secret_count orgID d = [] ->
  exists d1 d2,
    Storage.SecretCountRepository.DecrementSecretsCount d now orgID = (Ok tt, d1)
    /\ Storage.select_secret_count orgID d1 = []
    /\ Storage.SecretCountRepository.IncrementSecretsCount d1 uuid now' orgID = (Ok tt, d2)
    /\ Storage.SecretCountRepository.GetSecretsCount d2 orgID = (Ok 1, d2).
Proof.
  intros Hf Hfresh Hnone.
  assert (Hrows : List.filter (fun r => streq (Storage.UsageStatistics.organization_id r) orgID)
                    (Storage.usage_statistics d) = []).
  { unfold Storage.select_secret_count in Hnone.
    destruct (List.filter _ (Storage.usage_statistics d)); [reflexivity|discriminate]. }
  destruct (decrementSecretsCount_effect d now orgID Hf) as (d1 & Hdec & Hf1 & Hc1 & _).
  assert (Hd1 : d1 = Storage.set_usage_statistics d
                       (map (fun r =>
                               if streq (Storage.UsageStatistics.organization_id r) orgID
                               then Storage.UsageStatistics.mk (Storage.UsageStatistics.id r)
                                      (Storage.UsageStatistics.organization_id r)
                                      (Z.max 0 (Storage.UsageStatistics.secret_count r - 1))
                                      (Storage.UsageStatistics.api_calls r) now
                               else r) (Storage.usage_statistics d))).
  { revert Hdec. unfold Storage.SecretsRepository.decrementSecretsCount.
    rewrite Exec_no_fault by exact Hf. cbn. by intros [= <-]. }
  destruct (counts_after_update orgID (fun c => Z.max 0 (c - 1)) now (Storage.usage_statistics d))
    as [Hcounts Hids]. cbn zeta in Hcounts, Hids.
  assert (Hnone1 : Storage.select_secret_count orgID d1 = []).
  { rewrite Hd1. unfold Storage.select_secret_count.
    cbn [Storage.usage_statistics Storage.set_usage_statistics].
    rewrite Hcounts, Hrows. reflexivity. }
  assert (Hfresh1 : forall x, In x (Storage.usage_statistics d1) ->
                      Storage.UsageStatistics.id x <> uuid).
  { rewrite Hd1. cbn [Storage.usage_statistics Storage.set_usage_statistics].
    by apply (In_map_id_fresh uuid (Storage.usage_statistics d)). }
  destruct (incrementSecretsCount_effect d1 uuid now' orgID Hf1 Hfresh1)
    as (d2 & Hinc & Hf2 & Hc2 & _).
  exists d1, d2. split; [exact Hdec|]. split; [exact Hnone1|]. split; [exact Hinc|].
  rewrite (proj1 (GetSecretsCount_no_fault d2 orgID Hf2)). rewrite Hc2.
  unfold count_of. rewrite Hnone1. reflexivity.
Qed.

Lemma GetUsageStatistics_no_fault (d : Storage.DB) (orgID : string) :
  Storage.faults d = [] ->
  SecretCountRepositoryOps.GetUsageStatistics d orgID =
  (Ok (match SecretCountRepositoryOps.select_usage orgID d with
       | [] => (0, 0)
       | c :: _ => c
       end), d).
Proof.
  intros Hf. unfold SecretCountRepositoryOps.GetUsageStatistics.
  rewrite QueryRow_no_fault by exact Hf.
  destruct (SecretCountRepositoryOps.select_usage orgID d); reflexivity.
Qed.

(** X14. Counting an API call raises api_calls by one and leaves
    secret_count alone; for an organization without a usage row it
    creates the row with no secrets and one call. *)
Theorem IncrementAPICallCount_effect (d : Storage.DB) (uuid : string) (now : Z)
    (orgID : string) (secrets calls : Z) :
  Storage.faults d = [] ->
  (forall x, In x (Storage.usage_statistics d) -> Storage.UsageStatistics.id x <> uuid) ->
  fst (SecretCountRepositoryOps.GetUsageStatistics d orgID) = Ok (secrets, calls) ->
  exists d',
    SecretCountRepositoryOps.IncrementAPICallCount d uuid now orgID = (Ok tt, d')
    /\ SecretCountRepositoryOps.GetUsageStatistics d' orgID = (Ok (secrets, calls + 1), d')
    /\ Storage.secret_metadata d' = Storage.secret_metadata d
    /\ Storage.subscriptions d' = Storage.subscriptions d.
Proof.
  intros Hf Hfresh Hbefore.
  rewrite GetUsageStatistics_no_fault in Hbefore by exact Hf. cbn [fst] in Hbefore.
  unfold SecretCountRepositoryOps.IncrementAPICallCount.
  rewrite Exec_no_fault by exact Hf.
  unfold SecretCountRepositoryOps.stmt_increment_api, Storage.update_where.
  set (p := fun r => streq (Storage.UsageStatistics.organization_id r) orgID) in *.
  set (f := fun r => Storage.UsageStatistics.mk (Storage.UsageStatistics.id r)
                       (Storage.UsageStatistics.organization_id r)
                       (Storage.UsageStatistics.secret_count r)
                       (Storage.UsageStatistics.api_calls r + 1) now).
  assert (Hsel : List.filter p (map (fun r => if p r then f r else r)
                                    (Storage.usage_statistics d))
                 = map f (List.filter p (Storage.usage_statistics d)))
    by (by apply filter_update).
  assert (Hids : map Storage.UsageStatistics.id
                   (map (fun r => if p r then f r else r) (Storage.usage_statistics d))
                 = map Storage.UsageStatistics.id (Storage.usage_statistics d)).
  { rewrite map_map. apply map_ext. intros r. by destruct (p r). }
  unfold SecretCountRepositoryOps.select_usage in Hbefore. fold p in Hbefore.
  destruct (List.filter p (Storage.usage_statistics d)) as [|r0 rs] eqn:Hrows.
  - cbn [length Z.of_nat Z.eqb]. injection Hbefore as <- <-.
    rewrite Exec_no_fault by exact Hf.
    unfold SecretCountRepositoryOps.stmt_insert_api_stats, Storage.insert_row.
    cbn [Storage.usage_statistics Storage.set_usage_statistics Storage.UsageStatistics.id].
    rewrite (existsb_fresh Storage.UsageStatistics.id uuid)
      by (apply (In_map_id_fresh uuid (Storage.usage_statistics d)); assumption).
    eexists. split; [reflexivity|]. split; [|split; reflexivity].
    rewrite GetUsageStatistics_no_fault by exact Hf.
    unfold SecretCountRepositoryOps.select_usage.
    cbn [Storage.usage_statistics Storage.set_usage_statistics].
    unfold p, f in Hsel. rewrite List.filter_app, Hsel. cbn. rewrite streq_refl. reflexivity.
  - assert (Hz : (Z.of_nat (length (r0 :: rs)) =? 0) = false)
      by (apply Z.eqb_neq; cbn [length]; lia).
    rewrite Hz. cbn in Hbefore. injection Hbefore as <- <-.
    eexists. split; [reflexivity|]. split; [|split; reflexivity].
    rewrite GetUsageStatistics_no_fault by exact Hf.
    unfold SecretCountRepositoryOps.select_usage.
    cbn [Storage.usage_statistics Storage.set_usage_statistics].
    unfold p, f in Hsel. rewrite Hsel. reflexivity.
Qed.
End LedgerRoundTrips.

(** ** The metadata catalog *)

Section CatalogProperties.
Import Models.

Lemma CountOrganizationSecrets_no_fault (d : Storage.DB) (orgID : string) :
  Storage.faults d = [] ->
  OrganizationsRepositoryOps.CountOrganizationSecrets d orgID = (Ok (rows_of orgID d), d).
Proof.
  intros Hf. unfold OrganizationsRepositoryOps.CountOrganizationSecrets.
  rewrite QueryRow_no_fault by exact Hf. reflexivity.
Qed.

Lemma ledger_consistent_no_fault (d : Storage.DB) :
  Storage.faults d = [] ->
  (ledger_consistent d <-> forall orgID, count_of orgID d = rows_of orgID d).
Proof.
  intros Hf. unfold ledger_consistent.
  split; intros H orgID; specialize (H orgID);
    rewrite (proj2 (GetSecretsCount_no_fault d orgID Hf)) in *;
    rewrite CountOrganizationSecrets_no_fault in * by exact Hf;
    cbn [fst] in *; congruence.
Qed.

Lemma incrementSecretsCount_others (d : Storage.DB) (uuid : string) (now : Z)
    (orgID other : string) :
  Storage.faults d = [] -> other <> orgID ->
  count_of other (snd (Storage.SecretsRepository.incrementSecretsCount d uuid now orgID))
  = count_of other d.
Proof.
  intros Hf Hne. unfold Storage.SecretsRepository.incrementSecretsCount.
  rewrite Exec_no_fault by exact Hf.
  unfold Storage.stmt_increment, Storage.update_where.
  destruct (_ =? 0).
  - rewrite Exec_no_fault by exact Hf.
    unfold Storage.stmt_insert_stats, Storage.insert_row.
    destruct (existsb _ _); cbn [snd];
      unfold count_of, Storage.select_secret_count;
      cbn [Storage.usage_statistics Storage.set_usage_statistics];
      rewrite ?List.filter_app, counts_of_others by exact Hne; [reflexivity|].
    cbn. rewrite (proj2 (streq_false orgID other)) by congruence.
    by rewrite app_nil_r.
  - cbn [snd]. unfold count_of, Storage.select_secret_count.
    cbn [Storage.usage_statistics Storage.set_usage_statistics].
    by rewrite counts_of_others.
Qed.

Lemma decrementSecretsCount_others (d : Storage.DB) (now : Z) (orgID other : string) :
  Storage.faults d = [] -> other <> orgID ->
  count_of other (snd (Storage.SecretsRepository.decrementSecretsCount d now orgID))
  = count_of other d.
Proof.
  intros Hf Hne. unfold Storage.SecretsRepository.decrementSecretsCount.
  rewrite Exec_no_fault by exact Hf.
  unfold Storage.stmt_decrement, Storage.update_where. cbn [snd].
  unfold count_of, Storage.select_secret_count.
  cbn [Storage.usage_statistics Storage.set_usage_statistics].
  by rewrite counts_of_others.
Qed.

(** Deleting by a unique key removes exactly one of the rows a
    predicate selects, when the row with that key is among them, and
    none otherwise. *)
Lemma length_filter_delete (p : SecretMetadata.t -> bool) (m0 : SecretMetadata.t)
    (l : list SecretMetadata.t) :
  NoDup (map SecretMetadata.ID l) -> In m0 l ->
  Z.of_nat (length (List.filter p
                      (List.filter (fun x => negb (streq (SecretMetadata.ID x)
                                                     (SecretMetadata.ID m0))) l)))
  = Z.of_nat (length (List.filter p l)) - (if p m0 then 1 else 0).
Proof.
  induction l as [|x r IH]; [by intros _ []|].
  cbn [map]. intros Hnd Hin. apply NoDup_cons in Hnd as [Hx Hnd].
  destruct Hin as [->|Hin].
  - cbn [List.filter]. rewrite streq_refl. cbn [negb].
    assert (Hr : List.filter (fun x => negb (streq (SecretMetadata.ID x) (SecretMetadata.ID m0))) r
                 = r).
    { clear IH Hnd. induction r as [|y r IH]; [reflexivity|]. cbn [List.filter].
      rewrite (proj2 (streq_false (SecretMetadata.ID y) (SecretMetadata.ID m0))).
      - cbn [negb]. f_equal. apply IH. intros Hin. apply Hx.
        cbn [map]. apply elem_of_cons. by right.
      - intros Heq. apply Hx. cbn [map]. rewrite Heq. apply elem_of_cons. by left. }
    rewrite Hr. destruct (p m0); cbn [length]; lia.
  - cbn [List.filter].
    rewrite (proj2 (streq_false (SecretMetadata.ID x) (SecretMetadata.ID m0))).
    + cbn [negb List.filter]. specialize (IH Hnd Hin).
      destruct (p x); cbn [length]; lia.
    + intros Heq. apply Hx. rewrite Heq. apply list_elem_of_In. by apply in_map.
Qed.

Lemma count_of_set_secret_metadata (d : Storage.DB) (l : list SecretMetadata.t)
    (orgID : string) :
  count_of orgID (Storage.set_secret_metadata d l) = count_of orgID d.
Proof. reflexivity. Qed.

Lemma NoDup_map_filter (q : SecretMetadata.t -> bool) (l : list SecretMetadata.t) :
  NoDup (map SecretMetadata.ID l) -> NoDup (map SecretMetadata.ID (List.filter q l)).
Proof.
  induction l as [|x r IH]; [done|]. cbn [map List.filter].
  intros Hnd. apply NoDup_cons in Hnd as [Hx Hnd].
  destruct (q x); [|by apply IH]. cbn [map]. apply NoDup_cons. split; [|by apply IH].
  intros Hin. apply Hx. apply list_elem_of_In in Hin. apply list_elem_of_In.
  apply in_map_iff in Hin as (y & Hy & Hyin). apply List.filter_In in Hyin as [Hyin _].
  apply in_map_iff. by exists y.
Qed.

Lemma filter_unmatched (id : string) (l : list SecretMetadata.t) :
  (forall x, In x l -> SecretMetadata.ID x <> id) ->
  List.filter (fun x => negb (streq (SecretMetadata.ID x) id)) l = l.
Proof.
  induction l as [|x r IH]; [done|]. intros H. cbn [List.filter].
  rewrite (proj2 (streq_false (SecretMetadata.ID x) id)) by (apply H; by left).
  cbn [negb]. f_equal. apply IH. intros y Hy. apply H. by right.
Qed.

(** Without a fault the two statements of CreateSecretMetadata and of
    DeleteSecretMetadata come down to the counter update on the
    changed table. *)
Lemma CreateSecretMetadata_steps (d : Storage.DB) (uuid1 uuid2 : string) (now : Z)
    (m : SecretMetadata.t) :
  Storage.faults d = [] ->
  (forall x, In x (Storage.secret_metadata d) ->
     SecretMetadata.ID x <> SecretMetadata.ID (metadata_row m uuid1 now)) ->
  Storage.SecretsRepository.CreateSecretMetadata d uuid1 uuid2 now m
  = Storage.SecretsRepository.incrementSecretsCount
      (Storage.set_secret_metadata d
         (Storage.secret_metadata d ++ [metadata_row m uuid1 now])%list)
      uuid2 now (SecretMetadata.OrganizationID m).
Proof.
  intros Hf Hmeta. unfold Storage.SecretsRepository.CreateSecretMetadata.
  set (m' := if streq (SecretMetadata.ID m) "" then _ else m).
  assert (Hrow : SecretMetadata.mk (SecretMetadata.ID m') (SecretMetadata.Name m')
                   (SecretMetadata.Description m') (SecretMetadata.OrganizationID m')
                   (SecretMetadata.ProjectID m') (SecretMetadata.Environment m')
                   (SecretMetadata.CreatedBy m') now now (SecretMetadata.Version m')
                 = metadata_row m uuid1 now).
  { unfold metadata_row. subst m'. destruct (streq (SecretMetadata.ID m) ""); reflexivity. }
  assert (Horg : SecretMetadata.OrganizationID m' = SecretMetadata.OrganizationID m).
  { subst m'. destruct (streq (SecretMetadata.ID m) ""); reflexivity. }
  rewrite Exec_no_fault by exact Hf.
  unfold Storage.SecretsRepository.stmt_insert_metadata, Storage.insert_row.
  rewrite Hrow, Horg.
  rewrite (existsb_fresh SecretMetadata.ID _ (Storage.secret_metadata d) Hmeta).
  reflexivity.
Qed.

Lemma DeleteSecretMetadata_steps (d : Storage.DB) (now : Z) (id orgID : string) :
  Storage.faults d = [] ->
  Storage.SecretsRepository.DeleteSecretMetadata d now id orgID
  = Storage.SecretsRepository.decrementSecretsCount
      (Storage.set_secret_metadata d
         (List.filter (fun x => negb (streq (SecretMetadata.ID x) id))
            (Storage.secret_metadata d)))
      now orgID.
Proof.
  intros Hf. unfold Storage.SecretsRepository.DeleteSecretMetadata.
  rewrite Exec_no_fault by exact Hf. reflexivity.
Qed.

(** X15. CreateSecretMetadata keeps the counter in step with the catalog:
    if every organization's secret_count equals the number of its
    metadata rows before, it does after, and the ids stay unique.
    (The insert is checked against the primary key; the foreign keys
    of the row are taken as present.) *)
Theorem CreateSecretMetadata_keeps_ledger (d : Storage.DB) (uuid1 uuid2 : string) (now : Z)
    (m : SecretMetadata.t) :
  Storage.faults d = [] ->
  NoDup (map SecretMetadata.ID (Storage.secret_metadata d)) ->
  (forall x, In x (Storage.secret_metadata d) ->
     SecretMetadata.ID x <> SecretMetadata.ID (metadata_row m uuid1 now)) ->
  (forall x, In x (Storage.usage_statistics d) -> Storage.UsageStatistics.id x <> uuid2) ->
  ledger_consistent d ->
  fst (Storage.SecretsRepository.CreateSecretMetadata d uuid1 uuid2 now m) = Ok tt
  /\ NoDup (map SecretMetadata.ID
              (Storage.secret_metadata
                 (snd (Storage.SecretsRepository.CreateSecretMetadata d uuid1 uuid2 now m))))
  /\ ledger_consistent
       (snd (Storage.SecretsRepository.CreateSecretMetadata d uuid1 uuid2 now m)).
Proof.
  intros Hf Hnd Hmeta Hstats Hcons.
  pose proof (proj1 (ledger_consistent_no_fault d Hf) Hcons) as Hrows.
  clear Hcons. rename Hrows into Hcons.
  rewrite CreateSecretMetadata_steps by assumption.
  set (d1 := Storage.set_secret_metadata d _).
  destruct (incrementSecretsCount_effect d1 uuid2 now (SecretMetadata.OrganizationID m))
    as (d' & Hinc & Hf' & Hcount & Hsame & _); [exact Hf | exact Hstats |].
  pose proof (fun other => incrementSecretsCount_others d1 uuid2 now
                             (SecretMetadata.OrganizationID m) other Hf) as Hothers.
  rewrite Hinc in *. cbn [fst snd] in *.
  split; [reflexivity|]. split.
  - rewrite Hsame. subst d1. cbn [Storage.secret_metadata Storage.set_secret_metadata].
    rewrite map_app. apply NoDup_app. split; [exact Hnd|]. split.
    + intros x Hx Hx'. apply list_elem_of_In in Hx'. cbn [map In] in Hx'.
      destruct Hx' as [Hx'|[]]. subst x.
      apply list_elem_of_In, in_map_iff in Hx as (y & Hy & Hyin).
      by apply (Hmeta y Hyin).
    + cbn. apply NoDup_singleton.
  - apply (proj2 (ledger_consistent_no_fault d' Hf')). intros orgID.
    unfold rows_of. rewrite Hsame. subst d1.
    cbn [Storage.secret_metadata Storage.set_secret_metadata].
    rewrite List.filter_app, length_app, Nat2Z.inj_add.
    fold (rows_of orgID d). rewrite <- Hcons.
    cbn [List.filter metadata_row SecretMetadata.OrganizationID].
    destruct (streq (SecretMetadata.OrganizationID m) orgID) eqn:Horg.
    + apply streq_true in Horg. subst orgID. rewrite Hcount. reflexivity.
    + apply streq_false in Horg. rewrite Hothers by congruence.
      change (count_of orgID (Storage.set_secret_metadata d _)) with (count_of orgID d).
      cbn [length]. lia.
Qed.

(** X16. DeleteSecretMetadataByPath keeps it too: with unique ids exactly
    one row goes and the count of its organization drops by one. *)
Theorem DeleteSecretMetadataByPath_keeps_ledger (d : Storage.DB) (now : Z)
    (orgID projectID env name : string) :
  Storage.faults d = [] ->
  NoDup (map SecretMetadata.ID (Storage.secret_metadata d)) ->
  ledger_consistent d ->
  fst (Storage.SecretsRepository.DeleteSecretMetadataByPath d now orgID projectID env name)
  = Ok tt
  /\ NoDup (map SecretMetadata.ID
              (Storage.secret_metadata
                 (snd (Storage.SecretsRepository.DeleteSecretMetadataByPath
                         d now orgID projectID env name))))
  /\ ledger_consistent
       (snd (Storage.SecretsRepository.DeleteSecretMetadataByPath
               d now orgID projectID env name)).
Proof.
  intros Hf Hnd Hcons.
  destruct (Storage.SecretsRepository.select_by_path orgID projectID env name d)
    as [|m0 rest] eqn:Hsel.
  - rewrite DeleteSecretMetadataByPath_absent by assumption. by cbn.
  - assert (Hm0 : In m0 (Storage.secret_metadata d)
                  /\ Storage.SecretsRepository.at_path orgID projectID env name m0 = true).
    { apply List.filter_In. unfold Storage.SecretsRepository.select_by_path in Hsel.
      rewrite Hsel. by left. }
    destruct Hm0 as [Hin Hpath].
    assert (Horg : SecretMetadata.OrganizationID m0 = orgID).
    { unfold Storage.SecretsRepository.at_path in Hpath.
      apply andb_prop in Hpath as [Hpath _]. apply andb_prop in Hpath as [Hpath _].
      apply andb_prop in Hpath as [Hpath _]. by apply streq_true. }
    pose proof (proj1 (ledger_consistent_no_fault d Hf) Hcons) as Hrows.
    clear Hcons. rename Hrows into Hcons.
    unfold Storage.SecretsRepository.DeleteSecretMetadataByPath.
    rewrite GetSecretMetadataByPath_no_fault by exact Hf. rewrite Hsel. cbn [head].
    rewrite DeleteSecretMetadata_steps by exact Hf.
    set (d1 := Storage.set_secret_metadata d _).
    destruct (decrementSecretsCount_effect d1 now orgID)
      as (d' & Hdec & Hf' & Hcount & Hsame & _); [exact Hf|].
    pose proof (fun other => decrementSecretsCount_others d1 now orgID other Hf) as Hothers.
    rewrite Hdec in *. cbn [fst snd] in *.
    split; [reflexivity|]. split.
    + rewrite Hsame. subst d1. cbn [Storage.secret_metadata Storage.set_secret_metadata].
      by apply NoDup_map_filter.
    + apply (proj2 (ledger_consistent_no_fault d' Hf')). intros other.
      unfold rows_of. rewrite Hsame. subst d1.
      cbn [Storage.secret_metadata Storage.set_secret_metadata].
      rewrite length_filter_delete by assumption.
      fold (rows_of other d). rewrite <- Hcons. rewrite Horg.
      destruct (streq orgID other) eqn:Hother.
      * apply streq_true in Hother. subst other. rewrite Hcount.
        assert (0 < rows_of orgID d).
        { unfold rows_of.
          pose proof (length_filter_delete
                        (fun x => streq (SecretMetadata.OrganizationID x) orgID)
                        m0 (Storage.secret_metadata d) Hnd Hin) as Hlen.
          cbv beta in Hlen. rewrite Horg, streq_refl in Hlen. lia. }
        rewrite count_of_set_secret_metadata, Hcons. lia.
      * apply streq_false in Hother. rewrite Hothers by congruence.
        rewrite count_of_set_secret_metadata. lia.
Qed.

(** X17. DeleteSecretMetadata does not look at the outcome of its DELETE:
    for an id no row carries the table stays as it is and the count
    of the organization named in the call still drops, so a counter
    that agreed with the catalog no longer does. *)
Theorem DeleteSecretMetadata_unknown_id (d : Storage.DB) (now : Z) (id orgID : string) :
  Storage.faults d = [] ->
  (forall x, In x (Storage.secret_metadata d) -> SecretMetadata.ID x <> id) ->
  ledger_consistent d ->
  0 < count_of orgID d ->
  exists d',
    Storage.SecretsRepository.DeleteSecretMetadata d now id orgID = (Ok tt, d')
    /\ Storage.secret_metadata d' = Storage.secret_metadata d
    /\ count_of orgID d' = count_of orgID d - 1
    /\ ~ ledger_consistent d'.
Proof.
  intros Hf Hid Hcons Hpos.
  pose proof (proj1 (ledger_consistent_no_fault d Hf) Hcons) as Hrows.
  clear Hcons. rename Hrows into Hcons.
  rewrite DeleteSecretMetadata_steps by exact Hf.
  rewrite filter_unmatched by exact Hid.
  destruct (decrementSecretsCount_effect
              (Storage.set_secret_metadata d (Storage.secret_metadata d)) now orgID)
    as (d' & Hdec & Hf' & Hcount & Hsame & _); [exact Hf|].
  exists d'. split; [exact Hdec|]. split; [exact Hsame|].
  assert (Hc : count_of orgID d' = count_of orgID d - 1).
  { rewrite Hcount, count_of_set_secret_metadata. lia. }
  split; [exact Hc|].
  intros Hcons'.
  pose proof (proj1 (ledger_consistent_no_fault d' Hf') Hcons') as Hrows'.
  clear Hcons'. rename Hrows' into Hcons'.
  specialize (Hcons' orgID). specialize (Hcons orgID).
  unfold rows_of in *. rewrite Hsame in Hcons'.
  cbn [Storage.secret_metadata Storage.set_secret_metadata] in Hcons'. lia.
Qed.

(** X18. The two statements of CreateSecretMetadata are not one
    transaction: when the connection fails between them the call
    reports the error, the metadata row is in the table and no
    counter has moved. *)
Theorem CreateSecretMetadata_partial_failure (d : Storage.DB) (uuid1 uuid2 : string)
    (now : Z) (m : SecretMetadata.t) (msg : string) (fs : list (option string)) :
  Storage.faults d = None :: Some msg :: fs ->
  (forall x, In x (Storage.secret_metadata d) ->
     SecretMetadata.ID x <> SecretMetadata.ID (metadata_row m uuid1 now)) ->
  exists d',
    Storage.SecretsRepository.CreateSecretMetadata d uuid1 uuid2 now m
    = (Err (sql_DriverError msg), d')
    /\ Storage.secret_metadata d'
       = (Storage.secret_metadata d ++ [metadata_row m uuid1 now])%list
    /\ Storage.usage_statistics d' = Storage.usage_statistics d.
Proof.
  intros Hf Hmeta. unfold Storage.SecretsRepository.CreateSecretMetadata.
  set (m' := if streq (SecretMetadata.ID m) "" then _ else m).
  assert (Hrow : SecretMetadata.mk (SecretMetadata.ID m') (SecretMetadata.Name m')
                   (SecretMetadata.Description m') (SecretMetadata.OrganizationID m')
                   (SecretMetadata.ProjectID m') (SecretMetadata.Environment m')
                   (SecretMetadata.CreatedBy m') now now (SecretMetadata.Version m')
                 = metadata_row m uuid1 now).
  { unfold metadata_row. subst m'. destruct (streq (SecretMetadata.ID m) ""); reflexivity. }
  rewrite (Exec_head d _ None (Some msg :: fs) Hf).
  unfold Storage.SecretsRepository.stmt_insert_metadata, Storage.insert_row.
  rewrite Hrow.
  cbn [Storage.secret_metadata Storage.set_faults].
  rewrite (existsb_fresh SecretMetadata.ID _ (Storage.secret_metadata d) Hmeta).
  unfold Storage.SecretsRepository.incrementSecretsCount.
  rewrite (Exec_head _ _ (Some msg) fs) by reflexivity.
  eexists. split; [reflexivity|]. split; reflexivity.
Qed.

Lemma GetSecretMetadata_no_fault (d : Storage.DB) (id : string) :
  Storage.faults d = [] ->
  SecretsRepositoryOps.GetSecretMetadata d id
  = (Ok (head (SecretsRepositoryOps.select_by_id id d)), d).
Proof.
  intros Hf. unfold SecretsRepositoryOps.GetSecretMetadata.
  rewrite QueryRow_no_fault by exact Hf.
  destruct (SecretsRepositoryOps.select_by_id id d); reflexivity.
Qed.




(** X20. UpdateSecretMetadata does not look at the outcome of its UPDATE:
    for an id no row carries it reports success and leaves the
    database as it was. *)
Theorem UpdateSecretMetadata_missing_row (d : Storage.DB) (now : Z)
    (metadata : SecretMetadata.t) :
  Storage.faults d = [] ->
  fst (SecretsRepositoryOps.GetSecretMetadata d (SecretMetadata.ID metadata)) = Ok None ->
  SecretsRepositoryOps.UpdateSecretMetadata d now metadata = (Ok tt, d).
Proof.
  intros Hf Hnone. rewrite GetSecretMetadata_no_fault in Hnone by exact Hf.
  cbn [fst] in Hnone.
  assert (Hsel : SecretsRepositoryOps.select_by_id (SecretMetadata.ID metadata) d = []).
  { destruct (SecretsRepositoryOps.select_by_id _ d); [reflexivity|discriminate]. }
  unfold SecretsRepositoryOps.UpdateSecretMetadata.
  rewrite Exec_no_fault by exact Hf.
  unfold SecretsRepositoryOps.stmt_update_metadata. cbn zeta.
  rewrite map_update_same.
  - destruct d. reflexivity.
  - intros r Hr Hp. exfalso.
    assert (Hin : In r (SecretsRepositoryOps.select_by_id (SecretMetadata.ID metadata) d))
      by (apply List.filter_In; by split).
    rewrite Hsel in Hin. destruct Hin.
Qed.

(** X21. For a stored row it writes the name, the description and the
    version the caller passes (the version is not incremented) and
    the time; the id, the organization, project and environment, the
    creator and the creation time are those of the stored row.  Rows
    with other ids read as before. *)
Theorem UpdateSecretMetadata_then_get (d : Storage.DB) (now : Z)
    (metadata m : SecretMetadata.t) :
  Storage.faults d = [] ->
  fst (SecretsRepositoryOps.GetSecretMetadata d (SecretMetadata.ID metadata))
  = Ok (Some m) ->
  exists d',
    SecretsRepositoryOps.UpdateSecretMetadata d now metadata = (Ok tt, d')
    /\ SecretsRepositoryOps.GetSecretMetadata d' (SecretMetadata.ID metadata)
       = (Ok (Some (SecretMetadata.mk (SecretMetadata.ID m) (SecretMetadata.Name metadata)
                      (SecretMetadata.Description metadata) (SecretMetadata.OrganizationID m)
                      (SecretMetadata.ProjectID m) (SecretMetadata.Environment m)
                      (SecretMetadata.CreatedBy m) (SecretMetadata.CreatedAt m) now
                      (SecretMetadata.Version metadata))), d')
    /\ (forall id, id <> SecretMetadata.ID metadata ->
          fst (SecretsRepositoryOps.GetSecretMetadata d' id)
          = fst (SecretsRepositoryOps.GetSecretMetadata d id))
    /\ Storage.usage_statistics d' = Storage.usage_statistics d.
Proof.
  intros Hf Hsome. rewrite GetSecretMetadata_no_fault in Hsome by exact Hf.
  cbn [fst] in Hsome.
  unfold SecretsRepositoryOps.UpdateSecretMetadata.
  rewrite Exec_no_fault by exact Hf.
  unfold SecretsRepositoryOps.stmt_update_metadata. cbn zeta.
  eexists. split; [reflexivity|].
  set (p := fun x => streq (SecretMetadata.ID x) (SecretMetadata.ID metadata)).
  set (f := SecretsRepositoryOps.with_update metadata now).
  assert (Hkeep : forall r, p (f r) = p r) by reflexivity.
  split; [|split; [|reflexivity]].
  - rewrite GetSecretMetadata_no_fault by exact Hf.
    unfold SecretsRepositoryOps.select_by_id in *.
    cbn [Storage.secret_metadata Storage.set_secret_metadata]. fold p in Hsome |- *.
    rewrite (filter_update p f _ Hkeep).
    destruct (List.filter p (Storage.secret_metadata d)) as [|m0 rest];
      [discriminate|].
    cbn in Hsome. injection Hsome as ->. reflexivity.
  - intros id Hid. rewrite !GetSecretMetadata_no_fault by exact Hf. cbn [fst].
    unfold SecretsRepositoryOps.select_by_id.
    cbn [Storage.secret_metadata Storage.set_secret_metadata].
    rewrite (filter_update_other p (fun x => streq (SecretMetadata.ID x) id) f);
      [reflexivity|reflexivity|].
    intros r Hr. apply streq_true in Hr. apply streq_false. congruence.
Qed.
End CatalogProperties.

(** ** Instances *)

Lemma UpdateUserPassword_refusals_witness :
  Storage.faults users_db = []
  /\ ServiceImprovedAccounts.UpdateUserPassword toy_bcrypt users_db "salt" 20 "user-9"
       "hash-of-pw" "new-pw"
     = (Err auth_ErrUserNotFound, users_db)
  /\ ServiceImprovedAccounts.UpdateUserPassword toy_bcrypt users_db "salt" 20 "user-1"
       "guess" "new-pw"
     = (Err auth_ErrInvalidCredentials, users_db).
Proof.
  assert (H : Storage.faults users_db = []) by reflexivity.
  split; [exact H|]. split.
  - exact (proj1 (UpdateUserPassword_refusals toy_bcrypt users_db "salt" 20 "user-9"
                    "hash-of-pw" "new-pw" H) eq_refl).
  - exact (proj2 (UpdateUserPassword_refusals toy_bcrypt users_db "salt" 20 "user-1"
                    "guess" "new-pw" H) user1 [] eq_refl eq_refl).
Defined.

Lemma UpdateUserPassword_changes_hash_witness :
  bcrypt_correct toy_bcrypt
  /\ Storage.faults users_db = []
  /\ Storage.UsersRepository.select_user_by_id "user-1" users_db = [user1]
  /\ Models.User.UpdatedAt user1 <> 20
  /\ exists d',
       ServiceImprovedAccounts.UpdateUserPassword toy_bcrypt users_db "salt" 20 "user-1"
         "hash-of-pw" "new-pw"
       = (Ok tt, d')
       /\ Storage.UsersRepository.GetUserByID d' "user-1"
          = (Ok (UsersRepositoryOps.with_password "new-pw" 20 user1), d').
Proof.
  assert (H1 : Storage.faults users_db = []) by reflexivity.
  assert (H2 : Storage.UsersRepository.select_user_by_id "user-1" users_db = [user1])
    by reflexivity.
  assert (H3 : Models.User.UpdatedAt user1 <> 20) by (cbn; lia).
  split; [exact toy_bcrypt_correct|]. split; [exact H1|]. split; [exact H2|].
  split; [exact H3|].
  destruct (UpdateUserPassword_changes_hash toy_bcrypt users_db "salt" 20 "user-1"
              "hash-of-pw" "new-pw" "new-pw" user1 [] toy_bcrypt_correct H1 H2
              eq_refl eq_refl H3) as (d' & Hupd & Hget & _).
  exists d'. split; [exact Hupd|exact Hget].
Defined.

Lemma UpdateUserProfile_keeps_identity_witness :
  Storage.faults users_db = []
  /\ Storage.UsersRepository.select_user_by_id "user-1" users_db = [user1]
  /\ Models.User.UpdatedAt user1 <> 20
  /\ exists d',
       ServiceImprovedAccounts.UpdateUserProfile users_db 20 "user-1" "Anna" "Leigh"
       = (Ok (UserDetails.mk "user-1" "ann@example.org" "Anna" "Leigh" "user"), d')
       /\ Storage.UsersRepository.GetUserByID d' "user-1"
          = (Ok (Models.User.mk "user-1" "ann@example.org" "hash-of-pw" "Anna" "Leigh"
                   "user" 10 20), d').
Proof.
  assert (H1 : Storage.faults users_db = []) by reflexivity.
  assert (H2 : Storage.UsersRepository.select_user_by_id "user-1" users_db = [user1])
    by reflexivity.
  assert (H3 : Models.User.UpdatedAt user1 <> 20) by (cbn; lia).
  split; [exact H1|]. split; [exact H2|]. split; [exact H3|].
  exact (UpdateUserProfile_keeps_identity users_db 20 "user-1" "Anna" "Leigh" user1 []
           H1 H2 H3).
Defined.

Lemma UpdateUserProfile_unchanged_is_not_found_witness :
  Storage.faults users_db = []
  /\ Storage.UsersRepository.select_user_by_id "user-1" users_db = [user1]
  /\ Models.User.UpdatedAt user1 = 10
  /\ ServiceImprovedAccounts.UpdateUserProfile users_db 10 "user-1" "Ann" "Lee"
     = (Err storage_ErrUserNotFound, users_db).
Proof.
  assert (H1 : Storage.faults users_db = []) by reflexivity.
  assert (H2 : Storage.UsersRepository.select_user_by_id "user-1" users_db = [user1])
    by reflexivity.
  assert (H3 : Models.User.UpdatedAt user1 = 10) by reflexivity.
  split; [exact H1|]. split; [exact H2|]. split; [exact H3|].
  exact (UpdateUserProfile_unchanged_is_not_found users_db 10 "user-1" user1 H1 H2 H3).
Defined.


Lemma increment_then_decrement_witness :
  Storage.faults catalog_db = []
  /\ (forall x, In x (Storage.usage_statistics catalog_db) ->
        Storage.UsageStatistics.id x <> "stat-2")
  /\ 0 <= count_of "org-1" catalog_db
  /\ exists d1 d2,
       Storage.SecretCountRepository.IncrementSecretsCount catalog_db "stat-2" 60 "org-1"
       = (Ok tt, d1)
       /\ Storage.SecretCountRepository.GetSecretsCount d1 "org-1" = (Ok 2, d1)
       /\ Storage.SecretCountRepository.DecrementSecretsCount d1 61 "org-1" = (Ok tt, d2)
       /\ Storage.SecretCountRepository.GetSecretsCount d2 "org-1" = (Ok 1, d2).
Proof.
  assert (H1 : Storage.faults catalog_db = []) by reflexivity.
  assert (H2 : forall x, In x (Storage.usage_statistics catalog_db) ->
                 Storage.UsageStatistics.id x <> "stat-2")
    by (intros x [<- | []]; discriminate).
  assert (H3 : 0 <= count_of "org-1" catalog_db) by (vm_compute; discriminate).
  split; [exact H1|]. split; [exact H2|]. split; [exact H3|].
  exact (increment_then_decrement catalog_db "stat-2" 60 61 "org-1" H1 H2 H3).
Defined.

Lemma decrement_without_row_witness :
  Storage.faults empty_db = []
  /\ Storage.select_secret_count "org-1" empty_db = []
  /\ exists d1 d2,
       Storage.SecretCountRepository.DecrementSecretsCount empty_db 60 "org-1" = (Ok tt, d1)
       /\ Storage.select_secret_count "org-1" d1 = []
       /\ Storage.SecretCountRepository.IncrementSecretsCount d1 "stat-1" 61 "org-1"
          = (Ok tt, d2)
       /\ Storage.SecretCountRepository.GetSecretsCount d2 "org-1" = (Ok 1, d2).
Proof.
  assert (H1 : Storage.faults empty_db = []) by reflexivity.
  assert (H2 : forall x, In x (Storage.usage_statistics empty_db) ->
                 Storage.UsageStatistics.id x <> "stat-1")
    by (intros x []).
  assert (H3 : Storage.select_secret_count "org-1" empty_db = []) by reflexivity.
  split; [exact H1|]. split; [exact H3|].
  exact (decrement_without_row empty_db "stat-1" 60 61 "org-1" H1 H2 H3).
Defined.

Lemma IncrementAPICallCount_effect_witness :
  Storage.faults catalog_db = []
  /\ fst (SecretCountRepositoryOps.GetUsageStatistics catalog_db "org-1") = Ok (1, 0)
  /\ exists d',
       SecretCountRepositoryOps.IncrementAPICallCount catalog_db "stat-2" 60 "org-1"
       = (Ok tt, d')
       /\ SecretCountRepositoryOps.GetUsageStatistics d' "org-1" = (Ok (1, 1), d').
Proof.
  assert (H1 : Storage.faults catalog_db = []) by reflexivity.
  assert (H2 : forall x, In x (Storage.usage_statistics catalog_db) ->
                 Storage.UsageStatistics.id x <> "stat-2")
    by (intros x [<- | []]; discriminate).
  assert (H3 : fst (SecretCountRepositoryOps.GetUsageStatistics catalog_db "org-1")
               = Ok (1, 0)) by reflexivity.
  split; [exact H1|]. split; [exact H3|].
  destruct (IncrementAPICallCount_effect catalog_db "stat-2" 60 "org-1" 1 0 H1 H2 H3)
    as (d' & Hinc & Hget & _).
  exists d'. split; [exact Hinc|exact Hget].
Defined.

Lemma catalog_db_consistent : ledger_consistent catalog_db.
Proof.
  apply (proj2 (ledger_consistent_no_fault catalog_db eq_refl)). intros orgID.
  unfold count_of, rows_of, Storage.select_secret_count, catalog_db, usage_one, metadata0.
  cbn. destruct (streq "org-1" orgID); reflexivity.
Qed.

Lemma catalog_db_ids : NoDup (map Models.SecretMetadata.ID (Storage.secret_metadata catalog_db)).
Proof. apply NoDup_singleton. Qed.

Lemma CreateSecretMetadata_keeps_ledger_witness :
  Storage.faults catalog_db = []
  /\ ledger_consistent catalog_db
  /\ fst (Storage.SecretsRepository.CreateSecretMetadata catalog_db "meta-2" "stat-2" 60
            metadata1) = Ok tt
  /\ NoDup (map Models.SecretMetadata.ID
              (Storage.secret_metadata
                 (snd (Storage.SecretsRepository.CreateSecretMetadata catalog_db "meta-2"
                         "stat-2" 60 metadata1))))
  /\ ledger_consistent
       (snd (Storage.SecretsRepository.CreateSecretMetadata catalog_db "meta-2" "stat-2" 60
               metadata1)).
Proof.
  assert (H1 : Storage.faults catalog_db = []) by reflexivity.
  assert (H2 : forall x, In x (Storage.secret_metadata catalog_db) ->
                 Models.SecretMetadata.ID x
                 <> Models.SecretMetadata.ID (metadata_row metadata1 "meta-2" 60))
    by (intros x [<- | []]; discriminate).
  assert (H3 : forall x, In x (Storage.usage_statistics catalog_db) ->
                 Storage.UsageStatistics.id x <> "stat-2")
    by (intros x [<- | []]; discriminate).
  split; [exact H1|]. split; [exact catalog_db_consistent|].
  exact (CreateSecretMetadata_keeps_ledger catalog_db "meta-2" "stat-2" 60 metadata1
           H1 catalog_db_ids H2 H3 catalog_db_consistent).
Defined.

Lemma DeleteSecretMetadataByPath_keeps_ledger_witness :
  Storage.faults catalog_db = []
  /\ ledger_consistent catalog_db
  /\ fst (Storage.SecretsRepository.DeleteSecretMetadataByPath catalog_db 60
            "org-1" "proj-1" "prod" "api-key") = Ok tt
  /\ NoDup (map Models.SecretMetadata.ID
              (Storage.secret_metadata
                 (snd (Storage.SecretsRepository.DeleteSecretMetadataByPath catalog_db 60
                         "org-1" "proj-1" "prod" "api-key"))))
  /\ ledger_consistent
       (snd (Storage.SecretsRepository.DeleteSecretMetadataByPath catalog_db 60
               "org-1" "proj-1" "prod" "api-key")).
Proof.
  assert (H1 : Storage.faults catalog_db = []) by reflexivity.
  split; [exact H1|]. split; [exact catalog_db_consistent|].
  exact (DeleteSecretMetadataByPath_keeps_ledger catalog_db 60 "org-1" "proj-1" "prod"
           "api-key" H1 catalog_db_ids catalog_db_consistent).
Defined.

Lemma DeleteSecretMetadata_unknown_id_witness :
  Storage.faults catalog_db = []
  /\ ledger_consistent catalog_db
  /\ 0 < count_of "org-1" catalog_db
  /\ exists d',
       Storage.SecretsRepository.DeleteSecretMetadata catalog_db 60 "meta-9" "org-1"
       = (Ok tt, d')
       /\ Storage.secret_metadata d' = [metadata0]
       /\ count_of "org-1" d' = 0
       /\ ~ ledger_consistent d'.
Proof.
  assert (H1 : Storage.faults catalog_db = []) by reflexivity.
  assert (H2 : forall x, In x (Storage.secret_metadata catalog_db) ->
                 Models.SecretMetadata.ID x <> "meta-9")
    by (intros x [<- | []]; discriminate).
  assert (H3 : 0 < count_of "org-1" catalog_db) by (vm_compute; reflexivity).
  split; [exact H1|]. split; [exact catalog_db_consistent|]. split; [exact H3|].
  exact (DeleteSecretMetadata_unknown_id catalog_db 60 "meta-9" "org-1" H1 H2
           catalog_db_consistent H3).
Defined.

Lemma CreateSecretMetadata_partial_failure_witness :
  Storage.faults flaky_db = [None; Some "connection reset"]
  /\ exists d',
       Storage.SecretsRepository.CreateSecretMetadata flaky_db "meta-2" "stat-2" 60 metadata1
       = (Err (sql_DriverError "connection reset"), d')
       /\ Storage.secret_metadata d' = [metadata_row metadata1 "meta-2" 60]
       /\ Storage.usage_statistics d' = [].
Proof.
  assert (H1 : Storage.faults flaky_db = [None; Some "connection reset"]) by reflexivity.
  assert (H2 : forall x, In x (Storage.secret_metadata flaky_db) ->
                 Models.SecretMetadata.ID x
                 <> Models.SecretMetadata.ID (metadata_row metadata1 "meta-2" 60))
    by (intros x []).
  split; [exact H1|].
  exact (CreateSecretMetadata_partial_failure flaky_db "meta-2" "stat-2" 60 metadata1
           "connection reset" [] H1 H2).
Defined.


Lemma UpdateSecretMetadata_missing_row_witness :
  Storage.faults catalog_db = []
  /\ fst (SecretsRepositoryOps.GetSecretMetadata catalog_db "meta-2") = Ok None
  /\ SecretsRepositoryOps.UpdateSecretMetadata catalog_db 60
       (Storage.SecretsRepository.with_ID metadata1 "meta-2")
     = (Ok tt, catalog_db).
Proof.
  assert (H1 : Storage.faults catalog_db = []) by reflexivity.
  assert (H2 : fst (SecretsRepositoryOps.GetSecretMetadata catalog_db "meta-2") = Ok None)
    by reflexivity.
  split; [exact H1|]. split; [exact H2|].
  exact (UpdateSecretMetadata_missing_row catalog_db 60
           (Storage.SecretsRepository.with_ID metadata1 "meta-2") H1 H2).
Defined.

Lemma UpdateSecretMetadata_then_get_witness :
  Storage.faults catalog_db = []
  /\ fst (SecretsRepositoryOps.GetSecretMetadata catalog_db "meta-1") = Ok (Some metadata0)
  /\ exists d',
       SecretsRepositoryOps.UpdateSecretMetadata catalog_db 60
         (Storage.SecretsRepository.with_ID metadata1 "meta-1")
       = (Ok tt, d')
       /\ SecretsRepositoryOps.GetSecretMetadata d' "meta-1"
          = (Ok (Some (Models.SecretMetadata.mk "meta-1" "db-password" "database" "org-1"
                         "proj-1" "prod" "user-1" 50 60 1)), d').
Proof.
  assert (H1 : Storage.faults catalog_db = []) by reflexivity.
  assert (H2 : fst (SecretsRepositoryOps.GetSecretMetadata catalog_db "meta-1")
               = Ok (Some metadata0)) by reflexivity.
  split; [exact H1|]. split; [exact H2|].
  destruct (UpdateSecretMetadata_then_get catalog_db 60
              (Storage.SecretsRepository.with_ID metadata1 "meta-1") metadata0 H1 H2)
    as (d' & Hupd & Hget & _).
  exists d'. split; [exact Hupd|exact Hget].
Defined.

(** ** Subscriptions: creation, read back *)

Section SubscriptionProperties.
Import Models.

Lemma GetActiveSubscription_no_fault (d : Storage.DB) (now : Z) (orgID : string) :
  Storage.faults d = [] ->
  Storage.SubscriptionService.GetActiveSubscription d now orgID
  = (Ok (head (Storage.SubscriptionService.select_active_subscription orgID now d)), d).
Proof.
  intros Hf. unfold Storage.SubscriptionService.GetActiveSubscription.
  rewrite QueryRow_no_fault by exact Hf.
  destruct (Storage.SubscriptionService.select_active_subscription orgID now d); reflexivity.
Qed.

Lemma set_subscriptions_same (d : Storage.DB) :
  Storage.set_subscriptions d (Storage.subscriptions d) = d.
Proof. by destruct d. Qed.

(** Without a fault CreateSubscription is the insert into the table
    with the active subscription cancelled; a refused insert leaves
    the cancellation in place. *)
Lemma CreateSubscription_steps (d : Storage.DB) (uuid : string) (now : Z)
    (s : Subscription.t) :
  Storage.faults d = [] ->
  Storage.SubscriptionService.CreateSubscription d uuid now s
  = match Storage.insert_row Subscription.ID (subscription_row s uuid now)
            (cancelled_first now (Subscription.OrganizationID s) d) with
    | Ok l => (Ok tt, Storage.set_subscriptions d l)
    | Err e => (Err e, Storage.set_subscriptions d
                         (cancelled_first now (Subscription.OrganizationID s) d))
    end.
Proof.
  intros Hf. unfold Storage.SubscriptionService.CreateSubscription, subscription_row,
    cancelled_first.
  set (s' := if streq (Subscription.ID s) "" then _ else s).
  assert (Horg : Subscription.OrganizationID s' = Subscription.OrganizationID s)
    by apply with_ID_OrganizationID.
  rewrite Horg. rewrite GetActiveSubscription_no_fault by exact Hf.
  destruct (head (Storage.SubscriptionService.select_active_subscription
                    (Subscription.OrganizationID s) now d)) as [existing|].
  - unfold Storage.SubscriptionService.cancelSubscription.
    rewrite Exec_no_fault by exact Hf.
    unfold Storage.SubscriptionService.stmt_cancel, Storage.update_where.
    rewrite Exec_no_fault by exact Hf.
    unfold Storage.SubscriptionService.stmt_insert_subscription.
    cbn [Storage.subscriptions Storage.set_subscriptions].
    fold (inserted_row s' now).
    change (map _ (Storage.subscriptions d))
      with (map (cancel_where (Subscription.ID existing) now) (Storage.subscriptions d)).
    destruct (Storage.insert_row _ _ _); reflexivity.
  - rewrite Exec_no_fault by exact Hf.
    unfold Storage.SubscriptionService.stmt_insert_subscription.
    fold (inserted_row s' now).
    destruct (Storage.insert_row _ _ _); [reflexivity|].
    by rewrite set_subscriptions_same.
Qed.

Lemma cancelled_first_ids (now : Z) (orgID : string) (d : Storage.DB) :
  map Subscription.ID (cancelled_first now orgID d)
  = map Subscription.ID (Storage.subscriptions d).
Proof.
  unfold cancelled_first.
  destruct (head _); [|reflexivity].
  rewrite map_map. apply map_ext. intros x. unfold cancel_where.
  by destruct (streq _ _).
Qed.

Lemma cancelled_first_none_active (now : Z) (orgID : string) (d : Storage.DB) :
  at_most_one_active now d ->
  active_subscriptions now orgID (cancelled_first now orgID d) = [].
Proof.
  intros Hinv. unfold cancelled_first. rewrite select_active_subscription_eq.
  destruct (Storage.ORDER_BY_end_date_DESC
              (active_subscriptions now orgID (Storage.subscriptions d)))
    as [|top rest] eqn:Hs; cbn [take head].
  - by apply ORDER_BY_nil.
  - assert (Hin : In top (active_subscriptions now orgID (Storage.subscriptions d))).
    { apply ORDER_BY_In. rewrite Hs. by left. }
    unfold active_subscriptions in Hin. apply List.filter_In in Hin as [Hin Hact].
    apply none_active_after_cancel; [apply Hinv|exact Hin|exact Hact].
Qed.

Lemma subscription_row_fields (s : Subscription.t) (uuid : string) (now : Z) :
  Subscription.OrganizationID (subscription_row s uuid now) = Subscription.OrganizationID s
  /\ Subscription.Status (subscription_row s uuid now) = Subscription.Status s
  /\ Subscription.EndDate (subscription_row s uuid now) = Subscription.EndDate s
  /\ Subscription.SecretsLimit (subscription_row s uuid now) = Subscription.SecretsLimit s.
Proof.
  unfold subscription_row. destruct (streq (Subscription.ID s) ""); cbn; auto.
Qed.


(** X23. CreateSubscription is not one transaction: with an id that is
    already in the table the insert is refused after the running
    subscription has been cancelled, so the call fails and the
    organization is left without an active subscription. *)
Theorem CreateSubscription_duplicate_id (d : Storage.DB) (uuid : string) (now : Z)
    (s x : Subscription.t) :
  Storage.faults d = [] ->
  at_most_one_active now d ->
  In x (Storage.subscriptions d) ->
  Subscription.ID x = Subscription.ID s ->
  Subscription.ID s <> "" ->
  exists d',
    Storage.SubscriptionService.CreateSubscription d uuid now s
    = (Err (sql_DriverError "Duplicate entry for key PRIMARY"), d')
    /\ active_subscriptions now (Subscription.OrganizationID s) (Storage.subscriptions d')
       = []
    /\ Storage.SubscriptionService.CheckSubscriptionStatus d' now
         (Subscription.OrganizationID s)
       = (Ok false, d').
Proof.
  intros Hf Hinv Hin Hid Hne.
  set (orgID := Subscription.OrganizationID s).
  pose proof (cancelled_first_none_active now orgID d Hinv) as Hnone.
  rewrite CreateSubscription_steps by exact Hf. fold orgID.
  set (cf := cancelled_first now orgID d) in *.
  assert (Hrow : Subscription.ID (subscription_row s uuid now) = Subscription.ID s).
  { unfold subscription_row. by rewrite (proj2 (streq_false _ _) Hne). }
  assert (Hdup : existsb (fun y => streq (Subscription.ID y)
                                     (Subscription.ID (subscription_row s uuid now))) cf
                 = true).
  { assert (Hidin : In (Subscription.ID s) (map Subscription.ID cf)).
    { unfold cf. rewrite cancelled_first_ids, <- Hid. by apply in_map. }
    apply in_map_iff in Hidin as (y & Hy & Hyin).
    apply existsb_exists. exists y. split; [exact Hyin|].
    apply streq_true. congruence. }
  unfold Storage.insert_row. rewrite Hdup.
  set (d' := Storage.set_subscriptions d cf).
  assert (Hf' : Storage.faults d' = []) by exact Hf.
  exists d'. split; [reflexivity|]. split; [exact Hnone|].
  unfold Storage.SubscriptionService.CheckSubscriptionStatus.
  rewrite GetActiveSubscription_no_fault by exact Hf'.
  rewrite select_active_subscription_eq.
  unfold d'. cbn [Storage.subscriptions Storage.set_subscriptions].
  rewrite Hnone. reflexivity.
Qed.
End SubscriptionProperties.

Lemma running_db_at_most_one : at_most_one_active 3000 running_db.
Proof.
  intros orgID. unfold running_db, active_subscriptions.
  cbn [Storage.subscriptions List.filter].
  destruct (bool_decide (active_for 3000 orgID running_sub)); cbn; lia.
Qed.


Lemma CreateSubscription_duplicate_id_witness :
  Storage.faults running_db = []
  /\ at_most_one_active 3000 running_db
  /\ Storage.SubscriptionService.CheckSubscriptionStatus running_db 3000 "org-1"
     = (Ok true, running_db)
  /\ exists d',
       Storage.SubscriptionService.CreateSubscription running_db "sub-2" 3000 renewal_sub
       = (Err (sql_DriverError "Duplicate entry for key PRIMARY"), d')
       /\ active_subscriptions 3000 "org-1" (Storage.subscriptions d') = []
       /\ Storage.SubscriptionService.CheckSubscriptionStatus d' 3000 "org-1" = (Ok false, d').
Proof.
  assert (H1 : Storage.faults running_db = []) by reflexivity.
  assert (H2 : In running_sub (Storage.subscriptions running_db)) by (by left).
  assert (H3 : Models.Subscription.ID running_sub = Models.Subscription.ID renewal_sub)
    by reflexivity.
  assert (H4 : Models.Subscription.ID renewal_sub <> "") by discriminate.
  split; [exact H1|]. split; [exact running_db_at_most_one|]. split; [reflexivity|].
  exact (CreateSubscription_duplicate_id running_db "sub-2" 3000 renewal_sub running_sub
           H1 running_db_at_most_one H2 H3 H4).
Defined.

(** ** At most one active subscription: calls in turn, calls that overlap *)

Section Calls.
Import Models.

(** The statements of a call, run with nothing in between, are
    CreateSubscription. *)
Lemma run_CreateSubscription (db : Storage.DB) (uuid : string) (now : Z)
    (subscription : Subscription.t) :
  CreateSubscriptionCall.run db uuid now subscription
  = (CreateSubscriptionCall.Returned
       (fst (Storage.SubscriptionService.CreateSubscription db uuid now subscription)),
     snd (Storage.SubscriptionService.CreateSubscription db uuid now subscription)).
Proof.
  unfold CreateSubscriptionCall.run, Storage.SubscriptionService.CreateSubscription.
  cbn [CreateSubscriptionCall.step].
  set (sub := if streq (Subscription.ID subscription) "" then _ else subscription).
  destruct (Storage.SubscriptionService.GetActiveSubscription db now
              (Subscription.OrganizationID sub)) as [[[existing|]|e] db1];
    cbn [CreateSubscriptionCall.step]; [| |reflexivity].
  - destruct (Storage.SubscriptionService.cancelSubscription db1 now
                (Subscription.ID existing)) as [[[]|e] db2];
      cbn [CreateSubscriptionCall.step]; [|reflexivity].
    by destruct (Storage.Exec db2 _) as [[n|e] db3].
  - destruct (Storage.Exec db1 _) as [[n|e] db3]; reflexivity.
Qed.

(** What is reached by calls in turn is reached by the program. *)
Lemma reachable_in_turn_reachable (now : Z) (db : Storage.DB) :
  reachable_in_turn now db -> exists calls, reachable now db calls.
Proof.
  induction 1 as [now db Hnil | now now' db _ [calls IH] Hle | now db uuid sub _ [calls IH]
                  | now db id lim _ [calls IH] | now db id _ [calls IH]
                  | now db db' _ [calls IH] Hsame].
  - exists []. by apply reach_init.
  - exists calls. by apply (reach_clock now).
  - pose proof (reach_call now db calls sub IH) as H0.
    pose proof (reach_statement now db [] calls _ uuid H0) as H1.
    pose proof (reach_statement now _ [] calls _ uuid H1) as H2.
    pose proof (reach_statement now _ [] calls _ uuid H2) as H3.
    pose proof (run_CreateSubscription db uuid now sub) as Hrun.
    unfold CreateSubscriptionCall.run in Hrun.
    destruct (CreateSubscriptionCall.step db uuid now (CreateSubscriptionCall.Called sub))
      as [call1 db1].
    cbn [fst snd] in H2, H3.
    destruct (CreateSubscriptionCall.step db1 uuid now call1) as [call2 db2].
    cbn [fst snd] in H3. rewrite Hrun in H3. cbn [fst snd] in H3.
    eexists. exact H3.
  - exists calls. by apply reach_UpdateSubscriptionLimit.
  - exists calls. by apply reach_DeleteOrganization.
  - exists calls. by apply (reach_other now db).
Qed.

(** A call that succeeds has cancelled the running subscription and
    inserted the new one. *)
Lemma CreateSubscription_success (db : Storage.DB) (uuid : string) (now : Z)
    (subscription : Subscription.t) :
  Storage.faults db = [] ->
  at_most_one_active now db ->
  (forall x, In x (Storage.subscriptions db) ->
     Subscription.ID x <> Subscription.ID (subscription_row subscription uuid now)) ->
  Storage.SubscriptionService.CreateSubscription db uuid now subscription
  = (Ok tt,
     Storage.set_subscriptions db
       (cancelled_first now (Subscription.OrganizationID subscription) db
        ++ [subscription_row subscription uuid now])%list)
  /\ active_subscriptions now (Subscription.OrganizationID subscription)
       (cancelled_first now (Subscription.OrganizationID subscription) db) = []
  /\ (Subscription.Status subscription = "active" ->
      now < Subscription.EndDate subscription ->
      active_subscriptions now (Subscription.OrganizationID subscription)
        (cancelled_first now (Subscription.OrganizationID subscription) db
         ++ [subscription_row subscription uuid now])%list
      = [subscription_row subscription uuid now]).
Proof.
  intros Hf Hinv Hfresh.
  set (orgID := Subscription.OrganizationID subscription).
  set (row := subscription_row subscription uuid now).
  pose proof (cancelled_first_none_active now orgID db Hinv) as Hnone.
  assert (Hfresh' : forall x, In x (cancelled_first now orgID db) ->
                      Subscription.ID x <> Subscription.ID row).
  { intros x Hx Heq.
    assert (Hid : In (Subscription.ID x) (map Subscription.ID (cancelled_first now orgID db)))
      by by apply in_map.
    rewrite cancelled_first_ids in Hid.
    apply in_map_iff in Hid as (y & Hy & Hyin). apply (Hfresh y Hyin).
    rewrite Hy. exact Heq. }
  split; [|split; [exact Hnone|]].
  - rewrite CreateSubscription_steps by exact Hf. fold orgID row.
    unfold Storage.insert_row.
    by rewrite (existsb_fresh Subscription.ID _ (cancelled_first now orgID db) Hfresh').
  - intros Hstatus Hend.
    destruct (subscription_row_fields subscription uuid now) as (Horg & Hst & Hed & _).
    fold row in Horg, Hst, Hed.
    unfold active_subscriptions in *. rewrite List.filter_app, Hnone.
    cbn [List.filter app].
    rewrite (bool_decide_eq_true_2 (active_for now orgID row)); [reflexivity|].
    unfold active_for. rewrite Horg, Hst, Hed. auto.
Qed.
End Calls.

(** C9, as the code has it.  CreateSubscription looks up the
    organization's active subscription and cancels it before inserting
    the new one.  A call whose statements run with nothing in between
    leads from a state with at most one active subscription per
    organization to such a state again, whichever of its statements
    fails; when it succeeds, the subscription that was running is
    cancelled and the new one is in the table, as the organization's
    only active one if it is active.  So every state reached from an
    empty subscriptions table when the calls come in turn has at most
    one active subscription per organization; these states are among
    those the program reaches, statement by statement.  (Calls that
    overlap are not covered: nothing in the code keeps their statements
    apart.) *)
Theorem C9_at_most_one_active_subscription :
  (forall (db : Storage.DB) (uuid : string) (now : Z) (subscription : Models.Subscription.t),
     at_most_one_active now db ->
     at_most_one_active now
       (snd (Storage.SubscriptionService.CreateSubscription db uuid now subscription)))
  /\ (forall (db : Storage.DB) (uuid : string) (now : Z) (subscription : Models.Subscription.t),
     Storage.faults db = [] ->
     at_most_one_active now db ->
     (forall x, In x (Storage.subscriptions db) ->
        Models.Subscription.ID x
        <> Models.Subscription.ID (subscription_row subscription uuid now)) ->
     Storage.SubscriptionService.CreateSubscription db uuid now subscription
     = (Ok tt,
        Storage.set_subscriptions db
          (cancelled_first now (Models.Subscription.OrganizationID subscription) db
           ++ [subscription_row subscription uuid now])%list)
     /\ active_subscriptions now (Models.Subscription.OrganizationID subscription)
          (cancelled_first now (Models.Subscription.OrganizationID subscription) db) = []
     /\ (Models.Subscription.Status subscription = "active" ->
         now < Models.Subscription.EndDate subscription ->
         active_subscriptions now (Models.Subscription.OrganizationID subscription)
           (cancelled_first now (Models.Subscription.OrganizationID subscription) db
            ++ [subscription_row subscription uuid now])%list
         = [subscription_row subscription uuid now]))
  /\ (forall (now : Z) (db : Storage.DB),
     reachable_in_turn now db -> at_most_one_active now db)
  /\ (forall (now : Z) (db : Storage.DB),
     reachable_in_turn now db -> exists calls, reachable now db calls)
  /\ (forall (db : Storage.DB) (uuid : string) (now : Z) (subscription : Models.Subscription.t),
     CreateSubscriptionCall.run db uuid now subscription
     = (CreateSubscriptionCall.Returned
          (fst (Storage.SubscriptionService.CreateSubscription db uuid now subscription)),
        snd (Storage.SubscriptionService.CreateSubscription db uuid now subscription))).
Proof.
  split; [|split; [|split; [|split]]].
  - apply CreateSubscription_preserves.
  - apply CreateSubscription_success.
  - apply reachable_in_turn_at_most_one_active.
  - apply reachable_in_turn_reachable.
  - apply run_CreateSubscription.
Qed.

(** Upgrading the running organization at time 3000: the old
    subscription is cancelled, the new one is the only active one. *)
Lemma C9_at_most_one_active_subscription_witness :
  Storage.faults running_db = []
  /\ at_most_one_active 3000 running_db
  /\ at_most_one_active 3000
       (snd (Storage.SubscriptionService.CreateSubscription running_db "sub-2" 3000 upgrade_sub))
  /\ Storage.SubscriptionService.CreateSubscription running_db "sub-2" 3000 upgrade_sub
     = (Ok tt,
        Storage.mkDB [] []
          [Models.Subscription.mk "sub-1" "org-1" "plan-basic" "cancelled" 10 0 5000 0 3000;
           Models.Subscription.mk "sub-2" "org-1" "plan-pro" "active" 100 2000 9000 3000 3000]
          [] []).
Proof.
  assert (H1 : Storage.faults running_db = []) by reflexivity.
  assert (H2 : forall x, In x (Storage.subscriptions running_db) ->
                 Models.Subscription.ID x
                 <> Models.Subscription.ID (subscription_row upgrade_sub "sub-2" 3000))
    by (intros x [<- | []]; discriminate).
  split; [exact H1|]. split; [exact running_db_at_most_one|]. split.
  - exact (proj1 C9_at_most_one_active_subscription running_db "sub-2" 3000 upgrade_sub
             running_db_at_most_one).
  - exact (proj1 (proj1 (proj2 C9_at_most_one_active_subscription) running_db "sub-2" 3000
                    upgrade_sub H1 running_db_at_most_one H2)).
Defined.

(** C9 as stated fails.  Two requests for organization org-1 arrive at
    time 3000 while it has no subscription.  Each call looks up the
    active subscription before the other has inserted, finds none and
    has nothing to cancel; then both insert.  The state reached has two
    active subscriptions of org-1. *)
Lemma C9_counterexample_overlapping_calls :
  reachable 3000 two_active_db
    [CreateSubscriptionCall.Returned (Ok tt); CreateSubscriptionCall.Returned (Ok tt)]
  /\ length (active_subscriptions 3000 "org-1" (Storage.subscriptions two_active_db)) = 2%nat
  /\ ~ at_most_one_active 3000 two_active_db.
Proof.
  split; [|split].
  - pose proof (reach_init 3000 empty_db eq_refl) as H0.
    pose proof (reach_call 3000 _ _ first_sub H0) as H1.
    pose proof (reach_call 3000 _ _ second_sub H1) as H2.
    pose proof (reach_statement 3000 _ [] _ _ "" H2) as H3.
    pose proof (reach_statement 3000 _ [CreateSubscriptionCall.Cleared second_sub] [] _ ""
                  H3) as H4.
    pose proof (reach_statement 3000 _ [] [CreateSubscriptionCall.Cleared first_sub] _ ""
                  H4) as H5.
    pose proof (reach_statement 3000 _ [CreateSubscriptionCall.Returned (Ok tt)] [] _ ""
                  H5) as H6.
    exact H6.
  - reflexivity.
  - intros H. specialize (H "org-1"). change (2 <= 1)%nat in H. lia.
Qed.


(** ** The value store: paths *)

Section Paths.
Import Models.

Lemma split_at_slash (a a' r r' : string) :
  no_slash a = true -> no_slash a' = true ->
  (a ++ "/" ++ r)%string = (a' ++ "/" ++ r')%string -> a = a' /\ r = r'.
Proof.
  revert a'. induction a as [|c a IH]; intros [|c' a'] Ha Ha' Heq; cbn in Heq.
  - by injection Heq.
  - injection Heq as <- _. cbn in Ha'. by rewrite streq_refl in Ha'.
  - injection Heq as -> _. cbn in Ha. by rewrite streq_refl in Ha.
  - injection Heq as -> Heq. cbn in Ha, Ha'.
    apply andb_prop in Ha as [_ Ha]. apply andb_prop in Ha' as [_ Ha'].
    destruct (IH a' Ha Ha' Heq) as [-> ->]. done.
Qed.

(** X24. Distinct secrets get distinct paths as long as the organization,
    project and environment hold no separator, whatever the name. *)
Theorem buildSecretPath_injective (orgID projectID env name : string)
    (orgID' projectID' env' name' : string) :
  no_slash orgID = true -> no_slash projectID = true -> no_slash env = true ->
  no_slash orgID' = true -> no_slash projectID' = true -> no_slash env' = true ->
  Vault.Service.buildSecretPath orgID projectID env name
  = Vault.Service.buildSecretPath orgID' projectID' env' name' ->
  orgID = orgID' /\ projectID = projectID' /\ env = env' /\ name = name'.
Proof.
  intros Ho Hp He Ho' Hp' He' Heq. unfold Vault.Service.buildSecretPath in Heq.
  apply split_at_slash in Heq as [-> Heq]; [|assumption..].
  apply split_at_slash in Heq as [-> Heq]; [|assumption..].
  apply split_at_slash in Heq as [-> ->]; [|assumption..].
  done.
Qed.

Lemma append_assoc (a b c : string) : ((a ++ b) ++ c)%string = (a ++ (b ++ c))%string.
Proof.
  induction a as [|x a IH]; [reflexivity|].
  change (String x ((a ++ b) ++ c) = String x (a ++ (b ++ c)))%string. by rewrite IH.
Qed.

(** X25. With a separator inside a component the paths of different
    secrets coincide: what StoreSecret writes for organization
    [a/b], project [c], environment [d] and name [n] is what GetSecret
    returns for organization [a], project [b], environment [c] and
    name [d/n], under the other organization's identifiers. *)
Theorem separator_crosses_scopes (st : Vault.store) (now : Z) (secret : Secret.t)
    (a b : string) :
  Vault.faults st = [] ->
  Secret.OrganizationID secret = (a ++ "/" ++ b)%string ->
  exists st',
    Vault.Service.StoreSecret st now secret = (Ok tt, st')
    /\ fst (Vault.Service.GetSecret st' a b (Secret.ProjectID secret)
              (Secret.Environment secret ++ "/" ++ Secret.Name secret))
       = Ok (Secret.mk "" (Secret.Environment secret ++ "/" ++ Secret.Name secret)
               (Secret.Value secret) (Secret.Description secret)
               a b (Secret.ProjectID secret) (Secret.CreatedBy secret) 0 0 0).
Proof.
  intros Hf Horg.
  assert (Hpath : Vault.Service.buildSecretPath a b (Secret.ProjectID secret)
                    (Secret.Environment secret ++ "/" ++ Secret.Name secret)
                  = path_of secret).
  { unfold path_of, Vault.Service.buildSecretPath. rewrite Horg.
    by rewrite !append_assoc. }
  unfold Vault.Service.StoreSecret, Vault.Client.WriteSecret, Vault.KVv2_Put.
  rewrite kv_roundtrip_no_fault by exact Hf.
  eexists. split; [reflexivity|].
  unfold Vault.Service.GetSecret, Vault.Client.GetSecret, Vault.KVv2_Get.
  rewrite kv_roundtrip_no_fault by exact Hf.
  rewrite Hpath. cbn [Vault.data]. fold (path_of secret).
  rewrite lookup_insert_eq. cbn [fst].
  fold (stored_fields (Secret.Value secret) (Secret.CreatedBy secret)
          (Secret.Description secret) now).
  destruct (stored_fields_read (Secret.Value secret) (Secret.CreatedBy secret)
              (Secret.Description secret) now) as (-> & -> & ->).
  reflexivity.
Qed.
End Paths.

Lemma buildSecretPath_injective_witness :
  no_slash "org-1" = true /\ no_slash "proj-1" = true /\ no_slash "prod" = true
  /\ no_slash "org-1" = true /\ no_slash "proj-1" = true /\ no_slash "prod" = true
  /\ Vault.Service.buildSecretPath "org-1" "proj-1" "prod" "eu/api-key"
     = Vault.Service.buildSecretPath "org-1" "proj-1" "prod" "eu/api-key"
  /\ "org-1" = "org-1" /\ "proj-1" = "proj-1" /\ "prod" = "prod" /\ "eu/api-key" = "eu/api-key".
Proof.
  assert (H1 : no_slash "org-1" = true) by reflexivity.
  assert (H2 : no_slash "proj-1" = true) by reflexivity.
  assert (H3 : no_slash "prod" = true) by reflexivity.
  assert (H4 : Vault.Service.buildSecretPath "org-1" "proj-1" "prod" "eu/api-key"
               = Vault.Service.buildSecretPath "org-1" "proj-1" "prod" "eu/api-key")
    by reflexivity.
  split; [exact H1|]. split; [exact H2|]. split; [exact H3|].
  split; [exact H1|]. split; [exact H2|]. split; [exact H3|]. split; [exact H4|].
  exact (buildSecretPath_injective "org-1" "proj-1" "prod" "eu/api-key"
           "org-1" "proj-1" "prod" "eu/api-key" H1 H2 H3 H1 H2 H3 H4).
Defined.

Lemma separator_crosses_scopes_witness :
  Vault.faults empty_kv = []
  /\ Models.Secret.OrganizationID stray_secret = "org-1/proj-1"
  /\ exists st',
       Vault.Service.StoreSecret empty_kv 100 stray_secret = (Ok tt, st')
       /\ fst (Vault.Service.GetSecret st' "org-1" "proj-1" "prod" "eu/api-key")
          = Ok (Models.Secret.mk "" "eu/api-key" "overwritten" "" "org-1" "proj-1" "prod"
                  "" 0 0 0).
Proof.
  assert (H1 : Vault.faults empty_kv = []) by reflexivity.
  assert (H2 : Models.Secret.OrganizationID stray_secret = "org-1/proj-1") by reflexivity.
  split; [exact H1|]. split; [exact H2|].
  exact (separator_crosses_scopes empty_kv 100 stray_secret "org-1" "proj-1" H1 H2).
Defined.

(** ** The handlers: deletion and outages *)

Section HandlerProperties.
Import Models.

(** X26. Deleting is the store's soft delete, and a read does not tell
    a soft-deleted secret from a stored one: after the delete handler
    has answered 204 for a path that held a secret, GetSecret on that
    path answers 200 with a secret whose value, description and creator
    are empty, not 404; for a path that held nothing it still answers
    404.  The other paths read as before, and deleting again answers
    204 once more and changes nothing. *)
Theorem delete_then_read (w : World) (orgID projectID env name : string) :
  Vault.faults (kv w) = [] ->
  exists w1,
    SecretsHandler.DeleteSecret w orgID projectID env name
    = (SecretsHandler.mkResponse SecretsHandler.StatusNoContent SecretsHandler.NoBody, w1)
    /\ fst (SecretsHandler.GetSecret w1 orgID projectID env name)
       = match Vault.data (kv w) !! Vault.Service.buildSecretPath orgID projectID env name with
         | Some _ =>
             SecretsHandler.mkResponse SecretsHandler.StatusOK
               (SecretsHandler.Json (Secret.mk "" name "" "" orgID projectID env "" 0 0 0))
         | None =>
             SecretsHandler.mkResponse SecretsHandler.StatusNotFound
               (SecretsHandler.Text "Secret non trouvé")
         end
    /\ SecretsHandler.DeleteSecret w1 orgID projectID env name
       = (SecretsHandler.mkResponse SecretsHandler.StatusNoContent SecretsHandler.NoBody, w1)
    /\ (forall o p e n,
          Vault.Service.buildSecretPath o p e n
          <> Vault.Service.buildSecretPath orgID projectID env name ->
          fst (SecretsHandler.GetSecret w1 o p e n)
          = fst (SecretsHandler.GetSecret w o p e n)).
Proof.
  intros Hf. rewrite DeleteSecret_effect by exact Hf.
  set (path := Vault.Service.buildSecretPath orgID projectID env name).
  set (w1 := mkWorld (db w)
               (Vault.mkStore [] (alter (fun _ => Vault.nil_data) path (Vault.data (kv w))))).
  assert (Hf1 : Vault.faults (kv w1) = []) by reflexivity.
  exists w1. split; [reflexivity|]. split; [|split].
  - rewrite GetSecret_effect by exact Hf1. fold path.
    unfold w1. cbn [kv Vault.data fst]. rewrite lookup_alter_eq.
    by destruct (Vault.data (kv w) !! path).
  - rewrite DeleteSecret_effect by exact Hf1. fold path.
    unfold w1. cbn [kv db Vault.data]. do 3 f_equal.
    apply map_eq. intros k. destruct (decide (k = path)) as [->|Hk].
    + rewrite !lookup_alter_eq. by destruct (Vault.data (kv w) !! path).
    + by rewrite !lookup_alter_ne.
  - intros o p e n Hne. rewrite !GetSecret_effect by assumption.
    unfold w1. cbn [kv Vault.data fst]. by rewrite lookup_alter_ne.
Qed.

(** X27. While the value store does not answer, creating and deleting
    answer 500 and reading answers 404 "Secret non trouvé" also for a
    secret that is stored; nothing stored is changed. *)
Theorem outage_responses (w : World) (now : Z) (secret : Secret.t) (userID : string)
    (orgID projectID env name : string) (msg : string) (fs : list (option string)) :
  Vault.faults (kv w) = Some msg :: fs ->
  let after := mkWorld (db w) (Vault.mkStore fs (Vault.data (kv w))) in
  SecretsHandler.CreateSecret w now (Some secret) userID
  = (SecretsHandler.mkResponse SecretsHandler.StatusInternalServerError
       (SecretsHandler.Text "Impossible de créer le secret"), after)
  /\ SecretsHandler.GetSecret w orgID projectID env name
     = (SecretsHandler.mkResponse SecretsHandler.StatusNotFound
          (SecretsHandler.Text "Secret non trouvé"), after)
  /\ SecretsHandler.DeleteSecret w orgID projectID env name
     = (SecretsHandler.mkResponse SecretsHandler.StatusInternalServerError
          (SecretsHandler.Text "Impossible de supprimer le secret"), after).
Proof.
  intros Hf after.
  unfold SecretsHandler.CreateSecret, SecretsHandler.GetSecret, SecretsHandler.DeleteSecret,
    Vault.Service.StoreSecret, Vault.Service.GetSecret, Vault.Service.DeleteSecret,
    Vault.Client.WriteSecret, Vault.Client.GetSecret, Vault.Client.DeleteSecret,
    Vault.KVv2_Put, Vault.KVv2_Get, Vault.KVv2_Delete, Vault.roundtrip.
  rewrite Hf. by cbn.
Qed.
End HandlerProperties.

(** The stored secret is read with its value before the delete, and
    as an empty secret, still with 200, after it. *)
Lemma delete_then_read_witness :
  Vault.faults (kv stored_world) = []
  /\ fst (SecretsHandler.GetSecret stored_world "org-1" "proj-1" "prod" "api-key")
     = SecretsHandler.mkResponse SecretsHandler.StatusOK
         (SecretsHandler.Json
            (Models.Secret.mk "" "api-key" "hunter2" "payment key" "org-1" "proj-1" "prod"
               "user-1" 0 0 0))
  /\ exists w1,
       SecretsHandler.DeleteSecret stored_world "org-1" "proj-1" "prod" "api-key"
       = (SecretsHandler.mkResponse SecretsHandler.StatusNoContent SecretsHandler.NoBody, w1)
       /\ fst (SecretsHandler.GetSecret w1 "org-1" "proj-1" "prod" "api-key")
          = SecretsHandler.mkResponse SecretsHandler.StatusOK
              (SecretsHandler.Json
                 (Models.Secret.mk "" "api-key" "" "" "org-1" "proj-1" "prod" "" 0 0 0))
       /\ SecretsHandler.DeleteSecret w1 "org-1" "proj-1" "prod" "api-key"
          = (SecretsHandler.mkResponse SecretsHandler.StatusNoContent SecretsHandler.NoBody, w1).
Proof.
  assert (H1 : Vault.faults (kv stored_world) = []) by reflexivity.
  split; [exact H1|]. split; [reflexivity|].
  destruct (delete_then_read stored_world "org-1" "proj-1" "prod" "api-key" H1)
    as (w1 & Hdel & Hget & Hagain & _).
  exists w1. split; [exact Hdel|]. split; [exact Hget|exact Hagain].
Defined.

Lemma outage_responses_witness :
  Vault.faults (kv (mkWorld empty_db down_kv)) = [Some "connection refused"]
  /\ Vault.data down_kv !! "org-1/proj-1/prod/api-key"
     = Some (stored_fields "hunter2" "user-1" "payment key" 50)
  /\ SecretsHandler.GetSecret (mkWorld empty_db down_kv) "org-1" "proj-1" "prod" "api-key"
     = (SecretsHandler.mkResponse SecretsHandler.StatusNotFound
          (SecretsHandler.Text "Secret non trouvé"),
        mkWorld empty_db (Vault.mkStore [] (Vault.data down_kv))).
Proof.
  assert (H1 : Vault.faults (kv (mkWorld empty_db down_kv)) = [Some "connection refused"])
    by reflexivity.
  split; [exact H1|]. split; [reflexivity|].
  exact (proj1 (proj2 (outage_responses (mkWorld empty_db down_kv) 100 secret0 "user-1"
                         "org-1" "proj-1" "prod" "api-key" "connection refused" [] H1))).
Defined.

(** ** The value store: listing *)

Section Listing.
Import Models.
Variable logicalList : string -> result (option VaultListing.ListSecret).

Lemma Service_GetSecret_no_fault (st : Vault.store) (orgID projectID env key : string) :
  Vault.faults st = [] ->
  Vault.Service.GetSecret st orgID projectID env key
  = (match read_key st orgID projectID env key with
     | [] => Err (fmt_Error "impossible de récupérer le secret")
     | s :: _ => Ok s
     end, st).
Proof.
  intros Hf. unfold Vault.Service.GetSecret, Vault.Client.GetSecret, Vault.KVv2_Get, read_key.
  rewrite kv_roundtrip_no_fault by exact Hf.
  by destruct (Vault.data st !! _).
Qed.

Lemma collect_no_fault (st : Vault.store) (orgID projectID env : string)
    (keys : list string) :
  Vault.faults st = [] ->
  VaultListing.collect st orgID projectID env keys
  = (flat_map (read_key st orgID projectID env) keys, st).
Proof.
  intros Hf. induction keys as [|key rest IH]; [reflexivity|].
  cbn [VaultListing.collect flat_map].
  rewrite Service_GetSecret_no_fault by exact Hf. rewrite IH.
  set (others := flat_map _ rest). unfold read_key.
  by destruct (Vault.data st !! _).
Qed.

(** X28. With the value store answering, ListProjectSecrets returns, in
    the order of the listing, one secret for every listed key that has
    a version at its path, and silently leaves out the keys that have
    none, such as a folder entry.  A key whose secret was deleted still
    has one: it comes back, as a secret without value, description and
    creator. *)
Theorem ListProjectSecrets_reads_stored (st : Vault.store) (orgID projectID env : string)
    (keys : list string) :
  Vault.faults st = [] ->
  VaultListing.ListSecrets logicalList (orgID ++ "/" ++ projectID ++ "/" ++ env) = Ok keys ->
  VaultListing.ListProjectSecrets logicalList st orgID projectID env
  = (Ok (flat_map (read_key st orgID projectID env) keys), st)
  /\ forall key,
       read_key (snd (Vault.Service.DeleteSecret st orgID projectID env key))
         orgID projectID env key
       = match Vault.data st !! Vault.Service.buildSecretPath orgID projectID env key with
         | Some _ => [Secret.mk "" key "" "" orgID projectID env "" 0 0 0]
         | None => []
         end.
Proof.
  intros Hf Hkeys. split.
  - unfold VaultListing.ListProjectSecrets. rewrite Hkeys.
    by rewrite collect_no_fault.
  - intros key.
    unfold Vault.Service.DeleteSecret, Vault.Client.DeleteSecret, Vault.KVv2_Delete.
    rewrite kv_roundtrip_no_fault by exact Hf. unfold read_key. cbn [snd Vault.data].
    rewrite lookup_alter_eq.
    by destruct (Vault.data st !! _).
Qed.

Lemma Service_GetSecret_data (st : Vault.store) (orgID projectID env key : string) :
  Vault.data (snd (Vault.Service.GetSecret st orgID projectID env key)) = Vault.data st
  /\ forall s, fst (Vault.Service.GetSecret st orgID projectID env key) = Ok s ->
       Secret.Name s = key /\ Secret.OrganizationID s = orgID
       /\ Secret.ProjectID s = projectID /\ Secret.Environment s = env.
Proof.
  unfold Vault.Service.GetSecret, Vault.Client.GetSecret, Vault.KVv2_Get, Vault.roundtrip.
  destruct (Vault.faults st) as [|[msg|] fs]; cbn.
  - destruct (Vault.data st !! _); cbn; (split; [reflexivity|]);
      [by intros s [= <-]|discriminate].
  - split; [reflexivity|discriminate].
  - destruct (Vault.data st !! _); cbn; (split; [reflexivity|]);
      [by intros s [= <-]|discriminate].
Qed.

Lemma collect_any (orgID projectID env : string) (keys : list string) (st : Vault.store) :
  let r := VaultListing.collect st orgID projectID env keys in
  Vault.data (snd r) = Vault.data st
  /\ sublist (map Secret.Name (fst r)) keys
  /\ Forall (fun s => Secret.OrganizationID s = orgID /\ Secret.ProjectID s = projectID
                      /\ Secret.Environment s = env) (fst r).
Proof.
  revert st. induction keys as [|key rest IH]; intros st.
  - cbn. split; [reflexivity|]. split; [constructor|constructor].
  - cbn [VaultListing.collect].
    destruct (Service_GetSecret_data st orgID projectID env key) as [Hdata Hok].
    destruct (Vault.Service.GetSecret st orgID projectID env key) as [[s|e] st1];
      cbn [fst snd] in Hdata, Hok.
    + destruct (IH st1) as (Hd & Hsub & Hall).
      destruct (VaultListing.collect st1 orgID projectID env rest) as [secrets st2].
      cbn [fst snd] in *. destruct (Hok s eq_refl) as (Hn & Hrest).
      split; [congruence|]. split.
      * cbn [map]. rewrite Hn. by apply sublist_skip.
      * by constructor.
    + destruct (IH st1) as (Hd & Hsub & Hall). cbn zeta in *.
      split; [congruence|]. split; [by apply sublist_cons|exact Hall].
Qed.

(** X29. Whatever the value store does, ListProjectSecrets fails only when
    the listing itself fails: a key that cannot be read is skipped.
    What it returns are secrets of the requested organization, project
    and environment whose names are listed keys, in the order of the
    listing, and nothing stored is changed. *)
Theorem ListProjectSecrets_skips_unreadable (st : Vault.store)
    (orgID projectID env : string) :
  let listed := VaultListing.ListSecrets logicalList
                  (orgID ++ "/" ++ projectID ++ "/" ++ env) in
  let r := VaultListing.ListProjectSecrets logicalList st orgID projectID env in
  Vault.data (snd r) = Vault.data st
  /\ (forall err, listed = Err err -> r = (Err err, st))
  /\ (forall keys, listed = Ok keys ->
        exists secrets,
          fst r = Ok secrets
          /\ sublist (map Secret.Name secrets) keys
          /\ Forall (fun s => Secret.OrganizationID s = orgID
                              /\ Secret.ProjectID s = projectID
                              /\ Secret.Environment s = env) secrets).
Proof.
  cbn zeta. unfold VaultListing.ListProjectSecrets.
  destruct (VaultListing.ListSecrets logicalList _) as [keys|err].
  - destruct (collect_any orgID projectID env keys st) as (Hd & Hsub & Hall).
    destruct (VaultListing.collect st orgID projectID env keys) as [secrets st'].
    cbn [fst snd] in *. split; [exact Hd|]. split; [discriminate|].
    intros ? [= <-]. by exists secrets.
  - cbn. split; [reflexivity|]. split; [by intros ? [= <-]|discriminate].
Qed.
End Listing.

(** The listing names a stored secret and a folder; after the secret
    was deleted it is still listed, and comes back empty. *)
Lemma ListProjectSecrets_reads_stored_witness :
  Vault.faults kv_with_secret0 = []
  /\ Vault.faults deleted_kv = []
  /\ VaultListing.ListSecrets listing0 "org-1/proj-1/prod" = Ok ["api-key"; "eu/"]
  /\ VaultListing.ListProjectSecrets listing0 kv_with_secret0 "org-1" "proj-1" "prod"
     = (Ok [Models.Secret.mk "" "api-key" "hunter2" "payment key" "org-1" "proj-1" "prod"
              "user-1" 0 0 0], kv_with_secret0)
  /\ VaultListing.ListProjectSecrets listing0 deleted_kv "org-1" "proj-1" "prod"
     = (Ok [Models.Secret.mk "" "api-key" "" "" "org-1" "proj-1" "prod" "" 0 0 0], deleted_kv).
Proof.
  assert (H1 : Vault.faults kv_with_secret0 = []) by reflexivity.
  assert (H1' : Vault.faults deleted_kv = []) by reflexivity.
  assert (H2 : VaultListing.ListSecrets listing0 ("org-1" ++ "/" ++ "proj-1" ++ "/" ++ "prod")
               = Ok ["api-key"; "eu/"]) by reflexivity.
  split; [exact H1|]. split; [exact H1'|]. split; [exact H2|]. split.
  - exact (proj1 (ListProjectSecrets_reads_stored listing0 kv_with_secret0 "org-1" "proj-1"
                    "prod" ["api-key"; "eu/"] H1 H2)).
  - exact (proj1 (ListProjectSecrets_reads_stored listing0 deleted_kv "org-1" "proj-1"
                    "prod" ["api-key"; "eu/"] H1' H2)).
Defined.

Lemma ListProjectSecrets_skips_unreadable_witness :
  VaultListing.ListSecrets listing0 "org-1/proj-1/prod" = Ok ["api-key"; "eu/"]
  /\ Vault.data (snd (VaultListing.ListProjectSecrets listing0 down_kv "org-1" "proj-1" "prod"))
     = Vault.data down_kv
  /\ exists secrets,
       fst (VaultListing.ListProjectSecrets listing0 down_kv "org-1" "proj-1" "prod")
       = Ok secrets
       /\ sublist (map Models.Secret.Name secrets) ["api-key"; "eu/"].
Proof.
  assert (H : VaultListing.ListSecrets listing0 ("org-1" ++ "/" ++ "proj-1" ++ "/" ++ "prod")
              = Ok ["api-key"; "eu/"]) by reflexivity.
  split; [exact H|].
  destruct (ListProjectSecrets_skips_unreadable listing0 down_kv "org-1" "proj-1" "prod")
    as (Hdata & _ & Hkeys).
  split; [exact Hdata|].
  destruct (Hkeys ["api-key"; "eu/"] H) as (secrets & Hok & Hsub & _).
  exists secrets. split; [exact Hok|exact Hsub].
Defined.

(** ** The authentication middleware *)

Section MiddlewareProperties.
Variable VerifyToken : string -> result string.

Lemma Split_no_space (t : string) : no_space t = true -> Middleware.Split t = [t].
Proof.
  induction t as [|c t IH]; [reflexivity|]. cbn [no_space Middleware.Split].
  intros [Hc Ht]%andb_prop. apply negb_true_iff in Hc. rewrite Hc.
  by rewrite (IH Ht).
Qed.

Lemma Split_word_blank (a r : string) :
  no_space a = true -> Middleware.Split (a ++ " " ++ r) = a :: Middleware.Split r.
Proof.
  induction a as [|c a IH]; [reflexivity|]. cbn [no_space].
  intros [Hc Ha]%andb_prop. apply negb_true_iff in Hc.
  change (String c a ++ " " ++ r)%string with (String c (a ++ " " ++ r))%string.
  cbn [Middleware.Split]. by rewrite Hc, (IH Ha).
Qed.

Lemma Split_nonempty (s : string) : Middleware.Split s <> [].
Proof.
  destruct s as [|c s]; [discriminate|]. cbn [Middleware.Split].
  destruct (streq _ " "); [discriminate|].
  destruct (Middleware.Split s); discriminate.
Qed.

Lemma Split_head (s a : string) (rest : list string) :
  Middleware.Split s = a :: rest ->
  no_space a = true
  /\ ((rest = [] /\ s = a)
      \/ exists s', s = (a ++ " " ++ s')%string /\ Middleware.Split s' = rest).
Proof.
  revert a rest. induction s as [|c s IH]; intros a rest; cbn [Middleware.Split].
  - intros [= <- <-]. split; [reflexivity|]. by left.
  - destruct (streq (String c EmptyString) " ") eqn:Hc.
    + intros [= <- <-]. split; [reflexivity|]. right. exists s. split; [|reflexivity].
      apply streq_true in Hc. injection Hc as ->. reflexivity.
    + destruct (Middleware.Split s) as [|h t] eqn:Hs; [intros [= <- <-]|intros [= <- <-]].
      * by destruct (Split_nonempty s).
      * destruct (IH h t eq_refl) as [Hh Hcases]. split.
        -- cbn [no_space]. by rewrite Hc, Hh.
        -- destruct Hcases as [[-> ->]|(s' & -> & Hs')]; [by left|].
           right. by exists s'.
Qed.

(** X30. JWTAuth lets a request through exactly when its Authorization
    header is "Bearer", one blank and a token without blanks that
    VerifyToken accepts; the user id it puts into the request context
    is the one VerifyToken returned.  Every other request is answered
    401. *)
Theorem JWTAuth_passes_iff (authHeader userID : string) :
  Middleware.JWTAuth VerifyToken authHeader = Middleware.Next userID
  <-> exists token,
        authHeader = ("Bearer " ++ token)%string
        /\ no_space token = true
        /\ VerifyToken token = Ok userID.
Proof.
  unfold Middleware.JWTAuth. split.
  - destruct (streq authHeader "") eqn:He; [discriminate|].
    destruct (Middleware.Split authHeader) as [|scheme [|token [|x l]]] eqn:Hs;
      try discriminate.
    destruct (streq scheme "Bearer") eqn:Hb; [|discriminate]. cbn [negb].
    apply streq_true in Hb as ->.
    destruct (VerifyToken token) as [u|e] eqn:Hv; [|discriminate].
    intros [= ->]. exists token.
    apply Split_head in Hs as [_ [[Hnil _]|(s' & -> & Hs')]]; [discriminate|].
    apply Split_head in Hs' as [Htok [[_ ->]|(s'' & _ & Hs'')]].
    + auto.
    + by destruct (Split_nonempty s'').
  - intros (token & -> & Htok & Hv).
    assert (Hs : Middleware.Split ("Bearer " ++ token) = ["Bearer"; token]).
    { change ("Bearer " ++ token)%string with ("Bearer" ++ " " ++ token)%string.
      rewrite Split_word_blank by reflexivity. by rewrite (Split_no_space token Htok). }
    rewrite Hs, Hv. reflexivity.
Qed.
End MiddlewareProperties.

Lemma JWTAuth_passes_witness :
  Middleware.JWTAuth verify0 "Bearer tok-1" = Middleware.Next "user-1"
  /\ Middleware.JWTAuth verify0 "bearer tok-1"
     = Middleware.Unauthorized "Format d'autorisation invalide"
  /\ Middleware.JWTAuth verify0 "Bearer  tok-1"
     = Middleware.Unauthorized "Format d'autorisation invalide".
Proof.
  split; [|split; reflexivity].
  apply (proj2 (JWTAuth_passes_iff verify0 "Bearer tok-1" "user-1")).
  exists "tok-1". split; [reflexivity|]. split; reflexivity.
Defined.
